(** * Cricbuzz LiveStats: the ingestion pipeline of [data_fetcher.py]
      and the write path of [utils/db_connection.py]

    A shallow embedding of the parts of the program that decide the
    properties stated about it:

    - [generate_player_id]               (Identity Resolver)
    - [make_api_request]                 (rate-limit handling)
    - [store_match_data]                 (Match Ingestor)
    - [determine_country_from_team_name] (team-country back-fill)
    - [store_scorecard_data_fixed]       (Scorecard Ingestor)
    - [update_player_statistics], [update_team_statistics] (Aggregator)
    - [execute_update]                   (Query Facade, write path)

    Conventions.  A Python [str] is represented by its UTF-8 bytes (a
    Rocq [string]), so that [s.encode()] is the identity;
    [str.lower()], which follows the case mapping of Unicode, is a
    parameter of the code that calls it.  SQLite INTEGER columns are
    [Z], nullable columns are [option].  A REAL value is a binary64
    number, held as the rational it denotes; the arithmetic on REALs
    rounds as binary64 does, and ROUND(x, 2), which SQLite computes
    through its own number formatting, is a parameter.  A Python
    [int] bound to a statement must fit 64 bits ([OverflowError]
    otherwise), and a SUM of integers that leaves 64 bits fails its
    statement.  A table is the list of its rows; a new row goes to
    the end, and where the order in which a scan visits the rows
    matters, the scan is written out ([select_teams],
    [scan_performance]).  The timestamp columns [created_at] and
    [updated_at] are not part of the rows: nothing is stated about
    them, and rows are compared on their other columns.  Foreign keys
    are declared but not enforced (the program never turns the pragma
    on), so they constrain nothing.  A Python [dict] that is iterated
    is an association list in insertion order.  JSON payloads are
    modelled at the shape the API documents: a key is absent, or holds
    a value of its documented type (numbers for ids and counts,
    strings for text, objects and arrays where the code reads them as
    such); payloads of another shape are outside the model.
    Exceptions are values: a computation returns [Ok] or [Raise], and
    keeps the state it had reached when it raised.  Printing and
    logging are left out.  The recursion limit of the interpreter is
    the [depth] of [make_api_request]; what the program does once it
    is reached is not described. *)

From Stdlib Require Import ZArith List String Ascii Bool Lia QArith Qround Qabs.
From Stdlib Require Import Permutation.
From Stdlib Require Import DecimalString.
Import ListNotations.

Local Open Scope string_scope.
Local Open Scope list_scope.
Local Open Scope Z_scope.

(* ================================================================== *)
(** * Python built-ins used by the program *)
(* ================================================================== *)

Module Py.

(** [str(n)] for an [int]. *)
Definition str_of_int (n : Z) : string :=
  NilZero.string_of_int (Z.to_int n).

(** How an f-string renders a value that is an [int] or [None]. *)
Definition format_opt_int (v : option Z) : string :=
  match v with
  | Some n => str_of_int n
  | None => "None"
  end.

(** The bytes of a [str] (its UTF-8 encoding), as numbers below 256. *)
Fixpoint encode (s : string) : list Z :=
  match s with
  | EmptyString => []
  | String c s' => Z.of_N (N_of_ascii c) :: encode s'
  end.

(** [s[:n]]. *)
Fixpoint slice_to (n : nat) (s : string) : string :=
  match n, s with
  | O, _ => EmptyString
  | S _, EmptyString => EmptyString
  | S n', String c s' => String c (slice_to n' s')
  end.

(** The value of one hexadecimal digit, [None] for any other
    character. *)
Definition hex_value (c : ascii) : option Z :=
  let n := Z.of_N (N_of_ascii c) in
  if (48 <=? n) && (n <=? 57) then Some (n - 48)
  else if (97 <=? n) && (n <=? 102) then Some (n - 87)
  else if (65 <=? n) && (n <=? 70) then Some (n - 55)
  else None.

Fixpoint int16_from (acc : Z) (s : string) : option Z :=
  match s with
  | EmptyString => Some acc
  | String c s' =>
      match hex_value c with
      | Some d => int16_from (16 * acc + d) s'
      | None => None
      end
  end.

(** [int(s, 16)] on a string of hexadecimal digits; [None] stands
    for the [ValueError] raised on the empty string and on a
    character that is not a digit.  (Signs, prefixes, underscores and
    surrounding white space, which [int] also accepts, do not occur
    in a hex digest.) *)
Definition int_base16 (s : string) : option Z :=
  match s with
  | EmptyString => None
  | _ => int16_from 0 s
  end.

(** [str.lower()] belongs to the interpreter: it follows the case
    mapping of Unicode, under which also characters outside ASCII can
    become ASCII letters (U+212A, the Kelvin sign, becomes "k").  The
    code that calls it takes it as a parameter; [lower] below is what
    it does to a str of ASCII characters, and serves to run
    examples. *)
Definition lower_ascii (c : ascii) : ascii :=
  let n := N_of_ascii c in
  if (N.leb 65 n && N.leb n 90)%bool then ascii_of_N (n + 32) else c.

(** [s.lower()] for a str [s] of ASCII characters. *)
Fixpoint lower (s : string) : string :=
  match s with
  | EmptyString => EmptyString
  | String c s' => String (lower_ascii c) (lower s')
  end.

(** [k in s] for two strings: [k] occurs in [s] as a substring. *)
Fixpoint contains (k s : string) : bool :=
  if String.prefix k s then true
  else match s with
       | EmptyString => false
       | String _ s' => contains k s'
       end.

End Py.

(* ================================================================== *)
(** * [hashlib.md5] (RFC 1321) *)
(* ================================================================== *)

Module MD5.

Definition w32 (x : Z) : Z := x mod 2 ^ 32.
Definition add32 (x y : Z) : Z := w32 (x + y).
Definition not32 (x : Z) : Z := 2 ^ 32 - 1 - x.
Definition rotl32 (x s : Z) : Z :=
  Z.lor (w32 (Z.shiftl x s)) (Z.shiftr x (32 - s)).

(** floor(2^32 * |sin (i+1)|), i = 0 .. 63. *)
Definition K : list Z :=
  [ 0xd76aa478; 0xe8c7b756; 0x242070db; 0xc1bdceee;
    0xf57c0faf; 0x4787c62a; 0xa8304613; 0xfd469501;
    0x698098d8; 0x8b44f7af; 0xffff5bb1; 0x895cd7be;
    0x6b901122; 0xfd987193; 0xa679438e; 0x49b40821;
    0xf61e2562; 0xc040b340; 0x265e5a51; 0xe9b6c7aa;
    0xd62f105d; 0x02441453; 0xd8a1e681; 0xe7d3fbc8;
    0x21e1cde6; 0xc33707d6; 0xf4d50d87; 0x455a14ed;
    0xa9e3e905; 0xfcefa3f8; 0x676f02d9; 0x8d2a4c8a;
    0xfffa3942; 0x8771f681; 0x6d9d6122; 0xfde5380c;
    0xa4beea44; 0x4bdecfa9; 0xf6bb4b60; 0xbebfbc70;
    0x289b7ec6; 0xeaa127fa; 0xd4ef3085; 0x04881d05;
    0xd9d4d039; 0xe6db99e5; 0x1fa27cf8; 0xc4ac5665;
    0xf4292244; 0x432aff97; 0xab9423a7; 0xfc93a039;
    0x655b59c3; 0x8f0ccc92; 0xffeff47d; 0x85845dd1;
    0x6fa87e4f; 0xfe2ce6e0; 0xa3014314; 0x4e0811a1;
    0xf7537e82; 0xbd3af235; 0x2ad7d2bb; 0xeb86d391 ].

(** Per-round left-rotation amounts. *)
Definition shifts : list Z :=
  [ 7; 12; 17; 22; 7; 12; 17; 22; 7; 12; 17; 22; 7; 12; 17; 22;
    5; 9; 14; 20; 5; 9; 14; 20; 5; 9; 14; 20; 5; 9; 14; 20;
    4; 11; 16; 23; 4; 11; 16; 23; 4; 11; 16; 23; 4; 11; 16; 23;
    6; 10; 15; 21; 6; 10; 15; 21; 6; 10; 15; 21; 6; 10; 15; 21 ].

Record state := mkState { sa : Z; sb : Z; sc : Z; sd : Z }.

Definition init : state :=
  mkState 0x67452301 0xefcdab89 0x98badcfe 0x10325476.

(** The round function and the message-word index of step [i]. *)
Definition mix (i b c d : Z) : Z :=
  if i <? 16 then Z.lor (Z.land b c) (Z.land (not32 b) d)
  else if i <? 32 then Z.lor (Z.land d b) (Z.land (not32 d) c)
  else if i <? 48 then Z.lxor b (Z.lxor c d)
  else Z.lxor c (Z.lor b (not32 d)).

Definition word_index (i : Z) : Z :=
  if i <? 16 then i
  else if i <? 32 then (5 * i + 1) mod 16
  else if i <? 48 then (3 * i + 5) mod 16
  else (7 * i) mod 16.

Definition step (m : list Z) (st : state) (i : Z) : state :=
  let f := mix i (sb st) (sc st) (sd st) in
  let g := Z.to_nat (word_index i) in
  let t := add32 (add32 (add32 f (sa st)) (nth (Z.to_nat i) K 0)) (nth g m 0) in
  mkState (sd st)
          (add32 (sb st) (rotl32 t (nth (Z.to_nat i) shifts 0)))
          (sb st)
          (sc st).

Definition steps : list Z := map Z.of_nat (seq 0 64).

(** One 512-bit block, given as sixteen little-endian words. *)
Definition compress (st : state) (m : list Z) : state :=
  let r := fold_left (step m) steps st in
  mkState (add32 (sa st) (sa r)) (add32 (sb st) (sb r))
          (add32 (sc st) (sc r)) (add32 (sd st) (sd r)).

(** Little-endian bytes of a number, [n] of them. *)
Fixpoint le_bytes (n : nat) (x : Z) : list Z :=
  match n with
  | O => []
  | S n' => x mod 256 :: le_bytes n' (x / 256)
  end.

Fixpoint le_word (bs : list Z) : Z :=
  match bs with
  | [] => 0
  | b :: bs' => b + 256 * le_word bs'
  end.

(** Message padding: a 0x80 byte, zeros up to 56 modulo 64, then the
    bit length on 64 bits. *)
Definition pad (msg : list Z) : list Z :=
  let len := Z.of_nat (List.length msg) in
  let zeros := Z.to_nat ((55 - len) mod 64) in
  msg ++ 128 :: repeat 0 zeros ++ le_bytes 8 ((8 * len) mod 2 ^ 64).

(** Cut a byte list into groups of [k] (the last one may be short);
    [fuel] bounds the number of groups. *)
Fixpoint chunks (fuel k : nat) (l : list Z) : list (list Z) :=
  match fuel, l with
  | O, _ => []
  | _, [] => []
  | S f, _ => firstn k l :: chunks f k (skipn k l)
  end.

Definition block_words (blk : list Z) : list Z :=
  map le_word (chunks 16 4 blk).

Definition blocks (bytes : list Z) : list (list Z) :=
  map block_words (chunks (List.length bytes) 64 bytes).

Definition final_state (msg : list Z) : state :=
  fold_left compress (blocks (pad msg)) init.

(** [md5(msg).digest()]: the four state words, little-endian. *)
Definition digest (msg : list Z) : list Z :=
  let st := final_state msg in
  le_bytes 4 (sa st) ++ le_bytes 4 (sb st)
    ++ le_bytes 4 (sc st) ++ le_bytes 4 (sd st).

Definition hex_digit (n : Z) : ascii :=
  ascii_of_N (Z.to_N (if n <? 10 then 48 + n else 87 + n)).

Fixpoint hex_of_bytes (bs : list Z) : string :=
  match bs with
  | [] => EmptyString
  | b :: bs' =>
      String (hex_digit (b / 16)) (String (hex_digit (b mod 16)) (hex_of_bytes bs'))
  end.

(** [md5(msg).hexdigest()]. *)
Definition hexdigest (msg : list Z) : string :=
  hex_of_bytes (digest msg).

End MD5.

(* ================================================================== *)
(** * Identity Resolver *)
(* ================================================================== *)

(** The fetcher object: its counters ([self.stats]).  The API key, the
    URLs and the session play no part in what follows. *)
Record Stats := mkStats {
  api_calls : Z;
  successful_calls : Z;
  failed_calls : Z;
  matches_stored : Z;
  players_stored : Z;
  performances_stored : Z
}.

Definition stats0 : Stats := mkStats 0 0 0 0 0 0.

(** [generate_player_id(self, player_key, player_name, team_id)].
    [team_id] is [None] when the payload has no team id.  The result
    is [None] when [int(..., 16)] raises. *)
Definition generate_player_id (self : Stats)
    (player_key player_name : string) (team_id : option Z) : option Z :=
  let unique_string :=
    (player_key ++ "_" ++ player_name ++ "_"
       ++ Py.format_opt_int team_id)%string in
  let hexdigest := MD5.hexdigest (Py.encode unique_string) in
  match Py.int_base16 (Py.slice_to 8 hexdigest) with
  | Some player_id => Some (Z.abs player_id mod 999999999 + 1000000)
  | None => None
  end.

(** The first eight hexadecimal digits of a digest are the first state
    word, byte-swapped. *)
Definition digest_prefix_value (msg : list Z) : Z :=
  let a := MD5.sa (MD5.final_state msg) in
  256 * (256 * (256 * (a mod 256) + (a / 256) mod 256)
         + (a / 256 / 256) mod 256) + (a / 256 / 256 / 256) mod 256.

(* ================================================================== *)
(** * Team-country back-fill *)
(* ================================================================== *)

(** The literal [country_mapping] of [determine_country_from_team_name],
    in the order in which the dict is written (and iterated). *)
Definition country_mapping : list (string * string) :=
  [ ("india", "India"); ("australia", "Australia"); ("england", "England");
    ("pakistan", "Pakistan"); ("south africa", "South Africa");
    ("new zealand", "New Zealand"); ("sri lanka", "Sri Lanka");
    ("bangladesh", "Bangladesh"); ("afghanistan", "Afghanistan");
    ("west indies", "West Indies"); ("ireland", "Ireland");
    ("scotland", "Scotland"); ("netherlands", "Netherlands");
    ("zimbabwe", "Zimbabwe"); ("hong kong", "Hong Kong");
    ("uae", "United Arab Emirates");
    ("united arab emirates", "United Arab Emirates") ].

(** The [for key, value in mapping.items()] loop: the value of the
    first entry whose key occurs in [team_lower]. *)
Fixpoint first_country (mapping : list (string * string))
    (team_lower : string) : option string :=
  match mapping with
  | [] => None
  | (key, value) :: rest =>
      if Py.contains key team_lower then Some value
      else first_country rest team_lower
  end.

Section CountryOfTeam.

(** [str.lower] of the interpreter. *)
Variable lower : string -> string.

(** The keys of the mapping are ASCII, so [key in team_lower] on the
    UTF-8 bytes is [key in team_lower] on the characters. *)
Definition determine_country_from_team_name (team_name : string) : string :=
  let team_lower := lower team_name in
  match first_country country_mapping team_lower with
  | Some value => value
  | None => team_name
  end.

End CountryOfTeam.

(** [k] occurs in [s]. *)
Definition substring_of (k s : string) : Prop :=
  exists a b : string, s = (a ++ k ++ b)%string.

(* ================================================================== *)
(** * Outbound API calls: [make_api_request] *)
(* ================================================================== *)

Section ApiRequest.

(** The decoded JSON document of a response. *)
Variable Payload : Type.

(** What [self.session.get] does on one attempt: it returns a response
    with a status code (whose [.json()] gives a document, or raises),
    or it raises. *)
Inductive Reply :=
| Http (status_code : Z) (json : option Payload)
| RequestException
| OtherException.

(** The outside world of the fetcher: the endpoints of the GET requests
    it has sent, oldest first, and for how many seconds it has slept.
    The upstream API is a function from the number of a request to the
    reply it gets. *)
Record Net := mkNet { sent_log : list string; seconds_slept : Z }.

Definition requests_sent (net : Net) : nat := List.length (sent_log net).

Definition sleep (secs : Z) (net : Net) : Net :=
  mkNet (sent_log net) (seconds_slept net + secs).

Definition sent (endpoint : string) (net : Net) : Net :=
  mkNet (sent_log net ++ [endpoint]) (seconds_slept net).

Definition count_api_call (s : Stats) : Stats :=
  mkStats (api_calls s + 1) (successful_calls s) (failed_calls s)
          (matches_stored s) (players_stored s) (performances_stored s).

Definition count_success (s : Stats) : Stats :=
  mkStats (api_calls s) (successful_calls s + 1) (failed_calls s)
          (matches_stored s) (players_stored s) (performances_stored s).

Definition count_failure (s : Stats) : Stats :=
  mkStats (api_calls s) (successful_calls s) (failed_calls s + 1)
          (matches_stored s) (players_stored s) (performances_stored s).

(** The result of a call: a returned value ([None] is Python's
    [None]), or [RecursionLimit]: the recursion limit of the
    interpreter was reached during the call. *)
Inductive Returned :=
| Return (data : option Payload)
| RecursionLimit.

(** [make_api_request(self, endpoint, params, description)]; the query
    parameters and the description travel with the endpoint.  The 60
    one-second sleeps of the countdown are one [sleep 60].

    The function calls itself on a 429 reply.  [depth] is the number
    of nested calls of it that the interpreter can still carry out in
    full.  When none is left, a [RecursionError] arises somewhere
    inside the innermost call (in [print_status], in the sleep or below
    [session.get]); which handlers then still have room to run, and
    what they count, depends on the interpreter and on the libraries
    underneath.  That is not described here: the call ends with
    [RecursionLimit], handed up unchanged, and nothing is stated about
    such a run beyond the requests and sleeps that came before. *)
Fixpoint make_api_request (depth : nat) (server : nat -> Reply)
    (self : Stats) (net : Net) (endpoint : string)
  : Stats * Net * Returned :=
  match depth with
  | O => (self, net, RecursionLimit)
  | S depth' =>
      let self := count_api_call self in
      let net := sleep 1 net in
      let reply := server (requests_sent net) in
      let net := sent endpoint net in
      match reply with
      | Http status_code json =>
          if status_code =? 200 then
            let self := count_success self in
            match json with
            | Some data => (self, net, Return (Some data))
            | None => (count_failure self, net, Return None)
            end
          else if status_code =? 429 then
            let self := count_failure self in
            let net := sleep 60 net in
            make_api_request depth' server self net endpoint
          else (count_failure self, net, Return None)
      | RequestException => (count_failure self, net, Return None)
      | OtherException => (count_failure self, net, Return None)
      end
  end.

(** Number of GET requests one call sends. *)
Definition attempts (depth : nat) (server : nat -> Reply)
    (self : Stats) (net : Net) (endpoint : string) : nat :=
  (requests_sent (snd (fst (make_api_request depth server self net endpoint)))
   - requests_sent net)%nat.

(** Seconds one call spends sleeping. *)
Definition time_slept (depth : nat) (server : nat -> Reply)
    (self : Stats) (net : Net) (endpoint : string) : Z :=
  seconds_slept (snd (fst (make_api_request depth server self net endpoint)))
  - seconds_slept net.

Definition rate_limited (r : Reply) : Prop :=
  exists json, r = Http 429 json.

(** What a call returns when the reply that ends it is [r]. *)
Definition outcome_of (r : Reply) : option Payload :=
  match r with
  | Http status_code (Some data) =>
      if status_code =? 200 then Some data else None
  | _ => None
  end.

End ApiRequest.

Arguments Http {Payload} _ _.
Arguments RequestException {Payload}.
Arguments OtherException {Payload}.
Arguments Return {Payload} _.
Arguments RecursionLimit {Payload}.
Arguments make_api_request {Payload} _ _ _ _ _.
Arguments attempts {Payload} _ _ _ _ _.
Arguments time_slept {Payload} _ _ _ _ _.
Arguments rate_limited {Payload} _.
Arguments outcome_of {Payload} _.

(** A server that answers 429 to the first [n] requests and 200 with
    [data] from then on. *)
Definition busy_then_ok {Payload} (n : nat) (data : Payload)
  : nat -> Reply Payload :=
  fun k => if (k <? n)%nat then Http 429 None else Http 200 (Some data).

Definition net0 : Net := mkNet [] 0.

(* ================================================================== *)
(** * Exceptions and state *)
(* ================================================================== *)

Inductive Exn :=
| NameError (name : string)
| OverflowError
| ValueError
| IntegrityError (constraint : string)
| ProgrammingError (message : string)
| OperationalError (message : string).

Inductive Result (A : Type) :=
| Ok (a : A)
| Raise (e : Exn).

Arguments Ok {A} _.
Arguments Raise {A} _.

(** A computation over a state [S] that returns or raises; the state
    it leaves behind holds whatever it did before raising. *)
Definition M (S A : Type) : Type := S -> S * Result A.

Definition ret {S A : Type} (a : A) : M S A := fun s => (s, Ok a).

Definition bind {S A B : Type} (m : M S A) (k : A -> M S B) : M S B :=
  fun s =>
    match m s with
    | (s', Ok a) => k a s'
    | (s', Raise e) => (s', Raise e)
    end.

Definition raise {S A : Type} (e : Exn) : M S A := fun s => (s, Raise e).

(** [try: body except Exception as e: handler]. *)
Definition try_except {S A : Type} (body : M S A) (handler : Exn -> M S A)
  : M S A :=
  fun s =>
    match body s with
    | (s', Ok a) => (s', Ok a)
    | (s', Raise e) => handler e s'
    end.

Definition modify {S : Type} (f : S -> S) : M S unit := fun s => (f s, Ok tt).

Definition gets {S A : Type} (f : S -> A) : M S A := fun s => (s, Ok (f s)).

Definition when {S : Type} (c : bool) (m : M S unit) : M S unit :=
  if c then m else ret tt.

Declare Scope py_scope.
Delimit Scope py_scope with py.
Notation "x <- c1 ;; c2" := (bind c1 (fun x => c2))
  (at level 61, c1 at next level, right associativity) : py_scope.
Notation "c1 ;; c2" := (bind c1 (fun _ => c2))
  (at level 61, right associativity) : py_scope.

(** [for x in xs: body x]. *)
Fixpoint for_each {S A : Type} (xs : list A) (body : A -> M S unit)
  : M S unit :=
  match xs with
  | [] => ret tt
  | x :: rest => bind (body x) (fun _ => for_each rest body)
  end.

(* ================================================================== *)
(** * The relational store *)
(* ================================================================== *)

Record TeamRow := mkTeam {
  t_team_id : Z;                    (* INTEGER PRIMARY KEY *)
  t_team_name : string;             (* TEXT UNIQUE NOT NULL *)
  t_team_sname : option string;
  t_country : option string
}.

Record VenueRow := mkVenue {
  v_venue_id : Z;                   (* INTEGER PRIMARY KEY *)
  v_venue_name : string;            (* TEXT NOT NULL *)
  v_city : option string;
  v_country : option string;
  v_capacity : option Z
}.

(** A row of [matches], without its created_at: that column takes
    CURRENT_TIMESTAMP whenever a row is written, also when INSERT OR
    REPLACE writes a row in place of an older one. *)
Record MatchRow := mkMatch {
  m_match_id : Z;                   (* INTEGER PRIMARY KEY *)
  m_match_desc : option string;
  m_match_format : option string;
  m_match_date : option string;
  m_series_id : option Z;
  m_team1_id : option Z;
  m_team2_id : option Z;
  m_venue_id : option Z;
  m_toss_winner_id : option Z;
  m_toss_decision : option string;
  m_match_winner_id : option Z;
  m_victory_margin : option Z;
  m_victory_type : option string;
  m_match_status : option string    (* DEFAULT 'Completed' *)
}.

(** A value an SQL expression evaluates to. *)
Inductive SqlValue :=
| SqlNull
| SqlInt (z : Z)
| SqlReal (q : Q).

Record PlayerRow := mkPlayer {
  p_player_id : Z;                  (* INTEGER PRIMARY KEY *)
  p_player_name : string;           (* TEXT NOT NULL *)
  p_team_id : option Z;
  p_role : option string;
  p_matches_played : SqlValue;      (* DEFAULT 0 *)
  p_runs_scored : SqlValue;         (* DEFAULT 0 *)
  p_wickets_taken : SqlValue;       (* DEFAULT 0 *)
  p_batting_average : SqlValue;     (* REAL DEFAULT 0.0 *)
  p_strike_rate : SqlValue;         (* REAL DEFAULT 0.0 *)
  p_player_key : option string
}.

Record PerformanceRow := mkPerformance {
  pmp_performance_id : Z;           (* INTEGER PRIMARY KEY *)
  pmp_player_id : Z;
  pmp_match_id : Z;
  pmp_team_id : option Z;
  pmp_innings_number : Z;
  pmp_batting_order : option Z;
  pmp_runs_scored : Z;              (* DEFAULT 0 *)
  pmp_balls_faced : Z;              (* DEFAULT 0 *)
  pmp_strike_rate : Q;              (* DEFAULT 0.0 *)
  pmp_fours : Z;                    (* DEFAULT 0 *)
  pmp_sixes : Z;                    (* DEFAULT 0 *)
  pmp_overs_bowled : Q;             (* DEFAULT 0.0 *)
  pmp_wickets_taken : Z;            (* DEFAULT 0 *)
  pmp_runs_conceded : Z;            (* DEFAULT 0 *)
  pmp_economy_rate : Q;             (* DEFAULT 0.0 *)
  pmp_maidens : Z;                  (* DEFAULT 0 *)
  pmp_out_desc : option string;
  pmp_player_key : option string
  (* UNIQUE(match_id, player_id, innings_number) *)
}.

Record TeamStatRow := mkTeamStat {
  ts_stat_id : Z;                   (* INTEGER PRIMARY KEY *)
  ts_team_id : option Z;            (* no UNIQUE constraint *)
  ts_matches_played : Z;
  ts_matches_won : Z;
  ts_matches_lost : Z;
  ts_matches_drawn : Z;             (* DEFAULT 0 *)
  ts_matches_tied : Z               (* DEFAULT 0 *)
}.

Record Database := mkDatabase {
  teams : list TeamRow;
  venues : list VenueRow;
  matches : list MatchRow;
  players : list PlayerRow;
  player_match_performance : list PerformanceRow;
  team_statistics : list TeamStatRow
}.

Definition empty_db : Database := mkDatabase [] [] [] [] [] [].

Definition set_teams (f : list TeamRow -> list TeamRow) (d : Database) :=
  mkDatabase (f (teams d)) (venues d) (matches d) (players d)
             (player_match_performance d) (team_statistics d).
Definition set_venues (f : list VenueRow -> list VenueRow) (d : Database) :=
  mkDatabase (teams d) (f (venues d)) (matches d) (players d)
             (player_match_performance d) (team_statistics d).
Definition set_matches (f : list MatchRow -> list MatchRow) (d : Database) :=
  mkDatabase (teams d) (venues d) (f (matches d)) (players d)
             (player_match_performance d) (team_statistics d).
Definition set_players (f : list PlayerRow -> list PlayerRow) (d : Database) :=
  mkDatabase (teams d) (venues d) (matches d) (f (players d))
             (player_match_performance d) (team_statistics d).
Definition set_performance
    (f : list PerformanceRow -> list PerformanceRow) (d : Database) :=
  mkDatabase (teams d) (venues d) (matches d) (players d)
             (f (player_match_performance d)) (team_statistics d).
Definition set_team_statistics
    (f : list TeamStatRow -> list TeamStatRow) (d : Database) :=
  mkDatabase (teams d) (venues d) (matches d) (players d)
             (player_match_performance d) (f (team_statistics d)).

(** The rowid SQLite gives to a row inserted without one: one more
    than the largest in the table, 1 in an empty table. *)
Definition next_rowid {R : Type} (key : R -> Z) (table : list R) : Z :=
  fold_right (fun r acc => Z.max (key r) acc) 0 table + 1.

(** [SELECT team_id, team_name FROM teams]: both columns are in the
    index that UNIQUE(team_name) creates, and SQLite answers the query
    from that index, so the rows come in the order of their names,
    compared byte by byte (rows of equal name, which the constraint
    excludes, in the order of their ids). *)
Definition name_before (a b : TeamRow) : bool :=
  match String.compare (t_team_name a) (t_team_name b) with
  | Lt => true
  | Eq => t_team_id a <=? t_team_id b
  | Gt => false
  end.

Fixpoint insert_team_by_name (r : TeamRow) (sorted : list TeamRow)
  : list TeamRow :=
  match sorted with
  | [] => [r]
  | x :: rest =>
      if name_before r x then r :: sorted
      else x :: insert_team_by_name r rest
  end.

Definition select_teams (table : list TeamRow) : list TeamRow :=
  fold_right insert_team_by_name [] table.

(** Binding a Python [int] as a statement parameter: it must fit a
    signed 64-bit integer, else [sqlite3] raises [OverflowError]. *)
Definition sqlite_int (z : Z) : bool :=
  (- 2 ^ 63 <=? z) && (z <? 2 ^ 63).

Definition sqlite_opt_int (v : option Z) : bool :=
  match v with
  | Some z => sqlite_int z
  | None => true
  end.

Definition bind_ints {S : Type} (params : list (option Z)) : M S unit :=
  if forallb sqlite_opt_int params then ret tt else raise OverflowError.

(** Python truthiness of an optional number ([None] and 0 are false)
    and of an optional string ([None] and the empty string are false). *)
Definition truthy (v : option Z) : bool :=
  match v with
  | Some z => negb (z =? 0)
  | None => false
  end.

Definition truthy_str (v : option string) : bool :=
  match v with
  | Some s => negb (String.eqb s "")
  | None => false
  end.

Definition opt_eqb (a : option Z) (b : Z) : bool :=
  match a with
  | Some z => z =? b
  | None => false
  end.

(* ================================================================== *)
(** * Match Ingestor: [store_match_data] *)
(* ================================================================== *)

(** One entry of a match list, as the API documents it. *)
Record TeamInfo := mkTeamInfo {
  teamId : option Z;
  teamName : option string;
  teamSName : option string
}.

Record VenueInfo := mkVenueInfo {
  venue_info_id : option Z;         (* key 'id' *)
  ground : option string;
  venue_info_city : option string   (* key 'city' *)
}.

Record MatchInfo := mkMatchInfo {
  matchId : option Z;
  matchDesc : option string;
  matchFormat : option string;
  team1 : option TeamInfo;
  team2 : option TeamInfo;
  venueInfo : option VenueInfo;
  startDate : option string;
  stateTitle : option string
}.

Record MatchData := mkMatchData { matchInfo : option MatchInfo }.

(** [d.get(key, default)] on a key that may be absent. *)
Definition get_default {A : Type} (v : option A) (default : A) : A :=
  match v with
  | Some a => a
  | None => default
  end.

(** The empty dict [{}] read at each of the three record types. *)
Definition no_team_info : TeamInfo := mkTeamInfo None None None.
Definition no_venue_info : VenueInfo := mkVenueInfo None None None.
Definition no_match_info : MatchInfo :=
  mkMatchInfo None None None None None None None None.

(** [INSERT OR IGNORE INTO teams (team_id, team_name, team_sname)]: the
    row is dropped when its id (primary key) or its name (UNIQUE) is
    already in the table. *)
Definition team_conflict (team_id : Z) (team_name : string) (r : TeamRow)
  : bool :=
  (t_team_id r =? team_id) || String.eqb (t_team_name r) team_name.

Definition insert_or_ignore_team_rows (team_id : Z) (team_name : string)
    (team_sname : option string) (table : list TeamRow) : list TeamRow :=
  if existsb (team_conflict team_id team_name) table then table
  else table ++ [mkTeam team_id team_name team_sname None].

Definition insert_or_ignore_team (team_id : Z) (team_name : string)
    (team_sname : option string) : M Database unit :=
  (bind_ints [Some team_id] ;;
   modify (set_teams (insert_or_ignore_team_rows team_id team_name team_sname)))%py.

(** [INSERT OR IGNORE INTO venues (venue_id, venue_name, city)]. *)
Definition insert_or_ignore_venue_rows (venue_id : Z) (venue_name : string)
    (city : option string) (table : list VenueRow) : list VenueRow :=
  if existsb (fun r => v_venue_id r =? venue_id) table then table
  else table ++ [mkVenue venue_id venue_name city None None].

Definition insert_or_ignore_venue (venue_id : Z) (venue_name : string)
    (city : option string) : M Database unit :=
  (bind_ints [Some venue_id] ;;
   modify (set_venues (insert_or_ignore_venue_rows venue_id venue_name city)))%py.

(** [INSERT OR REPLACE INTO matches (...)]: rows with the same primary
    key are deleted, then the new row is inserted. *)
Definition insert_or_replace_match_rows (row : MatchRow)
    (table : list MatchRow) : list MatchRow :=
  filter (fun r => negb (m_match_id r =? m_match_id row)) table ++ [row].

Definition insert_or_replace_match (row : MatchRow) : M Database unit :=
  (bind_ints [Some (m_match_id row); m_series_id row; m_team1_id row;
              m_team2_id row; m_venue_id row] ;;
   modify (set_matches (insert_or_replace_match_rows row)))%py.

Section MatchIngestor.

(** Lines 520-523: [datetime.fromtimestamp(int(ts) / 1000).date()] in
    the time zone of the process, as stored in the DATE column; [None]
    when [int] or [fromtimestamp] raises (the bare [except] passes). *)
Variable local_date : string -> option string.

Definition match_date_of (match_info : MatchInfo) : option string :=
  let start_date_ts := startDate match_info in
  if truthy_str start_date_ts
  then local_date (get_default start_date_ts "")
  else None.

Definition match_status_of (match_info : MatchInfo) (is_live : bool)
  : option string :=
  if is_live then Some "Live"
  else Some (get_default (stateTitle match_info) "Completed").

(** The row the INSERT of lines 529-545 writes; the columns it does not
    name are NULL. *)
Definition match_row_of (match_id : Z) (match_info : MatchInfo)
    (series_id : option Z) (is_live : bool) : MatchRow :=
  mkMatch match_id
          (matchDesc match_info)
          (matchFormat match_info)
          (match_date_of match_info)
          series_id
          (teamId (get_default (team1 match_info) no_team_info))
          (teamId (get_default (team2 match_info) no_team_info))
          (venue_info_id (get_default (venueInfo match_info) no_venue_info))
          None None None None None
          (match_status_of match_info is_live).

(** [store_match_data(self, cursor, match_data, series_id, is_live)].
    The whole body is in a [try]; the handler prints a message that
    names [match_id], which is bound by then for every payload of the
    documented shape (the two [.get] calls before it cannot raise on
    objects), so the handler itself does not raise.  Nothing is rolled
    back here: what was inserted before an exception stays with the
    caller's transaction. *)
Definition store_match_data (match_data : MatchData) (series_id : option Z)
    (is_live : bool) : M Database unit :=
  try_except
    (let match_info := get_default (matchInfo match_data) no_match_info in
     match matchId match_info with
     | None => ret tt
     | Some match_id =>
         if match_id =? 0 then ret tt
         else
           let team1_info := get_default (team1 match_info) no_team_info in
           let team2_info := get_default (team2 match_info) no_team_info in
           let team1_id := teamId team1_info in
           let team2_id := teamId team2_info in
           (when (truthy team1_id)
              (insert_or_ignore_team (get_default team1_id 0)
                 (get_default (teamName team1_info) "Unknown Team")
                 (teamSName team1_info)) ;;
            when (truthy team2_id)
              (insert_or_ignore_team (get_default team2_id 0)
                 (get_default (teamName team2_info) "Unknown Team")
                 (teamSName team2_info)) ;;
            let venue_info := get_default (venueInfo match_info) no_venue_info in
            let venue_id := venue_info_id venue_info in
            when (truthy venue_id)
              (insert_or_ignore_venue (get_default venue_id 0)
                 (get_default (ground venue_info) "Unknown Venue")
                 (venue_info_city venue_info)) ;;
            insert_or_replace_match
              (match_row_of match_id match_info series_id is_live))%py
     end)
    (fun e => ret tt).

(** The store after a call, whatever it returned. *)
Definition after_store_match_data (match_data : MatchData)
    (series_id : option Z) (is_live : bool) (d : Database) : Database :=
  fst (store_match_data match_data series_id is_live d).

(** The match id an entry carries. *)
Definition match_id_of (match_data : MatchData) : option Z :=
  matchId (get_default (matchInfo match_data) no_match_info).

(** The entry passes the guard on its id and every number it binds
    fits a 64-bit integer: the call reaches the INSERT into [matches]
    and the INSERT succeeds. *)
Definition accepted (match_data : MatchData) (series_id : option Z) : bool :=
  let match_info := get_default (matchInfo match_data) no_match_info in
  truthy (matchId match_info)
  && forallb sqlite_opt_int
       [ matchId match_info; series_id;
         teamId (get_default (team1 match_info) no_team_info);
         teamId (get_default (team2 match_info) no_team_info);
         venue_info_id (get_default (venueInfo match_info) no_venue_info) ].

End MatchIngestor.

(** The rows of [matches] with a given id. *)
Definition matches_with_id (match_id : Z) (d : Database) : list MatchRow :=
  filter (fun r => m_match_id r =? match_id) (matches d).

(** Two entries for match 501 between India (10) and Australia (20) at
    the Wankhede (99): as the live feed shows it, and as the recent
    feed shows it once it is over. *)
Definition india : TeamInfo := mkTeamInfo (Some 10) (Some "India") (Some "IND").
Definition australia : TeamInfo :=
  mkTeamInfo (Some 20) (Some "Australia") (Some "AUS").
Definition wankhede : VenueInfo :=
  mkVenueInfo (Some 99) (Some "Wankhede") (Some "Mumbai").

Definition match_501_in_play : MatchData :=
  mkMatchData (Some (mkMatchInfo (Some 501) (Some "1st ODI") (Some "ODI")
    (Some india) (Some australia) (Some wankhede) None (Some "In Progress"))).

Definition match_501_over : MatchData :=
  mkMatchData (Some (mkMatchInfo (Some 501) (Some "1st ODI") (Some "ODI")
    (Some india) (Some australia) (Some wankhede) None (Some "Completed"))).

(** An entry whose match id is the number 0. *)
Definition match_with_id_0 : MatchData :=
  mkMatchData (Some (mkMatchInfo (Some 0) (Some "Warm-up") (Some "T20")
    (Some india) (Some australia) (Some wankhede) None (Some "Completed"))).

(** A process in which no timestamp converts. *)
Definition no_date : string -> option string := fun _ => None.

(* ================================================================== *)
(** * Query Facade, write path: [execute_update] *)
(* ================================================================== *)

(** A statement with the values bound to its placeholders: it acts
    on the connection's view of the database and returns or raises.
    (A statement that raises may be written to leave changes behind;
    what [execute_update] does about them is the point.) *)
Definition Statement : Type := M Database unit.

(** An open connection: the database as stored in the file, and the
    connection's view of it, which holds the changes not yet
    committed. *)
Record Connection := mkConnection {
  stored : Database;
  view : Database
}.

Definition connect (d : Database) : Connection := mkConnection d d.
Definition commit (c : Connection) : Connection :=
  mkConnection (view c) (view c).
Definition rollback (c : Connection) : Connection :=
  mkConnection (stored c) (stored c).
(** [conn.close()]: what is not committed is lost. *)
Definition close (c : Connection) : Database := stored c.

(** [cursor.execute(query, params)] on a connection. *)
Definition cursor_execute (statement : Statement) (c : Connection)
  : Connection * Result unit :=
  let (v, r) := statement (view c) in (mkConnection (stored c) v, r).

(** What the environment allows: whether [get_connection] opens the
    file, and whether [conn.commit()] goes through. *)
Record Env := mkEnv { can_connect : bool; can_commit : bool }.

(** [execute_update(query, params=None)]: the database stored
    afterwards and the flag returned.  [statement] is the query with
    [params] bound; the two branches of [if params:] run that same
    statement, with or without a parameter sequence. *)
Definition execute_update (env : Env) (statement : Statement) (d : Database)
  : Database * bool :=
  if can_connect env then
    let conn := connect d in
    match cursor_execute statement conn with
    | (conn, Ok _) =>
        if can_commit env then (close (commit conn), true)
        else (close (rollback conn), false)
    | (conn, Raise e) => (close (rollback conn), false)
    end
  else (d, false).

(** [INSERT INTO teams (team_id, team_name, team_sname, country)
    VALUES (?, ?, ?, ?)] with an int and three strings (or [None])
    bound: a plain INSERT, which fails on a missing name and on a team
    id or a team name that the table already has. *)
Definition insert_team (team_id : Z) (team_name team_sname country : option string)
  : Statement :=
  fun d =>
    if negb (sqlite_int team_id) then (d, Raise OverflowError)
    else
      match team_name with
      | None =>
          (d, Raise (IntegrityError "NOT NULL constraint failed: teams.team_name"))
      | Some name =>
          if existsb (fun r => t_team_id r =? team_id) (teams d)
          then (d, Raise (IntegrityError "UNIQUE constraint failed: teams.team_id"))
          else if existsb (fun r => String.eqb (t_team_name r) name) (teams d)
          then (d, Raise (IntegrityError "UNIQUE constraint failed: teams.team_name"))
          else (set_teams (fun t => t ++ [mkTeam team_id name team_sname country]) d,
                Ok tt)
      end.

(** A statement that changes a row and then raises (as a trigger or a
    user-defined function may). *)
Definition rename_then_fail : Statement :=
  fun d =>
    (set_teams (map (fun r => mkTeam (t_team_id r) "renamed" (t_team_sname r)
                                     (t_country r))) d,
     Raise (IntegrityError "constraint failed")).

(** The sample teams of [insert_sample_data]. *)
Definition sample_teams : Database :=
  set_teams (fun _ =>
    [ mkTeam 1 "India" (Some "IND") (Some "India");
      mkTeam 2 "Australia" (Some "AUS") (Some "Australia");
      mkTeam 3 "England" (Some "ENG") (Some "England");
      mkTeam 4 "Pakistan" (Some "PAK") (Some "Pakistan") ]) empty_db.

Definition all_fine : Env := mkEnv true true.

(* ================================================================== *)
(** * SQL expressions of the Aggregator *)
(* ================================================================== *)

(** In SQLite a division by zero is NULL, an aggregate over no row is
    NULL (SUM) or 0 (COUNT), and a comparison with NULL is NULL; none
    of these raises.  What does fail a statement is a SUM of integers
    that leaves the 64-bit range. *)
Module Sql.

Definition to_Q (v : SqlValue) : option Q :=
  match v with
  | SqlNull => None
  | SqlInt z => Some (inject_Z z)
  | SqlReal q => Some q
  end.

(** ** REAL arithmetic

    A REAL is an IEEE 754 binary64 number; [SqlReal q] holds the
    rational [q] that the number denotes.  [binary64 q] is the
    binary64 number nearest to [q], ties to the even significand: with
    it the conversion of an integer and the correctly rounded product
    and quotient are written out.  (Infinities do not arise: the
    values of the Aggregator stay below 2^71.) *)

Definition pow2 (e : Z) : Q :=
  if 0 <=? e then inject_Z (2 ^ e) else 1 # Z.to_pos (2 ^ (- e)).

(** The nearest integer, ties to even. *)
Definition half_even (q : Q) : Z :=
  let f := Qfloor q in
  match Qcompare (q - inject_Z f) (1 # 2) with
  | Lt => f
  | Gt => f + 1
  | Eq => if Z.even f then f else f + 1
  end.

Definition binary64 (q : Q) : Q :=
  if Qeq_bool q 0 then 0%Q
  else
    let a := Qabs q in
    let e0 := Z.log2 (Z.abs (Qnum q)) - Z.log2 (Zpos (Qden q)) - 52 in
    let e1 := if Qle_bool (pow2 (e0 + 52)) a then e0 else e0 - 1 in
    let e := Z.max e1 (- 1074) in
    let m := half_even (a / pow2 e) in
    let r := (inject_Z m * pow2 e)%Q in
    Qred (if Qle_bool 0 q then r else (- r)%Q).

(** [(double) n]: an integer used where a REAL is needed. *)
Definition real_of_int (z : Z) : Q := binary64 (inject_Z z).

Definition real_mul (x y : Q) : Q := binary64 (x * y).

Definition real_div (x y : Q) : Q := binary64 (x / y).

(** ** Aggregates *)

(** [COUNT( * )] over the selected rows. *)
Definition count {R : Type} (rows : list R) : SqlValue :=
  SqlInt (Z.of_nat (List.length rows)).

Definition total (values : list Z) : Z := fold_right Z.add 0 values.

(** The 64-bit accumulator of SUM: [None] as soon as a partial sum
    leaves the range. *)
Fixpoint running_sum (acc : Z) (values : list Z) : option Z :=
  match values with
  | [] => Some acc
  | v :: rest =>
      if sqlite_int (acc + v) then running_sum (acc + v) rest else None
  end.

(** [SUM(col)] of an INTEGER column, over the values in the order in
    which the scan visits the rows: NULL when no row is selected, and
    the statement fails with "integer overflow" when a partial sum
    does not fit 64 bits. *)
Definition sum (values : list Z) : Result SqlValue :=
  match values with
  | [] => Ok SqlNull
  | _ :: _ =>
      match running_sum 0 values with
      | Some t => Ok (SqlInt t)
      | None => Raise (OperationalError "integer overflow")
      end
  end.

(** [SUM(CASE WHEN c THEN 1 ELSE 0 END)]: every partial sum of such
    flags is at most the number of rows of the table, which is below
    2^63 (a rowid is a 64-bit integer), so this SUM never overflows
    and is taken as the total. *)
Definition sum_of_flags (flags : list Z) : SqlValue :=
  match flags with
  | [] => SqlNull
  | _ :: _ => SqlInt (total flags)
  end.

(** [COUNT(DISTINCT col)]. *)
Definition count_distinct (values : list Z) : SqlValue :=
  SqlInt (Z.of_nat (List.length (nodup Z.eq_dec values))).

(** ** Scalar expressions *)

(** [COALESCE(v, d)]. *)
Definition coalesce (v d : SqlValue) : SqlValue :=
  match v with
  | SqlNull => d
  | _ => v
  end.

(** [CAST(v AS FLOAT)]. *)
Definition cast_float (v : SqlValue) : SqlValue :=
  match v with
  | SqlNull => SqlNull
  | SqlInt z => SqlReal (real_of_int z)
  | SqlReal q => SqlReal q
  end.

(** [a * b]: in integers when both operands are integers and the
    product fits 64 bits, in REAL arithmetic otherwise. *)
Definition mul (a b : SqlValue) : SqlValue :=
  match a, b with
  | SqlNull, _ | _, SqlNull => SqlNull
  | SqlInt x, SqlInt y =>
      if sqlite_int (x * y) then SqlInt (x * y)
      else SqlReal (real_mul (real_of_int x) (real_of_int y))
  | SqlInt x, SqlReal y => SqlReal (real_mul (real_of_int x) y)
  | SqlReal x, SqlInt y => SqlReal (real_mul x (real_of_int y))
  | SqlReal x, SqlReal y => SqlReal (real_mul x y)
  end.

Definition divide_reals (x y : Q) : SqlValue :=
  if Qeq_bool y 0 then SqlNull else SqlReal (real_div x y).

(** [a / b]: NULL when the divisor is zero; the truncated quotient
    when both operands are integers (the one quotient that does not
    fit, -2^63 / -1, is computed in REAL arithmetic).  An integer
    divisor of a REAL is converted first, and the converted number is
    zero exactly when the integer is. *)
Definition div (a b : SqlValue) : SqlValue :=
  match a, b with
  | SqlNull, _ | _, SqlNull => SqlNull
  | SqlInt x, SqlInt y =>
      if y =? 0 then SqlNull
      else if (x =? - 2 ^ 63) && (y =? - 1)
           then divide_reals (real_of_int x) (real_of_int y)
           else SqlInt (Z.quot x y)
  | SqlInt x, SqlReal y => divide_reals (real_of_int x) y
  | SqlReal x, SqlInt y =>
      if y =? 0 then SqlNull else SqlReal (real_div x (real_of_int y))
  | SqlReal x, SqlReal y => divide_reals x y
  end.

(** [a > b]: 1, 0 or NULL. *)
Definition gt (a b : SqlValue) : SqlValue :=
  match to_Q a, to_Q b with
  | Some x, Some y => SqlInt (if Qle_bool x y then 0 else 1)
  | _, _ => SqlNull
  end.

(** A condition holds when it is neither NULL nor zero. *)
Definition holds (c : SqlValue) : bool :=
  match to_Q c with
  | Some x => negb (Qeq_bool x 0)
  | None => false
  end.

(** [CASE WHEN c THEN t ELSE e END]. *)
Definition case_when (c t e : SqlValue) : SqlValue :=
  if holds c then t else e.

(** [ROUND(v, 2)]: a REAL, or NULL.  SQLite rounds by printing the
    number with two decimals through its own formatting routine and
    reading the text back; which way a value next to a tie goes
    depends on the version and the platform of the library
    (ROUND(1.005, 2) is 1.01 in SQLite 3.40, although the binary64
    number behind 1.005 lies below the tie).  The function on the
    numbers is therefore a parameter, [round_to_2]. *)
Definition round_2 (round_to_2 : Q -> Q) (v : SqlValue) : SqlValue :=
  match v with
  | SqlNull => SqlNull
  | SqlInt z => SqlReal (round_to_2 (real_of_int z))
  | SqlReal q => SqlReal (round_to_2 q)
  end.

(** The nearest integer, halves away from zero. *)
Definition nearest (q : Q) : Z :=
  if Qle_bool 0 q then Qfloor (q + (1 # 2)) else - Qfloor (- q + (1 # 2)).

(** A rational rounded to two decimals, in lowest terms. *)
Definition round2 (q : Q) : Q := Qred (nearest (q * 100) # 100).

(** One rounding function to run examples with: the binary64 number
    nearest to the value rounded to two decimals.  It is what every
    version of ROUND returns for a value that is not next to a tie. *)
Definition decimal_round (q : Q) : Q := binary64 (round2 q).

End Sql.

(* ================================================================== *)
(** * Aggregator: [update_player_statistics] *)
(* ================================================================== *)

(** Rows in the order of an integer key (the rowid), rows of equal
    key in the order of the list. *)
Fixpoint insert_by {R : Type} (key : R -> Z) (x : R) (sorted : list R)
  : list R :=
  match sorted with
  | [] => [x]
  | y :: rest =>
      if key x <=? key y then x :: sorted else y :: insert_by key x rest
  end.

Definition in_order_of {R : Type} (key : R -> Z) (table : list R) : list R :=
  fold_right (insert_by key) [] table.

(** A scan of [player_match_performance] visits the rows in rowid
    order. *)
Definition scan_performance (perf : list PerformanceRow)
  : list PerformanceRow :=
  in_order_of pmp_performance_id perf.

(** [FROM player_match_performance WHERE player_id = players.player_id] *)
Definition rows_of_player (player_id : Z) (perf : list PerformanceRow)
  : list PerformanceRow :=
  filter (fun r => pmp_player_id r =? player_id) perf.

(** [... WHERE player_id = players.player_id AND runs_scored > 0] *)
Definition rows_with_runs (player_id : Z) (perf : list PerformanceRow)
  : list PerformanceRow :=
  filter (fun r => (pmp_player_id r =? player_id) && (0 <? pmp_runs_scored r))
         perf.

(** [... WHERE player_id = players.player_id AND balls_faced > 0] *)
Definition rows_with_balls (player_id : Z) (perf : list PerformanceRow)
  : list PerformanceRow :=
  filter (fun r => (pmp_player_id r =? player_id) && (0 <? pmp_balls_faced r))
         perf.

(** The value of an expression over aggregates: every aggregate of
    the sub-select is computed first, so a SUM that overflows fails
    the statement whichever branch of a CASE is taken. *)
Definition with_sum (values : list Z) (k : SqlValue -> Result SqlValue)
  : Result SqlValue :=
  match Sql.sum values with
  | Ok v => k v
  | Raise e => Raise e
  end.

Section PlayerAggregator.

(** [ROUND(x, 2)] of the SQLite library in use, on the numbers. *)
Variable round_to_2 : Q -> Q.

(** The five sub-selects of the UPDATE, for the player [player_id];
    [perf] is the performance table as a scan returns it. *)
Definition select_matches_played (player_id : Z) (perf : list PerformanceRow)
  : SqlValue :=
  Sql.count_distinct (map pmp_match_id (rows_of_player player_id perf)).

Definition select_runs_scored (player_id : Z) (perf : list PerformanceRow)
  : Result SqlValue :=
  with_sum (map pmp_runs_scored (rows_of_player player_id perf))
    (fun runs => Ok (Sql.coalesce runs (SqlInt 0))).

Definition select_wickets_taken (player_id : Z) (perf : list PerformanceRow)
  : Result SqlValue :=
  with_sum (map pmp_wickets_taken (rows_of_player player_id perf))
    (fun wickets => Ok (Sql.coalesce wickets (SqlInt 0))).

Definition select_batting_average (player_id : Z) (perf : list PerformanceRow)
  : Result SqlValue :=
  let rows := rows_with_runs player_id perf in
  with_sum (map pmp_runs_scored rows) (fun runs =>
    Ok (Sql.case_when
          (Sql.gt (Sql.count rows) (SqlInt 0))
          (Sql.round_2 round_to_2
             (Sql.div (Sql.cast_float runs) (Sql.count rows)))
          (SqlReal 0))).

Definition select_strike_rate (player_id : Z) (perf : list PerformanceRow)
  : Result SqlValue :=
  let rows := rows_with_balls player_id perf in
  with_sum (map pmp_balls_faced rows) (fun balls =>
    with_sum (map pmp_runs_scored rows) (fun runs =>
      Ok (Sql.case_when
            (Sql.gt balls (SqlInt 0))
            (Sql.round_2 round_to_2
               (Sql.div (Sql.mul (Sql.cast_float runs) (SqlInt 100)) balls))
            (SqlReal 0)))).

(** What the UPDATE makes of one row of [players], or the error that
    fails the statement. *)
Definition aggregate_player (perf : list PerformanceRow) (p : PlayerRow)
  : Result PlayerRow :=
  let player_id := p_player_id p in
  match select_runs_scored player_id perf,
        select_wickets_taken player_id perf,
        select_batting_average player_id perf,
        select_strike_rate player_id perf with
  | Ok runs, Ok wickets, Ok average, Ok rate =>
      Ok (mkPlayer player_id (p_player_name p) (p_team_id p) (p_role p)
            (select_matches_played player_id perf)
            runs wickets average rate (p_player_key p))
  | Raise e, _, _, _ | _, Raise e, _, _ | _, _, Raise e, _
  | _, _, _, Raise e => Raise e
  end.

(** The rows of [players] after the UPDATE, which has no WHERE clause:
    every row is recomputed, and one failing row fails the
    statement. *)
Fixpoint aggregate_players (perf : list PerformanceRow)
    (table : list PlayerRow) : Result (list PlayerRow) :=
  match table with
  | [] => Ok []
  | p :: rest =>
      match aggregate_player perf p, aggregate_players perf rest with
      | Ok p', Ok rest' => Ok (p' :: rest')
      | Raise e, _ | _, Raise e => Raise e
      end
  end.

(** [cursor.execute("UPDATE players SET ...")]: a statement that fails
    changes no row.  (The last assignment of the statement,
    updated_at = CURRENT_TIMESTAMP, falls on a column that the rows
    here do not carry.) *)
Definition update_players : M Database unit :=
  fun d =>
    match aggregate_players (scan_performance (player_match_performance d))
            (players d) with
    | Ok table => (set_players (fun _ => table) d, Ok tt)
    | Raise e => (d, Raise e)
    end.

(** [update_player_statistics(self)]: the UPDATE and the commit; any
    exception is caught, and the handler rolls back to the database
    as it was found. *)
Definition update_player_statistics : M Database unit :=
  fun d => try_except update_players (fun e => modify (fun _ => d)) d.

End PlayerAggregator.

(** Whether SUM over these values, visited in this order, fits. *)
Definition sum_fits (values : list Z) : bool :=
  match Sql.running_sum 0 values with
  | Some _ => true
  | None => false
  end.

(** Whether the four sub-selects with a SUM fit for one player, and
    whether they do for every player: then the UPDATE succeeds. *)
Definition sums_fit (perf : list PerformanceRow) (player_id : Z) : bool :=
  let scan := scan_performance perf in
  sum_fits (map pmp_runs_scored (rows_of_player player_id scan))
  && sum_fits (map pmp_wickets_taken (rows_of_player player_id scan))
  && sum_fits (map pmp_runs_scored (rows_with_runs player_id scan))
  && sum_fits (map pmp_balls_faced (rows_with_balls player_id scan))
  && sum_fits (map pmp_runs_scored (rows_with_balls player_id scan)).

Definition no_sum_overflows (d : Database) : bool :=
  forallb (fun p => sums_fit (player_match_performance d) (p_player_id p))
          (players d).

(** The row of a player after an UPDATE that succeeds, written with
    the totals over the rows of the player (in any order). *)
Definition average_over (round_to_2 : Q -> Q) (rows : list PerformanceRow)
  : SqlValue :=
  match rows with
  | [] => SqlReal 0
  | _ :: _ =>
      SqlReal (round_to_2
        (Sql.real_div
           (Sql.real_of_int (Sql.total (map pmp_runs_scored rows)))
           (Sql.real_of_int (Z.of_nat (List.length rows)))))
  end.

Definition rate_over (round_to_2 : Q -> Q) (rows : list PerformanceRow)
  : SqlValue :=
  match rows with
  | [] => SqlReal 0
  | _ :: _ =>
      SqlReal (round_to_2
        (Sql.real_div
           (Sql.real_mul
              (Sql.real_of_int (Sql.total (map pmp_runs_scored rows)))
              (Sql.real_of_int 100))
           (Sql.real_of_int (Sql.total (map pmp_balls_faced rows)))))
  end.

Definition recomputed (round_to_2 : Q -> Q) (perf : list PerformanceRow)
    (p : PlayerRow) : PlayerRow :=
  let rows := rows_of_player (p_player_id p) perf in
  mkPlayer (p_player_id p) (p_player_name p) (p_team_id p) (p_role p)
    (Sql.count_distinct (map pmp_match_id rows))
    (SqlInt (Sql.total (map pmp_runs_scored rows)))
    (SqlInt (Sql.total (map pmp_wickets_taken rows)))
    (average_over round_to_2 (rows_with_runs (p_player_id p) perf))
    (rate_over round_to_2 (rows_with_balls (p_player_id p) perf))
    (p_player_key p).

(** A performance row with the given batting figures and every other
    column at its default. *)
Definition batting_row (performance_id player_id match_id runs balls : Z)
  : PerformanceRow :=
  mkPerformance performance_id player_id match_id None 1 None
                runs balls 0 0 0 0 0 0 0 0 None None.

Definition new_player (player_id : Z) (name : string) : PlayerRow :=
  mkPlayer player_id name None None (SqlInt 0) (SqlInt 0) (SqlInt 0)
           (SqlReal 0) (SqlReal 0) None.

(** One player with the two innings (50 off 40) and (30 off 20), and
    one player without any performance row. *)
Definition two_innings_db : Database :=
  mkDatabase [] [] []
    [ new_player 1000001 "A Batter"; new_player 1000002 "B Newcomer" ]
    [ batting_row 1 1000001 501 50 40; batting_row 2 1000001 502 30 20 ]
    [].

(** A store in which the runs of one player do not add up in 64 bits:
    two rows of 2^62 runs.  The other player has no performance row
    and an average of 50.0 on record. *)
Definition overflowing_db : Database :=
  mkDatabase [] [] []
    [ new_player 1000001 "A Batter";
      mkPlayer 1000002 "B Newcomer" None None (SqlInt 0) (SqlInt 0) (SqlInt 0)
               (SqlReal 50) (SqlReal 0) None ]
    [ batting_row 1 1000001 501 (2 ^ 62) 40;
      batting_row 2 1000001 502 (2 ^ 62) 20 ]
    [].

(* ================================================================== *)
(** * Aggregator: [update_team_statistics] *)
(* ================================================================== *)

Definition status_is (status : string) (m : MatchRow) : bool :=
  match m_match_status m with
  | Some s => String.eqb s status
  | None => false
  end.

(** [FROM matches WHERE (team1_id = ? OR team2_id = ?)
     AND match_status = 'Completed']: a row is selected when the
    condition is true (not when it is NULL). *)
Definition completed_matches_of (team_id : Z) (ms : list MatchRow)
  : list MatchRow :=
  filter (fun m => (opt_eqb (m_team1_id m) team_id
                    || opt_eqb (m_team2_id m) team_id)
                   && status_is "Completed" m) ms.

(** [CASE WHEN match_winner_id = ? THEN 1 ELSE 0 END] *)
Definition won_by (team_id : Z) (m : MatchRow) : Z :=
  if opt_eqb (m_match_winner_id m) team_id then 1 else 0.

(** The one row the SELECT of lines 832-838 returns. *)
Definition select_team_record (team_id : Z) (ms : list MatchRow)
  : SqlValue * SqlValue :=
  let rows := completed_matches_of team_id ms in
  (Sql.count rows, Sql.sum_of_flags (map (won_by team_id) rows)).

(** [v if v is not None else 0], for a column that holds integers. *)
Definition int_or_zero (v : SqlValue) : Z :=
  match v with
  | SqlInt z => z
  | _ => 0
  end.

(** [INSERT OR REPLACE INTO team_statistics (team_id, matches_played,
    matches_won, matches_lost)]: the primary key [stat_id] is not
    given, so the row gets the next rowid; REPLACE deletes the rows in
    conflict with it, and the only uniqueness constraint of the table
    is that primary key. *)
Definition insert_or_replace_team_statistics_rows
    (team_id matches_played matches_won matches_lost : Z)
    (table : list TeamStatRow) : list TeamStatRow :=
  let stat_id := next_rowid ts_stat_id table in
  filter (fun r => negb (ts_stat_id r =? stat_id)) table
    ++ [mkTeamStat stat_id (Some team_id) matches_played matches_won
                   matches_lost 0 0].

(** The body of the loop over the teams. *)
Definition update_one_team (team : TeamRow) : M Database unit :=
  let team_id := t_team_id team in
  (result <- gets (fun d => select_team_record team_id (matches d)) ;;
   let matches_played := int_or_zero (fst result) in
   let matches_won := int_or_zero (snd result) in
   let matches_lost := matches_played - matches_won in
   modify (set_team_statistics
             (insert_or_replace_team_statistics_rows
                team_id matches_played matches_won matches_lost)))%py.

(** [update_team_statistics(self)]. *)
Definition update_team_statistics : M Database unit :=
  try_except
    (teams <- gets (fun d => select_teams (teams d)) ;;
     for_each teams update_one_team)%py
    (fun e => ret tt).

(** The rows of [team_statistics] for a team. *)
Definition statistics_of_team (team_id : Z) (d : Database)
  : list TeamStatRow :=
  filter (fun r => opt_eqb (ts_team_id r) team_id) (team_statistics d).

(** India beat Australia in match 1; match 2 between them was
    completed without a winner on record. *)
Definition two_results_db : Database :=
  mkDatabase
    [ mkTeam 10 "India" (Some "IND") None;
      mkTeam 20 "Australia" (Some "AUS") None ]
    []
    [ mkMatch 1 (Some "1st ODI") (Some "ODI") None None (Some 10) (Some 20)
        None None None (Some 10) None None (Some "Completed");
      mkMatch 2 (Some "2nd ODI") (Some "ODI") None None (Some 10) (Some 20)
        None None None None None None (Some "Completed");
      mkMatch 3 (Some "3rd ODI") (Some "ODI") None None (Some 10) (Some 20)
        None None None None None None (Some "Live") ]
    [] [] [].

(** Among the completed matches of a team: those it is recorded to
    have won, and the others (another winner, or no winner on record:
    drawn, tied, abandoned, not filled in). *)
Definition matches_won_by (team_id : Z) (ms : list MatchRow) : list MatchRow :=
  filter (fun m => opt_eqb (m_match_winner_id m) team_id)
         (completed_matches_of team_id ms).

Definition matches_not_won_by (team_id : Z) (ms : list MatchRow)
  : list MatchRow :=
  filter (fun m => negb (opt_eqb (m_match_winner_id m) team_id))
         (completed_matches_of team_id ms).

(** [row] is the statistics row of [team] over the matches [ms]. *)
Definition record_of_team (ms : list MatchRow) (team : TeamRow)
    (row : TeamStatRow) : Prop :=
  ts_team_id row = Some (t_team_id team)
  /\ ts_matches_played row
     = Z.of_nat (List.length (completed_matches_of (t_team_id team) ms))
  /\ ts_matches_won row
     = Z.of_nat (List.length (matches_won_by (t_team_id team) ms))
  /\ ts_matches_lost row = ts_matches_played row - ts_matches_won row
  /\ ts_matches_lost row
     = Z.of_nat (List.length (matches_not_won_by (t_team_id team) ms)).

(** The words of the claim about losses, for a team and a row of
    [matches], written on the columns themselves: the match is
    completed and the team is one of its two teams; the team is its
    recorded winner. *)
Definition completed_with (team_id : Z) (m : MatchRow) : bool :=
  match m_match_status m with
  | Some status => String.eqb status "Completed"
  | None => false
  end
  && (match m_team1_id m with
      | Some t => t =? team_id
      | None => false
      end
      || match m_team2_id m with
         | Some t => t =? team_id
         | None => false
         end).

Definition recorded_winner (team_id : Z) (m : MatchRow) : bool :=
  match m_match_winner_id m with
  | Some w => w =? team_id
  | None => false
  end.

Definition number_of (f : MatchRow -> bool) (ms : list MatchRow) : Z :=
  Z.of_nat (List.length (filter f ms)).

(** [row] counts for [team], over the matches [ms]: every completed
    match of the team as played, those it is the recorded winner of
    as won, and all the others as lost. *)
Definition counts_losses (ms : list MatchRow) (team : TeamRow)
    (row : TeamStatRow) : Prop :=
  let t := t_team_id team in
  ts_team_id row = Some t
  /\ ts_matches_played row = number_of (completed_with t) ms
  /\ ts_matches_won row
     = number_of (fun m => completed_with t m && recorded_winner t m) ms
  /\ ts_matches_lost row = ts_matches_played row - ts_matches_won row
  /\ ts_matches_lost row
     = number_of (fun m => completed_with t m && negb (recorded_winner t m)) ms.

(* ================================================================== *)
(** * Scorecard Ingestor: [store_scorecard_data_fixed] *)
(* ================================================================== *)

(** The scorecard payload.  The values of [batsmenData] and of
    [bowlersData] are dicts; a value that is not one ([None] here) is
    skipped by the [isinstance] test. *)
Record BatsmanData := mkBatsmanData {
  batName : option string;
  batOrder : option Z;
  bat_runs : option Z;              (* key 'runs' *)
  balls : option Z;
  strikeRate : option Q;
  fours : option Z;
  sixes : option Z;
  outDesc : option string
}.

Record BowlerData := mkBowlerData {
  bowlName : option string;
  overs : option Q;
  wickets : option Z;
  bowl_runs : option Z;             (* key 'runs' *)
  economy : option Q;
  maidens : option Z
}.

Record BatTeamDetails := mkBatTeamDetails {
  batTeamId : option Z;
  batsmenData : option (list (string * option BatsmanData))
}.

Record BowlTeamDetails := mkBowlTeamDetails {
  bowlTeamId : option Z;
  bowlersData : option (list (string * option BowlerData))
}.

Record InningsData := mkInningsData {
  batTeamDetails : option BatTeamDetails;
  bowlTeamDetails : option BowlTeamDetails
}.

Record ScorecardData := mkScorecardData {
  scoreCard : option (list InningsData)
}.

(** *** Name resolution *)

(** A Python value, as far as a statement parameter goes. *)
Inductive PyValue :=
| PyNone
| PyInt (z : Z)
| PyFloat (q : Q)
| PyStr (s : string)
| PyObject.

(** The names bound at module level in [data_fetcher.py]: its imports,
    its classes and functions, and the variables of its top-level
    statements. *)
Definition module_globals : list string :=
  [ "requests"; "sqlite3"; "pd"; "json"; "time"; "os"; "datetime";
    "timedelta"; "logging"; "Dict"; "List"; "Optional"; "Any"; "sys";
    "tqdm"; "hashlib"; "RealTimeFormatter"; "logger"; "handler";
    "CricbuzzDataFetcher"; "main" ].

Fixpoint lookup (name : string) (bindings : list (string * PyValue))
  : option PyValue :=
  match bindings with
  | [] => None
  | (n, v) :: rest => if String.eqb n name then Some v else lookup name rest
  end.

(** Reading a name inside a function: its local variables first, then
    the module's globals (the built-ins hold none of the names read
    below); a name found nowhere raises [NameError]. *)
Definition load_name {S : Type} (locals : list (string * PyValue))
    (name : string) : M S PyValue :=
  match lookup name locals with
  | Some v => ret v
  | None =>
      if existsb (String.eqb name) module_globals then ret PyObject
      else raise (NameError name)
  end.

Definition py_opt_int (v : option Z) : PyValue :=
  match v with
  | Some z => PyInt z
  | None => PyNone
  end.

(** The integer a value binds as, NULL for anything else. *)
Definition as_opt_int (v : PyValue) : option Z :=
  match v with
  | PyInt z => Some z
  | _ => None
  end.

(** *** Statements *)

(** [INSERT OR IGNORE INTO players (player_id, player_name, team_id,
    role, player_key)]. *)
Definition insert_or_ignore_player_rows (player_id : Z) (player_name : string)
    (team_id : option Z) (role player_key : string)
    (table : list PlayerRow) : list PlayerRow :=
  if existsb (fun r => p_player_id r =? player_id) table then table
  else table ++ [mkPlayer player_id player_name team_id (Some role)
                          (SqlInt 0) (SqlInt 0) (SqlInt 0)
                          (SqlReal 0) (SqlReal 0) (Some player_key)].

Definition insert_or_ignore_player (player_id : Z) (player_name : string)
    (team_id : option Z) (role player_key : string) : M Database unit :=
  (bind_ints [Some player_id; team_id] ;;
   modify (set_players
             (insert_or_ignore_player_rows player_id player_name team_id
                role player_key)))%py.

(** The key of UNIQUE(match_id, player_id, innings_number). *)
Definition same_triple (match_id player_id innings_number : Z)
    (r : PerformanceRow) : bool :=
  (pmp_match_id r =? match_id) && (pmp_player_id r =? player_id)
  && (pmp_innings_number r =? innings_number).

Definition set_batting (batting_order runs_scored balls_faced : Z)
    (strike_rate : Q) (n_fours n_sixes : Z) (out_desc : string)
    (r : PerformanceRow) : PerformanceRow :=
  mkPerformance (pmp_performance_id r) (pmp_player_id r) (pmp_match_id r)
    (pmp_team_id r) (pmp_innings_number r) (pmp_batting_order r)
    runs_scored balls_faced strike_rate n_fours n_sixes
    (pmp_overs_bowled r) (pmp_wickets_taken r) (pmp_runs_conceded r)
    (pmp_economy_rate r) (pmp_maidens r) (Some out_desc) (pmp_player_key r).

Definition set_bowling (overs_bowled : Q) (wickets_taken runs_conceded : Z)
    (economy_rate : Q) (n_maidens : Z) (r : PerformanceRow) : PerformanceRow :=
  mkPerformance (pmp_performance_id r) (pmp_player_id r) (pmp_match_id r)
    (pmp_team_id r) (pmp_innings_number r) (pmp_batting_order r)
    (pmp_runs_scored r) (pmp_balls_faced r) (pmp_strike_rate r)
    (pmp_fours r) (pmp_sixes r)
    overs_bowled wickets_taken runs_conceded economy_rate n_maidens
    (pmp_out_desc r) (pmp_player_key r).

(** Lines 685-704: [INSERT INTO player_match_performance (...) VALUES
    (...) ON CONFLICT(match_id, player_id, innings_number) DO UPDATE
    SET] the six batting columns. *)
Definition upsert_batting_rows (player_id match_id : Z) (team_id : option Z)
    (innings_number batting_order runs_scored balls_faced : Z)
    (strike_rate : Q) (n_fours n_sixes : Z) (out_desc player_key : string)
    (table : list PerformanceRow) : list PerformanceRow :=
  if existsb (same_triple match_id player_id innings_number) table
  then map (fun r =>
              if same_triple match_id player_id innings_number r
              then set_batting batting_order runs_scored balls_faced
                     strike_rate n_fours n_sixes out_desc r
              else r) table
  else table ++
       [mkPerformance (next_rowid pmp_performance_id table) player_id match_id
          team_id innings_number (Some batting_order)
          runs_scored balls_faced strike_rate n_fours n_sixes
          0 0 0 0 0 (Some out_desc) (Some player_key)].

Definition upsert_batting (player_id match_id : Z) (team_id : option Z)
    (innings_number batting_order runs_scored balls_faced : Z)
    (strike_rate : Q) (n_fours n_sixes : Z) (out_desc player_key : string)
  : M Database unit :=
  (bind_ints [Some player_id; Some match_id; team_id; Some innings_number;
              Some batting_order; Some runs_scored; Some balls_faced;
              Some n_fours; Some n_sixes] ;;
   modify (set_performance
             (upsert_batting_rows player_id match_id team_id innings_number
                batting_order runs_scored balls_faced strike_rate
                n_fours n_sixes out_desc player_key)))%py.

(** Lines 739-743: [INSERT OR IGNORE INTO player_match_performance
    (player_id, match_id, team_id, innings_number, player_key)]. *)
Definition insert_or_ignore_performance_rows (player_id match_id : Z)
    (team_id : option Z) (innings_number : Z) (player_key : string)
    (table : list PerformanceRow) : list PerformanceRow :=
  if existsb (same_triple match_id player_id innings_number) table then table
  else table ++
       [mkPerformance (next_rowid pmp_performance_id table) player_id match_id
          team_id innings_number None 0 0 0 0 0 0 0 0 0 0 None
          (Some player_key)].

Definition insert_or_ignore_performance (player_id match_id : Z)
    (team_id : option Z) (innings_number : Z) (player_key : string)
  : M Database unit :=
  (bind_ints [Some player_id; Some match_id; team_id; Some innings_number] ;;
   modify (set_performance
             (insert_or_ignore_performance_rows player_id match_id team_id
                innings_number player_key)))%py.

(** Lines 745-754: [UPDATE player_match_performance SET] the five
    bowling columns [WHERE player_id = ? AND match_id = ? AND
    innings_number = ?]. *)
Definition update_bowling_rows (overs_bowled : Q)
    (wickets_taken runs_conceded : Z) (economy_rate : Q) (n_maidens : Z)
    (player_id match_id innings_number : Z)
    (table : list PerformanceRow) : list PerformanceRow :=
  map (fun r =>
         if same_triple match_id player_id innings_number r
         then set_bowling overs_bowled wickets_taken runs_conceded
                economy_rate n_maidens r
         else r) table.

Definition update_bowling (overs_bowled : Q)
    (wickets_taken runs_conceded : Z) (economy_rate : Q) (n_maidens : Z)
    (player_id match_id innings_number : Z) : M Database unit :=
  (bind_ints [Some wickets_taken; Some runs_conceded; Some n_maidens;
              Some player_id; Some match_id; Some innings_number] ;;
   modify (set_performance
             (update_bowling_rows overs_bowled wickets_taken runs_conceded
                economy_rate n_maidens player_id match_id innings_number)))%py.

(** *** The function *)

(** The state of a call: the cursor's view of the database, the
    counters of the fetcher, and the local variable [players_added]. *)
Record Frame := mkFrame {
  cursor : Database;
  self_stats : Stats;
  players_added : Z
}.

(** [cursor.execute(...)]. *)
Definition execute (statement : M Database unit) : M Frame unit :=
  fun f =>
    let (d, r) := statement (cursor f) in
    (mkFrame d (self_stats f) (players_added f), r).

Definition count_player_added : M Frame unit :=
  modify (fun f => mkFrame (cursor f) (self_stats f) (players_added f + 1)).

Definition count_performance_stored : M Frame unit :=
  modify (fun f =>
    let s := self_stats f in
    mkFrame (cursor f)
      (mkStats (api_calls s) (successful_calls s) (failed_calls s)
               (matches_stored s) (players_stored s)
               (performances_stored s + 1))
      (players_added f)).

Definition count_player_stored : M Frame unit :=
  modify (fun f =>
    let s := self_stats f in
    mkFrame (cursor f)
      (mkStats (api_calls s) (successful_calls s) (failed_calls s)
               (matches_stored s) (players_stored s + 1)
               (performances_stored s))
      (players_added f)).

(** [self.generate_player_id(...)] as a step of the function. *)
Definition resolve_player_id (player_key player_name : string)
    (team_id : option Z) : M Frame Z :=
  fun f =>
    match generate_player_id (self_stats f) player_key player_name team_id with
    | Some id => (f, Ok id)
    | None => (f, Raise ValueError)
    end.

(** The local variables that are bound when the parameter tuple of the
    batting INSERT is evaluated (lines 699-704). *)
Definition batting_locals (match_id innings_num : Z) (bat_team_id : option Z)
    (player_key player_name : string) (numeric_player_id added : Z)
  : list (string * PyValue) :=
  [ ("self", PyObject); ("cursor", PyObject); ("match_id", PyInt match_id);
    ("scorecard_data", PyObject); ("players_added", PyInt added);
    ("innings_list", PyObject); ("innings_num", PyInt innings_num);
    ("innings_data", PyObject); ("bat_team_details", PyObject);
    ("bat_team_id", py_opt_int bat_team_id); ("batsmen_data", PyObject);
    ("player_key", PyStr player_key); ("player_data", PyObject);
    ("player_name", PyStr player_name);
    ("numeric_player_id", PyInt numeric_player_id) ].

(** One turn of the loop over [batsmen_data.items()] (lines 668-711). *)
Definition store_batsman (match_id innings_num : Z) (bat_team_id : option Z)
    (item : string * option BatsmanData) : M Frame unit :=
  let (player_key, entry) := item in
  match entry with
  | None => ret tt
  | Some player_data =>
      let player_name :=
        get_default (batName player_data) ("Player_" ++ player_key)%string in
      (numeric_player_id <- resolve_player_id player_key player_name bat_team_id ;;
       execute (insert_or_ignore_player numeric_player_id player_name
                  bat_team_id "Batsman" player_key) ;;
       added <- gets players_added ;;
       team_id <- load_name
                    (batting_locals match_id innings_num bat_team_id
                       player_key player_name numeric_player_id added)
                    "team_id" ;;
       execute (upsert_batting numeric_player_id match_id (as_opt_int team_id)
                  innings_num
                  (get_default (batOrder player_data) 0)
                  (get_default (bat_runs player_data) 0)
                  (get_default (balls player_data) 0)
                  (get_default (strikeRate player_data) 0%Q)
                  (get_default (fours player_data) 0)
                  (get_default (sixes player_data) 0)
                  (get_default (outDesc player_data) "")
                  player_key) ;;
       count_player_added ;;
       count_performance_stored ;;
       count_player_stored)%py
  end.

(** One turn of the loop over [bowlers_data.items()] (lines 722-759). *)
Definition store_bowler (match_id innings_num : Z) (bowl_team_id : option Z)
    (item : string * option BowlerData) : M Frame unit :=
  let (bowler_key, entry) := item in
  match entry with
  | None => ret tt
  | Some bowler_data =>
      let bowler_name :=
        get_default (bowlName bowler_data) ("Bowler_" ++ bowler_key)%string in
      (numeric_bowler_id <- resolve_player_id bowler_key bowler_name bowl_team_id ;;
       execute (insert_or_ignore_player numeric_bowler_id bowler_name
                  bowl_team_id "Bowler" bowler_key) ;;
       execute (insert_or_ignore_performance numeric_bowler_id match_id
                  bowl_team_id innings_num bowler_key) ;;
       execute (update_bowling
                  (get_default (overs bowler_data) 0%Q)
                  (get_default (wickets bowler_data) 0)
                  (get_default (bowl_runs bowler_data) 0)
                  (get_default (economy bowler_data) 0%Q)
                  (get_default (maidens bowler_data) 0)
                  numeric_bowler_id match_id innings_num) ;;
       count_player_added ;;
       count_performance_stored)%py
  end.

(** The body of the loop over the innings (lines 654-759). *)
Definition store_innings (match_id innings_num : Z) (innings_data : InningsData)
  : M Frame unit :=
  match batTeamDetails innings_data with
  | None => ret tt                                   (* continue *)
  | Some bat_team_details =>
      let bat_team_id := batTeamId bat_team_details in
      (match batsmenData bat_team_details with
       | Some batsmen_data =>
           for_each batsmen_data (store_batsman match_id innings_num bat_team_id)
       | None => ret tt
       end ;;
       match bowlTeamDetails innings_data with
       | Some bowl_team_details =>
           let bowl_team_id := bowlTeamId bowl_team_details in
           match bowlersData bowl_team_details with
           | Some bowlers_data =>
               for_each bowlers_data
                 (store_bowler match_id innings_num bowl_team_id)
           | None => ret tt
           end
       | None => ret tt
       end)%py
  end.

(** [for innings_num, innings_data in enumerate(innings_list, start)]. *)
Fixpoint for_each_innings (match_id start : Z) (innings_list : list InningsData)
  : M Frame unit :=
  match innings_list with
  | [] => ret tt
  | innings_data :: rest =>
      bind (store_innings match_id start innings_data)
           (fun _ => for_each_innings match_id (start + 1) rest)
  end.

(** [store_scorecard_data_fixed(self, cursor, match_id, scorecard_data)]:
    the database and the counters afterwards, and the number
    returned. *)
Definition store_scorecard_data_fixed (match_id : Z)
    (scorecard_data : ScorecardData) (d : Database) (self : Stats)
  : Database * Stats * Z :=
  match scoreCard scorecard_data with
  | None => (d, self, 0)
  | Some innings_list =>
      match for_each_innings match_id 1 innings_list (mkFrame d self 0) with
      | (f, Ok _) => (cursor f, self_stats f, players_added f)
      | (f, Raise e) => (cursor f, self_stats f, 0)
      end
  end.

(** The rows of [player_match_performance] for a triple. *)
Definition performances_of (match_id player_id innings_number : Z)
    (d : Database) : list PerformanceRow :=
  filter (same_triple match_id player_id innings_number)
         (player_match_performance d).

(** An innings has a batsman entry that is a dict. *)
Definition has_batsman (innings_data : InningsData) : Prop :=
  exists bat_team_details batsmen_data player_key player_data,
    batTeamDetails innings_data = Some bat_team_details
    /\ batsmenData bat_team_details = Some batsmen_data
    /\ In (player_key, Some player_data) batsmen_data.

(** An all-rounder of team 2, key "p7", who made 45 off 30 and took
    2 for 24 in 4 overs, in one innings whose two blocks both carry
    team id 2. *)
Definition jadeja_bat : BatsmanData :=
  mkBatsmanData (Some "R Jadeja") (Some 6) (Some 45) (Some 30)
                (Some (150 # 1)) (Some 4) (Some 1) (Some "not out").

Definition jadeja_bowl : BowlerData :=
  mkBowlerData (Some "R Jadeja") (Some (4 # 1)) (Some 2) (Some 24)
               (Some (6 # 1)) (Some 0).

Definition all_rounder_scorecard : ScorecardData :=
  mkScorecardData (Some
    [ mkInningsData
        (Some (mkBatTeamDetails (Some 2) (Some [("p7", Some jadeja_bat)])))
        (Some (mkBowlTeamDetails (Some 2) (Some [("p7", Some jadeja_bowl)]))) ]).

(** The same innings without its batting entries. *)
Definition bowling_only_scorecard : ScorecardData :=
  mkScorecardData (Some
    [ mkInningsData
        (Some (mkBatTeamDetails (Some 2) (Some [])))
        (Some (mkBowlTeamDetails (Some 2) (Some [("p7", Some jadeja_bowl)]))) ]).

(** A step of the function leaves the rows selected by [g] as they
    are, whether it returns or raises. *)
Definition keeps_rows (g : PerformanceRow -> bool) {A : Type}
    (m : M Frame A) : Prop :=
  forall f : Frame,
    filter g (player_match_performance (cursor (fst (m f))))
    = filter g (player_match_performance (cursor f)).

(** A step that always raises. *)
Definition always_raises {A : Type} (m : M Frame A) : Prop :=
  forall f : Frame, exists f' e, m f = (f', Raise e).

(* ================================================================== *)
(** * Notions used to state further properties *)
(* ================================================================== *)

(** One call of [make_api_request] that took the fetcher from
    ([self], [net]) to ([self'], [net']) sent [k] requests, all to
    [endpoint], counted each of them, finished with at most one
    success, and slept one second before each request and sixty after
    each but possibly the last. *)
Definition accounts_for (endpoint : string) (k : nat)
    (self self' : Stats) (net net' : Net) : Prop :=
  sent_log net' = sent_log net ++ repeat endpoint k
  /\ api_calls self' = api_calls self + Z.of_nat k
  /\ successful_calls self <= successful_calls self' <= successful_calls self + 1
  /\ failed_calls self <= failed_calls self'
  /\ matches_stored self' = matches_stored self
  /\ players_stored self' = players_stored self
  /\ performances_stored self' = performances_stored self
  /\ seconds_slept net <= seconds_slept net' <= seconds_slept net + 61 * Z.of_nat k
  /\ ((1 <= k)%nat -> seconds_slept net + 61 * Z.of_nat k - 60 <= seconds_slept net').

(** A server that gives the same reply to every request. *)
Definition always_replies {Payload : Type} (r : Reply Payload)
  : nat -> Reply Payload := fun _ => r.

(** A computation keeps an invariant of the state, whether it returns
    or raises. *)
Definition preserves {S A : Type} (inv : S -> Prop) (m : M S A) : Prop :=
  forall s : S, inv s -> inv (fst (m s)).

(** The keys the schema declares for teams, venues and matches: the
    three primary keys and UNIQUE(team_name). *)
Definition keys_unique (d : Database) : Prop :=
  NoDup (map t_team_id (teams d))
  /\ NoDup (map t_team_name (teams d))
  /\ NoDup (map v_venue_id (venues d))
  /\ NoDup (map m_match_id (matches d)).

(** An entry whose match id does not fit 64 bits, and an entry whose
    two teams come without a name. *)
Definition match_with_huge_id : MatchData :=
  mkMatchData (Some (mkMatchInfo (Some (2 ^ 63)) (Some "Final") (Some "T20")
    (Some india) (Some australia) (Some wankhede) None (Some "Completed"))).

Definition match_of_unnamed_teams : MatchData :=
  mkMatchData (Some (mkMatchInfo (Some 777) (Some "Qualifier") (Some "T20")
    (Some (mkTeamInfo (Some 31) None None))
    (Some (mkTeamInfo (Some 32) None None))
    None None None)).

(** The rows of [teams] with a given id. *)
Definition teams_with_id (team_id : Z) (d : Database) : list TeamRow :=
  filter (fun r => t_team_id r =? team_id) (teams d).

(* ================================================================== *)
(** * Team-country back-fill: [fetch_teams_data] *)
(* ================================================================== *)

(** [UPDATE teams SET country = ? WHERE team_id = ?] *)
Definition update_team_country_rows (country : string) (team_id : Z)
    (table : list TeamRow) : list TeamRow :=
  map (fun r =>
         if t_team_id r =? team_id
         then mkTeam (t_team_id r) (t_team_name r) (t_team_sname r)
                     (Some country)
         else r) table.

(** [fetch_teams_data(self)]: the loop runs over the rows that the
    SELECT returned before the first UPDATE; [lower] is [str.lower]. *)
Definition fetch_teams_data (lower : string -> string) : M Database unit :=
  try_except
    (teams <- gets (fun d => select_teams (teams d)) ;;
     for_each teams (fun team =>
       let country :=
         determine_country_from_team_name lower (t_team_name team) in
       modify (set_teams
                 (update_team_country_rows country (t_team_id team)))))%py
    (fun e => ret tt).

(** A team row with the country its name gives. *)
Definition backfilled (lower : string -> string) (r : TeamRow) : TeamRow :=
  mkTeam (t_team_id r) (t_team_name r) (t_team_sname r)
         (Some (determine_country_from_team_name lower (t_team_name r))).

(** Three teams on record: one without country, one with a country
    that the back-fill will overwrite, one whose name holds no key. *)
Definition teams_to_backfill : Database :=
  set_teams (fun _ =>
    [ mkTeam 10 "India" (Some "IND") None;
      mkTeam 23 "Pakistan A" (Some "PAK-A") (Some "Unknown");
      mkTeam 58 "Chennai Super Kings" (Some "CSK") (Some "India") ]) empty_db.

(** The key of a performance row, and its batting columns. *)
Definition triple_of (r : PerformanceRow) : Z * Z * Z :=
  (pmp_match_id r, pmp_player_id r, pmp_innings_number r).

Definition unique_triples (d : Database) : Prop :=
  NoDup (map triple_of (player_match_performance d)).

Record BattingColumns := mkBattingColumns {
  bc_batting_order : option Z;
  bc_runs_scored : Z;
  bc_balls_faced : Z;
  bc_strike_rate : Q;
  bc_fours : Z;
  bc_sixes : Z;
  bc_out_desc : option string
}.

Definition batting_columns (r : PerformanceRow) : BattingColumns :=
  mkBattingColumns (pmp_batting_order r) (pmp_runs_scored r)
    (pmp_balls_faced r) (pmp_strike_rate r) (pmp_fours r) (pmp_sixes r)
    (pmp_out_desc r).

(** The batting columns of a row inserted without them. *)
Definition default_batting : BattingColumns :=
  mkBattingColumns None 0 0 0 0 0 None.

(** The columns of a player row that the Aggregator does not write. *)
Definition player_identity (p : PlayerRow)
  : Z * string * option Z * option string * option string :=
  (p_player_id p, p_player_name p, p_team_id p, p_role p, p_player_key p).

(* ================================================================== *)
(** * The match feeds: [fetch_live_matches], [fetch_recent_matches] *)
(* ================================================================== *)

(** The match-list payload: match types, their series, the matches of
    a series. *)
Record SeriesAdWrapper := mkSeriesAdWrapper {
  seriesId : option Z;
  seriesName : option string;
  wrapper_matches : option (list MatchData)      (* key 'matches' *)
}.

Record SeriesMatch := mkSeriesMatch {
  seriesAdWrapper : option SeriesAdWrapper
}.

Record TypeMatch := mkTypeMatch {
  matchType : option string;
  seriesMatches : option (list SeriesMatch)
}.

Record MatchesPayload := mkMatchesPayload {
  typeMatches : option (list TypeMatch)
}.

(** The series table, which the recent feed writes, beside the other
    tables. *)
Record SeriesRow := mkSeries {
  s_series_id : Z;                  (* INTEGER PRIMARY KEY *)
  s_series_name : string;           (* TEXT NOT NULL *)
  s_host_country : option string;
  s_start_date : option string;
  s_end_date : option string
}.

Record Store := mkStore {
  core : Database;
  series : list SeriesRow
}.

(** How a feed function ends: it returns, or its call of
    [make_api_request] reached the recursion limit, and the run is not
    described further. *)
Inductive Ending :=
| Returns
| RecursionLimitReached.

(** [INSERT OR IGNORE INTO series (series_id, series_name)]: a NULL
    primary key takes the next rowid. *)
Definition insert_or_ignore_series_rows (series_id : option Z)
    (series_name : string) (table : list SeriesRow) : list SeriesRow :=
  match series_id with
  | Some id =>
      if existsb (fun r => s_series_id r =? id) table then table
      else table ++ [mkSeries id series_name None None None]
  | None =>
      table ++ [mkSeries (next_rowid s_series_id table) series_name
                         None None None]
  end.

Section Feeds.

Variable local_date : string -> option string.

(** The three nested loops of a feed, with what is done for a series
    before its matches and for each of its matches. *)
Definition for_each_match {S : Type}
    (type_matches : list TypeMatch)
    (on_series : SeriesAdWrapper -> M S unit)
    (on_match : SeriesAdWrapper -> MatchData -> M S unit) : M S unit :=
  for_each type_matches (fun type_match =>
    match seriesMatches type_match with
    | None => ret tt                                   (* continue *)
    | Some series_matches =>
        for_each series_matches (fun series_match =>
          match seriesAdWrapper series_match with
          | None => ret tt                             (* continue *)
          | Some series_info =>
              (on_series series_info ;;
               match wrapper_matches series_info with
               | Some matches => for_each matches (on_match series_info)
               | None => ret tt
               end)%py
          end)
    end).

(** [fetch_live_matches(self)].  Before each call of
    [store_match_data] the loop reads the description of the match
    for a progress line (line 460); on a payload of the documented
    shape that read cannot raise, and it is left out with the
    printing. *)
Definition fetch_live_matches (depth : nat)
    (server : nat -> Reply MatchesPayload)
    (self : Stats) (net : Net) (d : Database)
  : Stats * Net * Database * Ending :=
  match make_api_request depth server self net "/matches/v1/live" with
  | (self, net, RecursionLimit) => (self, net, d, RecursionLimitReached)
  | (self, net, Return None) => (self, net, d, Returns)
  | (self, net, Return (Some data)) =>
      match typeMatches data with
      | None => (self, net, d, Returns)
      | Some type_matches =>
          let conn := connect d in
          match cursor_execute
                  (for_each_match type_matches
                     (fun _ => ret tt)
                     (fun series_info match_data =>
                        store_match_data local_date match_data
                          (seriesId series_info) true))
                  conn with
          | (conn, Ok _) => (self, net, close (commit conn), Returns)
          | (conn, Raise e) => (self, net, close (rollback conn), Returns)
          end
      end
  end.

(** The cursor of the recent feed with the counters beside it. *)
Record Batch := mkBatch {
  b_store : Store;
  b_stats : Stats
}.

Definition on_core (statement : M Database unit) : M Batch unit :=
  fun b =>
    let (d, r) := statement (core (b_store b)) in
    (mkBatch (mkStore d (series (b_store b))) (b_stats b), r).

Definition insert_or_ignore_series (series_id : option Z)
    (series_name : string) : M Batch unit :=
  (bind_ints [series_id] ;;
   modify (fun b =>
     mkBatch (mkStore (core (b_store b))
                (insert_or_ignore_series_rows series_id series_name
                   (series (b_store b))))
             (b_stats b)))%py.

Definition count_match_stored : M Batch unit :=
  modify (fun b =>
    let s := b_stats b in
    mkBatch (b_store b)
      (mkStats (api_calls s) (successful_calls s) (failed_calls s)
               (matches_stored s + 1) (players_stored s)
               (performances_stored s))).

(** [fetch_recent_matches(self)]: the counters live in the fetcher and
    are not part of what a rollback undoes. *)
Definition fetch_recent_matches (depth : nat)
    (server : nat -> Reply MatchesPayload)
    (self : Stats) (net : Net) (s : Store)
  : Stats * Net * Store * Ending :=
  match make_api_request depth server self net "/matches/v1/recent" with
  | (self, net, RecursionLimit) => (self, net, s, RecursionLimitReached)
  | (self, net, Return None) => (self, net, s, Returns)
  | (self, net, Return (Some data)) =>
      match typeMatches data with
      | None => (self, net, s, Returns)
      | Some type_matches =>
          match for_each_match type_matches
                  (fun series_info =>
                     insert_or_ignore_series (seriesId series_info)
                       (get_default (seriesName series_info) "Unknown Series"))
                  (fun series_info match_data =>
                     (on_core (store_match_data local_date match_data
                                 (seriesId series_info) false) ;;
                      count_match_stored)%py)
                  (mkBatch s self) with
          | (b, Ok _) => (b_stats b, net, b_store b, Returns)     (* commit *)
          | (b, Raise e) => (b_stats b, net, s, Returns)          (* rollback *)
          end
      end
  end.

(** The match entries of a payload in document order, each with the
    series id it is ingested under. *)
Definition entries_of_series (series_match : SeriesMatch)
  : list (option Z * MatchData) :=
  match seriesAdWrapper series_match with
  | Some series_info =>
      map (fun m => (seriesId series_info, m))
          (get_default (wrapper_matches series_info) [])
  | None => []
  end.

Definition entries_of_type (type_match : TypeMatch)
  : list (option Z * MatchData) :=
  flat_map entries_of_series (get_default (seriesMatches type_match) []).

Definition entries_of (type_matches : list TypeMatch)
  : list (option Z * MatchData) :=
  flat_map entries_of_type type_matches.

(** Ingesting a list of entries one after the other. *)
Definition ingest_all (is_live : bool) (entries : list (option Z * MatchData))
    (d : Database) : Database :=
  fold_left (fun acc entry =>
               after_store_match_data local_date (snd entry) (fst entry)
                 is_live acc)
            entries d.

(** The series wrappers of a payload in document order. *)
Definition wrappers_of (type_matches : list TypeMatch) : list SeriesAdWrapper :=
  flat_map (fun type_match =>
              flat_map (fun series_match =>
                          match seriesAdWrapper series_match with
                          | Some w => [w]
                          | None => []
                          end)
                       (get_default (seriesMatches type_match) []))
           type_matches.

End Feeds.

(** A live feed with one series holding match 501, and a feed whose
    payload lacks [typeMatches]. *)
Definition live_payload : MatchesPayload :=
  mkMatchesPayload (Some
    [ mkTypeMatch (Some "League") None;
      mkTypeMatch (Some "International") (Some
        [ mkSeriesMatch None;
          mkSeriesMatch (Some (mkSeriesAdWrapper (Some 7) (Some "Border Trophy")
            (Some [match_501_in_play; match_with_id_0]))) ]) ]).

Definition serves {Payload : Type} (data : Payload) : nat -> Reply Payload :=
  fun _ => Http 200 (Some data).

(** The entries of one series wrapper, and the counter after [n] more
    matches. *)
Definition wrapper_entries (w : SeriesAdWrapper) : list (option Z * MatchData) :=
  map (fun m => (seriesId w, m)) (get_default (wrapper_matches w) []).

Definition add_matches_stored (n : Z) (s : Stats) : Stats :=
  mkStats (api_calls s) (successful_calls s) (failed_calls s)
          (matches_stored s + n) (players_stored s) (performances_stored s).

(** A recent feed whose second series carries an id beyond 64 bits. *)
Definition recent_payload_with_huge_series : MatchesPayload :=
  mkMatchesPayload (Some
    [ mkTypeMatch (Some "International") (Some
        [ mkSeriesMatch (Some (mkSeriesAdWrapper (Some 7) (Some "Border Trophy")
            (Some [match_501_over])));
          mkSeriesMatch (Some (mkSeriesAdWrapper (Some (2 ^ 64)) (Some "Ashes")
            (Some [match_of_unnamed_teams]))) ]) ]).

(* ================================================================== *)
(** * Properties *)
(* ================================================================== *)

(** The reference digests of RFC 1321. *)
Example md5_empty :
  MD5.hexdigest (Py.encode "") = "d41d8cd98f00b204e9800998ecf8427e".
Proof. vm_compute. reflexivity. Qed.

Example md5_abc :
  MD5.hexdigest (Py.encode "abc") = "900150983cd24fb0d6963f7d28e17f72".
Proof. vm_compute. reflexivity. Qed.

Example md5_two_blocks :
  MD5.hexdigest (Py.encode
    "aaaaaaaaaaaaaaaaaaaaaaaaaaaaaaaaaaaaaaaaaaaaaaaaaaaaaaaa")
  = "3b0c8ac703f828b04c6c197006d17218".
Proof. vm_compute. reflexivity. Qed.

Example str_of_int_examples :
  Py.str_of_int 0 = "0" /\ Py.str_of_int 42 = "42" /\ Py.str_of_int (-7) = "-7".
Proof. repeat split. Qed.

Example generate_player_id_ex1 :
  generate_player_id stats0 "p1" "Virat Kohli" (Some 2) = Some 927636852.
Proof. vm_compute. reflexivity. Qed.

Example generate_player_id_ex2 :
  generate_player_id stats0 "kohli_v" "Virat Kohli" None = Some 442110974.
Proof. vm_compute. reflexivity. Qed.

(* ------------------------------------------------------------------ *)
(** ** The parse of the digest prefix never fails *)

Lemma hex_value_hex_digit (n : Z) :
  0 <= n < 16 -> Py.hex_value (MD5.hex_digit n) = Some n.
Proof.
  intros Hn.
  rewrite <- (Z2Nat.id n) by lia.
  assert (Hlt : (Z.to_nat n < 16)%nat) by lia.
  revert Hlt. generalize (Z.to_nat n) as k. intros k Hlt.
  do 16 (destruct k as [| k]; [reflexivity |]).
  lia.
Qed.

Lemma int16_from_byte (acc b : Z) (rest : string) :
  0 <= b < 256 ->
  Py.int16_from acc
    (String (MD5.hex_digit (b / 16)) (String (MD5.hex_digit (b mod 16)) rest))
  = Py.int16_from (256 * acc + b) rest.
Proof.
  intros Hb. cbn [Py.int16_from].
  rewrite !hex_value_hex_digit.
  - f_equal. pose proof (Z.div_mod b 16). lia.
  - apply Z.mod_pos_bound; lia.
  - split; [apply Z.div_pos; lia | apply Z.div_lt_upper_bound; lia].
Qed.

Lemma int_base16_digest_prefix (msg : list Z) :
  Py.int_base16 (Py.slice_to 8 (MD5.hexdigest msg))
  = Some (digest_prefix_value msg).
Proof.
  unfold MD5.hexdigest, MD5.digest, digest_prefix_value.
  set (st := MD5.final_state msg). set (a := MD5.sa st).
  cbn [MD5.le_bytes app MD5.hex_of_bytes Py.slice_to Py.int_base16].
  assert (Hb : forall x, 0 <= x mod 256 < 256)
    by (intro x; apply Z.mod_pos_bound; lia).
  rewrite !int16_from_byte by apply Hb.
  cbn [Py.int16_from]. f_equal; lia.
Qed.

Lemma digest_prefix_value_range (msg : list Z) :
  0 <= digest_prefix_value msg < 2 ^ 32.
Proof.
  unfold digest_prefix_value.
  set (a := MD5.sa (MD5.final_state msg)).
  pose proof (Z.mod_pos_bound a 256 eq_refl).
  pose proof (Z.mod_pos_bound (a / 256) 256 eq_refl).
  pose proof (Z.mod_pos_bound (a / 256 / 256) 256 eq_refl).
  pose proof (Z.mod_pos_bound (a / 256 / 256 / 256) 256 eq_refl).
  change (2 ^ 32) with 4294967296. lia.
Qed.

(** C2.  The Identity Resolver is a total, deterministic function of
    (player key, display name, team id): whatever the state of the
    fetcher object it is called on, it returns an integer (never an
    exception), the same one on every call for the same triple, and
    that integer lies between 1,000,000 and 1,000,999,998 (the largest
    remainder modulo 999,999,999 plus the offset). *)
Theorem generate_player_id_deterministic_bounded :
  forall (self1 self2 : Stats) (player_key player_name : string)
         (team_id : option Z),
  exists id : Z,
    generate_player_id self1 player_key player_name team_id = Some id
    /\ generate_player_id self2 player_key player_name team_id = Some id
    /\ 1000000 <= id <= 1000999998.
Proof.
  intros self1 self2 key name team.
  unfold generate_player_id.
  rewrite int_base16_digest_prefix.
  set (v := digest_prefix_value _).
  exists (Z.abs v mod 999999999 + 1000000).
  pose proof (Z.mod_pos_bound (Z.abs v) 999999999 eq_refl).
  repeat split; lia.
Qed.

Lemma prefix_true_iff (k s : string) :
  String.prefix k s = true <-> exists b, s = (k ++ b)%string.
Proof.
  revert s; induction k as [| c k IH]; intros s; cbn.
  - split; [intros _; now exists s | intros _; now destruct s].
  - destruct s as [| d s]; cbn.
    + split; [discriminate | intros [b Hb]; discriminate].
    + destruct (Ascii.ascii_dec c d) as [-> | Hne].
      * rewrite IH. split; intros [b Hb]; exists b; congruence.
      * split; [discriminate | intros [b Hb]; congruence].
Qed.

Lemma contains_true_iff (k s : string) :
  Py.contains k s = true <-> substring_of k s.
Proof.
  induction s as [| c s IH]; cbn [Py.contains].
  - destruct (String.prefix k "") eqn:Hp.
    + split; [intros _ | reflexivity].
      apply prefix_true_iff in Hp as [b Hb]. now exists ""%string, b.
    + split; [discriminate |]. intros [a [b Hab]].
      destruct a; cbn in Hab.
      * assert (String.prefix k "" = true) by (apply prefix_true_iff; eauto).
        congruence.
      * discriminate.
  - destruct (String.prefix k (String c s)) eqn:Hp.
    + split; [intros _ | reflexivity].
      apply prefix_true_iff in Hp as [b Hb]. now exists ""%string, b.
    + rewrite IH. split.
      * intros [a [b Hab]]. exists (String c a), b. cbn. now rewrite Hab.
      * intros [a [b Hab]]. destruct a as [| c' a]; cbn in Hab.
        -- assert (String.prefix k (String c s) = true)
             by (apply prefix_true_iff; eauto).
           congruence.
        -- exists a, b. congruence.
Qed.

Lemma contains_false_iff (k s : string) :
  Py.contains k s = false <-> ~ substring_of k s.
Proof.
  rewrite <- contains_true_iff. destruct (Py.contains k s); split; congruence.
Qed.

Lemma first_country_split (mapping : list (string * string)) (s : string) :
  forall pre k v post,
    mapping = pre ++ (k, v) :: post ->
    (forall e, In e pre -> ~ substring_of (fst e) s) ->
    substring_of k s ->
    first_country mapping s = Some v.
Proof.
  intros pre; revert mapping.
  induction pre as [| [k' v'] pre IH]; intros mapping k v post -> Hpre Hk; cbn.
  - apply contains_true_iff in Hk. now rewrite Hk.
  - assert (Hk' : Py.contains k' s = false).
    { apply contains_false_iff. apply (Hpre (k', v')). now left. }
    rewrite Hk'. eapply IH; eauto. intros e He. apply Hpre. now right.
Qed.

Lemma first_country_none (mapping : list (string * string)) (s : string) :
  (forall e, In e mapping -> ~ substring_of (fst e) s) ->
  first_country mapping s = None.
Proof.
  induction mapping as [| [k v] rest IH]; intros Hall; cbn; [reflexivity |].
  assert (Hk : Py.contains k s = false).
  { apply contains_false_iff. apply (Hall (k, v)). now left. }
  rewrite Hk. apply IH. intros e He. apply Hall. now right.
Qed.

(** C9.  The country of a team name is found by substring lookup of
    the lower-cased name in the fixed mapping table, whatever
    [str.lower] does to the name: the first entry (in table order)
    whose key occurs in the lower-cased name gives the country; a name
    in whose lower-cased form no key occurs is returned verbatim; and
    "Royal Pakistan XI", which lower-cases to "royal pakistan xi",
    resolves to "Pakistan". *)
Theorem determine_country_first_match_wins :
  forall (lower : string -> string) (team_name : string),
    (forall pre key value post,
        country_mapping = pre ++ (key, value) :: post ->
        (forall e, In e pre -> ~ substring_of (fst e) (lower team_name)) ->
        substring_of key (lower team_name) ->
        determine_country_from_team_name lower team_name = value)
    /\ ((forall e, In e country_mapping ->
                   ~ substring_of (fst e) (lower team_name)) ->
        determine_country_from_team_name lower team_name = team_name)
    /\ (lower "Royal Pakistan XI" = "royal pakistan xi" ->
        determine_country_from_team_name lower "Royal Pakistan XI"
        = "Pakistan").
Proof.
  intros lower team_name. unfold determine_country_from_team_name.
  split; [| split].
  - intros pre key value post Hsplit Hpre Hkey.
    now rewrite (first_country_split _ _ pre key value post Hsplit Hpre Hkey).
  - intros Hnone. now rewrite first_country_none.
  - intros Hlower. rewrite Hlower. reflexivity.
Qed.

Lemma not_substring_by_search (k s : string) :
  Py.contains k s = false -> ~ substring_of k s.
Proof. apply contains_false_iff. Qed.

Lemma substring_by_search (k s : string) :
  Py.contains k s = true -> substring_of k s.
Proof. apply contains_true_iff. Qed.

Ltac no_key_occurs :=
  intros e He; cbn in He;
  repeat (destruct He as [<- | He];
          [apply not_substring_by_search; vm_compute; reflexivity |]);
  contradiction.

(** The theorem at two ASCII names: "Mumbai Indians vs Pakistan A"
    holds both "india" and "pakistan", and the earlier entry wins;
    "Chennai Super Kings" holds no key and is its own country. *)
Lemma determine_country_first_match_wins_witness :
  determine_country_from_team_name Py.lower "Mumbai Indians vs Pakistan A"
  = "India"
  /\ determine_country_from_team_name Py.lower "Chennai Super Kings"
     = "Chennai Super Kings".
Proof.
  split.
  - apply (proj1 (determine_country_first_match_wins Py.lower
                    "Mumbai Indians vs Pakistan A")
             [] "india" "India" (tl country_mapping)).
    + reflexivity.
    + intros e He; destruct He.
    + apply substring_by_search; vm_compute; reflexivity.
  - apply (proj1 (proj2 (determine_country_first_match_wins Py.lower
                           "Chennai Super Kings"))).
    no_key_occurs.
Defined.

Example country_of_royal_pakistan :
  determine_country_from_team_name Py.lower "Royal Pakistan XI" = "Pakistan".
Proof. reflexivity. Qed.

Example country_of_west_indies_a :
  determine_country_from_team_name Py.lower "West Indies A" = "West Indies".
Proof. reflexivity. Qed.

(** A name with a character outside ASCII: "HONG ", the Kelvin sign
    (U+212A, bytes E2 84 AA) and "ONG".  [str.lower] turns the sign
    into "k", and the name resolves to "Hong Kong". *)
Example country_of_name_with_kelvin_sign :
  forall lower : string -> string,
    let name := String.append "HONG "
                  (String (ascii_of_nat 226) (String (ascii_of_nat 132)
                     (String (ascii_of_nat 170) "ONG"))) in
    lower name = "hong kong" ->
    determine_country_from_team_name lower name = "Hong Kong".
Proof.
  intros lower name Hlower. unfold determine_country_from_team_name.
  rewrite Hlower. reflexivity.
Qed.

(* ------------------------------------------------------------------ *)
(** ** Rate-limit handling *)

Example one_rate_limit_two_attempts :
  attempts 100 (busy_then_ok 1 tt) stats0 net0 "/matches/v1/recent" = 2%nat.
Proof. reflexivity. Qed.

Example three_rate_limits_four_attempts :
  make_api_request 100 (busy_then_ok 3 tt) stats0 net0 "/matches/v1/live"
  = (mkStats 4 1 3 0 0 0,
     mkNet ["/matches/v1/live"; "/matches/v1/live";
            "/matches/v1/live"; "/matches/v1/live"] 184,
     Return (Some tt)).
Proof. reflexivity. Qed.

(** A reply other than 429 ends the call at once. *)
Lemma make_api_request_final {Payload} (depth : nat)
    (server : nat -> Reply Payload) (self : Stats) (net : Net)
    (endpoint : string) :
  ~ rate_limited (server (requests_sent net)) ->
  exists self',
    make_api_request (S depth) server self net endpoint
    = (self', mkNet (sent_log net ++ [endpoint]) (seconds_slept net + 1),
       Return (outcome_of (server (requests_sent net)))).
Proof.
  intros Hfinal. cbn [make_api_request].
  change (requests_sent (sleep 1 net)) with (requests_sent net).
  destruct (server (requests_sent net)) as [status json | |];
    [| eexists; reflexivity | eexists; reflexivity].
  cbn [outcome_of].
  destruct (status =? 200) eqn:H200.
  - destruct json; eexists; reflexivity.
  - destruct (status =? 429) eqn:H429.
    + exfalso. apply Hfinal. apply Z.eqb_eq in H429. subst. now exists json.
    + destruct json; eexists; reflexivity.
Qed.

(** [n] rate-limit replies in a row, then another reply. *)
Lemma make_api_request_retries {Payload} (n : nat) :
  forall (depth : nat) (server : nat -> Reply Payload) (self : Stats)
         (net : Net) (endpoint : string),
    (n < depth)%nat ->
    (forall k, (k < n)%nat -> rate_limited (server (requests_sent net + k)%nat)) ->
    ~ rate_limited (server (requests_sent net + n)%nat) ->
    exists self',
      make_api_request depth server self net endpoint
      = (self',
         mkNet (sent_log net ++ repeat endpoint (S n))
               (seconds_slept net + 61 * Z.of_nat n + 1),
         Return (outcome_of (server (requests_sent net + n)%nat))).
Proof.
  induction n as [| n IH]; intros depth server self net endpoint Hd Hbusy Hfinal.
  - destruct depth as [| depth]; [lia |].
    rewrite Nat.add_0_r in Hfinal.
    destruct (make_api_request_final depth server self net endpoint Hfinal)
      as [self' Heq].
    exists self'. rewrite Heq. rewrite Nat.add_0_r. cbn [repeat].
    do 2 f_equal. f_equal. lia.
  - destruct depth as [| depth]; [lia |].
    destruct (Hbusy 0%nat ltac:(lia)) as [json Hjson].
    rewrite Nat.add_0_r in Hjson.
    cbn [make_api_request].
    change (requests_sent (sleep 1 net)) with (requests_sent net).
    rewrite Hjson. cbn [Z.eqb Pos.eqb].
    set (self1 := count_failure (count_api_call self)).
    set (net1 := sleep 60 (sent endpoint (sleep 1 net))).
    assert (Hlen : requests_sent net1 = S (requests_sent net)).
    { unfold net1, requests_sent. cbn. rewrite length_app. cbn. lia. }
    destruct (IH depth server self1 net1 endpoint) as [self' Heq].
    + lia.
    + intros k Hk. rewrite Hlen.
      replace (S (requests_sent net) + k)%nat
        with (requests_sent net + S k)%nat by lia.
      apply Hbusy. lia.
    + rewrite Hlen.
      replace (S (requests_sent net) + n)%nat
        with (requests_sent net + S n)%nat by lia.
      exact Hfinal.
    + rewrite Heq. exists self'.
      rewrite Hlen.
      replace (S (requests_sent net) + n)%nat
        with (requests_sent net + S n)%nat by lia.
      unfold net1. cbn [sent_log seconds_slept sleep sent].
      rewrite <- app_assoc. cbn [app repeat].
      do 2 f_equal. f_equal. lia.
Qed.

(** C7 (as the code has it).  A 429 reply makes the caller sleep for
    the fixed 60-second cooldown and send the same request again, and
    the retry is handled exactly like a first attempt: when the API
    answers 429 to [n] requests in a row and then gives another reply,
    and the interpreter has room for the [n + 1] nested calls below
    its recursion limit ([n < depth]), one call sends the same
    endpoint [n + 1] times, sleeps one second
    before each attempt and sixty seconds after each 429, and returns
    what the last reply yields.  The number of retries is the number
    of consecutive 429 replies; it is one only when [n = 1]. *)
Theorem rate_limit_retries_until_other_reply :
  forall (Payload : Type) (n depth : nat) (server : nat -> Reply Payload)
         (self : Stats) (net : Net) (endpoint : string),
    (n < depth)%nat ->
    (forall k, (k < n)%nat -> rate_limited (server (requests_sent net + k)%nat)) ->
    ~ rate_limited (server (requests_sent net + n)%nat) ->
    attempts depth server self net endpoint = S n
    /\ time_slept depth server self net endpoint = 60 * Z.of_nat n + Z.of_nat (S n)
    /\ sent_log (snd (fst (make_api_request depth server self net endpoint)))
       = sent_log net ++ repeat endpoint (S n)
    /\ snd (make_api_request depth server self net endpoint)
       = Return (outcome_of (server (requests_sent net + n)%nat)).
Proof.
  intros Payload n depth server self net endpoint Hd Hbusy Hfinal.
  destruct (make_api_request_retries n depth server self net endpoint
              Hd Hbusy Hfinal) as [self' Heq].
  unfold attempts, time_slept. rewrite Heq. cbn [fst snd sent_log seconds_slept].
  repeat split.
  - unfold requests_sent. cbn [sent_log].
    rewrite length_app, repeat_length. lia.
  - lia.
Qed.

(** The theorem at three rate-limit replies followed by a 200. *)
Lemma rate_limit_retries_until_other_reply_witness :
  attempts 100 (busy_then_ok 3 tt) stats0 net0 "/matches/v1/recent" = 4%nat
  /\ time_slept 100 (busy_then_ok 3 tt) stats0 net0 "/matches/v1/recent" = 184.
Proof.
  assert (Hbusy : forall k, (k < 3)%nat ->
            rate_limited (busy_then_ok 3 tt (requests_sent net0 + k)%nat)).
  { intros k Hk. exists None.
    destruct k as [| [| [| k]]]; [reflexivity | reflexivity | reflexivity | lia]. }
  assert (Hfinal : ~ rate_limited (busy_then_ok 3 tt (requests_sent net0 + 3)%nat)).
  { intros [json Hjson]. discriminate Hjson. }
  assert (Hd : (3 < 100)%nat) by lia.
  pose proof (rate_limit_retries_until_other_reply unit 3 100
                (busy_then_ok 3 tt) stats0 net0 "/matches/v1/recent"
                Hd Hbusy Hfinal) as [Ha [Ht _]].
  split; [exact Ha | exact Ht].
Defined.

(** The bound of two attempts does not hold: three 429 replies in a
    row make one call send the request four times before it returns
    the document of the fourth reply. *)
Lemma consecutive_rate_limits_exceed_two_attempts :
  ~ (attempts 100 (busy_then_ok 3 tt) stats0 net0 "/matches/v1/recent" <= 2)%nat
  /\ snd (make_api_request 100 (busy_then_ok 3 tt) stats0 net0
            "/matches/v1/recent") = Return (Some tt).
Proof.
  split; [| reflexivity].
  change (attempts 100 (busy_then_ok 3 tt) stats0 net0 "/matches/v1/recent")
    with 4%nat.
  lia.
Qed.

(* ------------------------------------------------------------------ *)
(** ** Match Ingestor *)

Lemma bind_ints_ok {S : Type} (params : list (option Z)) (s : S) :
  forallb sqlite_opt_int params = true ->
  bind_ints params s = (s, Ok tt).
Proof. intros H. unfold bind_ints. now rewrite H. Qed.

(** A guarded INSERT OR IGNORE leaves [matches] alone and does not
    raise when the number it binds is in range. *)
Lemma guarded_team_insert_ok (team_id : option Z) (name : string)
    (sname : option string) (d : Database) :
  sqlite_opt_int team_id = true ->
  exists d',
    when (truthy team_id)
      (insert_or_ignore_team (get_default team_id 0) name sname) d
    = (d', Ok tt)
    /\ matches d' = matches d.
Proof.
  intros Hr. destruct team_id as [z |]; cbn [truthy when].
  - destruct (negb (z =? 0)); cbn [when]; [| eexists; split; reflexivity].
    unfold insert_or_ignore_team, bind. cbn [get_default].
    rewrite bind_ints_ok by (cbn [forallb]; now rewrite Hr).
    eexists; split; reflexivity.
  - eexists; split; reflexivity.
Qed.

Lemma guarded_venue_insert_ok (venue_id : option Z) (name : string)
    (city : option string) (d : Database) :
  sqlite_opt_int venue_id = true ->
  exists d',
    when (truthy venue_id)
      (insert_or_ignore_venue (get_default venue_id 0) name city) d
    = (d', Ok tt)
    /\ matches d' = matches d.
Proof.
  intros Hr. destruct venue_id as [z |]; cbn [truthy when].
  - destruct (negb (z =? 0)); cbn [when]; [| eexists; split; reflexivity].
    unfold insert_or_ignore_venue, bind. cbn [get_default].
    rewrite bind_ints_ok by (cbn [forallb]; now rewrite Hr).
    eexists; split; reflexivity.
  - eexists; split; reflexivity.
Qed.

(** An accepted entry rewrites [matches] by the INSERT OR REPLACE of
    its row. *)
Lemma matches_after_accepted (local_date : string -> option string)
    (e : MatchData) (series_id : option Z) (is_live : bool)
    (match_id : Z) (d : Database) :
  accepted e series_id = true ->
  match_id_of e = Some match_id ->
  matches (after_store_match_data local_date e series_id is_live d)
  = insert_or_replace_match_rows
      (match_row_of local_date match_id
         (get_default (matchInfo e) no_match_info) series_id is_live)
      (matches d).
Proof.
  unfold accepted, match_id_of, after_store_match_data, store_match_data.
  set (mi := get_default (matchInfo e) no_match_info).
  intros Hacc Hid. rewrite Hid in *. cbn [truthy] in Hacc.
  apply andb_prop in Hacc as [Hnz Hr].
  apply negb_true_iff in Hnz. rewrite Hnz.
  cbn [forallb] in Hr.
  apply andb_prop in Hr as [Hm Hr]. apply andb_prop in Hr as [Hs Hr].
  apply andb_prop in Hr as [H1 Hr]. apply andb_prop in Hr as [H2 Hr].
  apply andb_prop in Hr as [Hv _].
  unfold try_except, bind.
  destruct (guarded_team_insert_ok
              (teamId (get_default (team1 mi) no_team_info))
              (get_default (teamName (get_default (team1 mi) no_team_info))
                 "Unknown Team")
              (teamSName (get_default (team1 mi) no_team_info)) d H1)
    as [d1 [E1 M1]].
  rewrite E1.
  destruct (guarded_team_insert_ok
              (teamId (get_default (team2 mi) no_team_info))
              (get_default (teamName (get_default (team2 mi) no_team_info))
                 "Unknown Team")
              (teamSName (get_default (team2 mi) no_team_info)) d1 H2)
    as [d2 [E2 M2]].
  rewrite E2.
  destruct (guarded_venue_insert_ok
              (venue_info_id (get_default (venueInfo mi) no_venue_info))
              (get_default (ground (get_default (venueInfo mi) no_venue_info))
                 "Unknown Venue")
              (venue_info_city (get_default (venueInfo mi) no_venue_info))
              d2 Hv)
    as [d3 [E3 M3]].
  rewrite E3.
  unfold insert_or_replace_match, bind.
  rewrite bind_ints_ok.
  - cbn. congruence.
  - cbn [forallb m_match_id m_series_id m_team1_id m_team2_id m_venue_id
         match_row_of].
    cbn [sqlite_opt_int] in *. now rewrite Hm, Hs, H1, H2, Hv.
Qed.

(** *** Table-level facts *)

Lemma insert_or_ignore_team_absorbed (id : Z) (name : string)
    (sname : option string) (table : list TeamRow) :
  existsb (team_conflict id name) table = true ->
  insert_or_ignore_team_rows id name sname table = table.
Proof. intros H. unfold insert_or_ignore_team_rows. now rewrite H. Qed.

Lemma filter_id_of_other_ids (id : Z) (table : list MatchRow) :
  filter (fun r => m_match_id r =? id)
    (filter (fun r => negb (m_match_id r =? id)) table) = [].
Proof.
  induction table as [| r table IH]; cbn; [reflexivity |].
  destruct (m_match_id r =? id) eqn:E; cbn; [exact IH |].
  now rewrite E.
Qed.

(** After an INSERT OR REPLACE the table holds exactly one row with
    the id of the new row: the new row. *)
Lemma insert_or_replace_match_single (row : MatchRow) (table : list MatchRow) :
  filter (fun r => m_match_id r =? m_match_id row)
    (insert_or_replace_match_rows row table) = [row].
Proof.
  unfold insert_or_replace_match_rows.
  rewrite filter_app, filter_id_of_other_ids. cbn.
  now rewrite Z.eqb_refl.
Qed.

(** An entry that is not accepted writes nothing to [matches]. *)
Lemma matches_unchanged_when_not_accepted
    (local_date : string -> option string) (e : MatchData)
    (series_id : option Z) (is_live : bool) (d : Database) :
  accepted e series_id = false ->
  matches (after_store_match_data local_date e series_id is_live d) = matches d.
Proof.
  unfold accepted, after_store_match_data, store_match_data.
  set (mi := get_default (matchInfo e) no_match_info).
  destruct (matchId mi) as [id |]; [| reflexivity].
  cbn [truthy]. destruct (id =? 0); [reflexivity |]. cbn [negb andb].
  intros Hacc.
  unfold try_except, bind, when, insert_or_ignore_team, insert_or_ignore_venue,
    insert_or_replace_match, bind, bind_ints, modify, ret, raise.
  cbn [m_match_id m_series_id m_team1_id m_team2_id m_venue_id match_row_of].
  rewrite Hacc.
  destruct (truthy (teamId (get_default (team1 mi) no_team_info)));
  destruct (truthy (teamId (get_default (team2 mi) no_team_info)));
  destruct (truthy (venue_info_id (get_default (venueInfo mi) no_venue_info)));
  repeat match goal with
    | |- context [forallb sqlite_opt_int [Some ?x]] =>
        destruct (forallb sqlite_opt_int [Some x]); cbn [fst snd]
    end;
  reflexivity.
Qed.

Example match_501_live_then_completed :
  matches_with_id 501
    (after_store_match_data no_date match_501_over (Some 7) false
       (after_store_match_data no_date match_501_in_play (Some 7) true
          empty_db))
  = [ mkMatch 501 (Some "1st ODI") (Some "ODI") None (Some 7)
        (Some 10) (Some 20) (Some 99) None None None None None
        (Some "Completed") ].
Proof. reflexivity. Qed.

Example match_501_live_row :
  matches (after_store_match_data no_date match_501_in_play (Some 7) true
             empty_db)
  = [ mkMatch 501 (Some "1st ODI") (Some "ODI") None (Some 7)
        (Some 10) (Some 20) (Some 99) None None None None None
        (Some "Live") ].
Proof. reflexivity. Qed.




(* ------------------------------------------------------------------ *)
(** ** Query Facade: the write path *)

Example insert_new_team_commits :
  execute_update all_fine (insert_team 5 (Some "New Zealand") (Some "NZ") None)
    sample_teams
  = (set_teams (fun t => t ++ [mkTeam 5 "New Zealand" (Some "NZ") None])
       sample_teams, true).
Proof. reflexivity. Qed.

Example insert_duplicate_team_name_fails :
  execute_update all_fine (insert_team 5 (Some "India") (Some "IND") None)
    sample_teams
  = (sample_teams, false).
Proof. reflexivity. Qed.

Example partial_change_is_rolled_back :
  execute_update all_fine rename_then_fail sample_teams = (sample_teams, false).
Proof. reflexivity. Qed.




(* ------------------------------------------------------------------ *)
(** ** Aggregator: player statistics *)

Example two_innings_aggregates :
  players (fst (update_player_statistics Sql.decimal_round two_innings_db))
  = [ mkPlayer 1000001 "A Batter" None None (SqlInt 2) (SqlInt 80) (SqlInt 0)
               (SqlReal (40 # 1)) (SqlReal (Sql.binary64 (13333 # 100))) None;
      mkPlayer 1000002 "B Newcomer" None None (SqlInt 0) (SqlInt 0) (SqlInt 0)
               (SqlReal 0) (SqlReal 0) None ].
Proof. vm_compute. reflexivity. Qed.

(** REAL values are binary64 numbers: an integer above 2^53 need not
    survive the conversion, and 1/3 is not 1/3. *)
Example binary64_examples :
  Sql.real_of_int (2 ^ 53 + 1) = inject_Z (2 ^ 53)
  /\ Sql.real_of_int 80 = inject_Z 80
  /\ Sql.real_div 1 3 = (6004799503160661 # 18014398509481984)%Q
  /\ Sql.real_div 8000 60 = (4691249611844267 # 35184372088832)%Q.
Proof. vm_compute. repeat split. Qed.

(** The UPDATE on a store where the runs of a player overflow: the
    statement fails, the handler rolls back, and every stored value
    stays. *)
Example overflowing_update :
  update_players Sql.decimal_round overflowing_db
  = (overflowing_db, Raise (OperationalError "integer overflow"))
  /\ update_player_statistics Sql.decimal_round overflowing_db
     = (overflowing_db, Ok tt).
Proof. vm_compute. split; reflexivity. Qed.

Lemma gt_zero_of_positive (n : Z) :
  0 < n -> Sql.gt (SqlInt n) (SqlInt 0) = SqlInt 1.
Proof.
  intros Hn. unfold Sql.gt. cbn [Sql.to_Q].
  destruct (Qle_bool (inject_Z n) (inject_Z 0)) eqn:E; [| reflexivity].
  apply Qle_bool_iff in E. rewrite <- Zle_Qle in E. lia.
Qed.

Lemma total_cons (x : Z) (values : list Z) :
  Sql.total (x :: values) = x + Sql.total values.
Proof. reflexivity. Qed.

Lemma total_positive {R : Type} (col : R -> Z) (rows : list R) :
  rows <> [] -> (forall r, In r rows -> 0 < col r) ->
  0 < Sql.total (map col rows).
Proof.
  induction rows as [| r rows IH]; [contradiction |].
  intros _ Hpos. cbn [map Sql.total fold_right].
  pose proof (Hpos r (or_introl eq_refl)) as Hr.
  destruct rows as [| r' rows]; [cbn; lia |].
  assert (0 < Sql.total (map col (r' :: rows))).
  { apply IH; [discriminate |]. intros x Hx. apply Hpos. now right. }
  unfold Sql.total in *. lia.
Qed.

Lemma rows_with_balls_positive (player_id : Z) (perf : list PerformanceRow) :
  forall r, In r (rows_with_balls player_id perf) -> 0 < pmp_balls_faced r.
Proof.
  intros r Hr. apply filter_In in Hr as [_ Hr].
  apply andb_prop in Hr as [_ Hr]. now apply Z.ltb_lt in Hr.
Qed.

Lemma filter_nil_of_weaker {R : Type} (f g : R -> bool) (rows : list R) :
  (forall r, g r = true -> f r = true) ->
  filter f rows = [] -> filter g rows = [].
Proof.
  intros Himp. induction rows as [| r rows IH]; cbn; [reflexivity |].
  destruct (f r) eqn:Ef; [discriminate |].
  destruct (g r) eqn:Eg; [apply Himp in Eg; congruence | exact IH].
Qed.

(** With runs never negative, the runs of the rows with runs are all
    the runs of the player. *)
Lemma total_runs_of_rows_with_runs (player_id : Z) (perf : list PerformanceRow) :
  (forall r, In r perf -> 0 <= pmp_runs_scored r) ->
  Sql.total (map pmp_runs_scored (rows_with_runs player_id perf))
  = Sql.total (map pmp_runs_scored (rows_of_player player_id perf)).
Proof.
  unfold rows_with_runs, rows_of_player.
  induction perf as [| r perf IH]; intros Hnn; [reflexivity |].
  assert (IH' := IH (fun x Hx => Hnn x (or_intror Hx))).
  pose proof (Hnn r (or_introl eq_refl)) as Hr.
  cbn [filter]. destruct (pmp_player_id r =? player_id); cbn [andb].
  - destruct (0 <? pmp_runs_scored r) eqn:E; cbn [map];
      rewrite ?total_cons, IH'; [reflexivity |].
    apply Z.ltb_ge in E. lia.
  - exact IH'.
Qed.

(** *** The scan order does not change what is selected *)

Lemma insert_by_permutation {R : Type} (key : R -> Z) (x : R) (l : list R) :
  Permutation (insert_by key x l) (x :: l).
Proof.
  induction l as [| y l IH]; cbn [insert_by]; [reflexivity |].
  destruct (key x <=? key y); [reflexivity |].
  rewrite IH. apply perm_swap.
Qed.

Lemma in_order_of_permutation {R : Type} (key : R -> Z) (l : list R) :
  Permutation (in_order_of key l) l.
Proof.
  unfold in_order_of. induction l as [| x l IH]; cbn [fold_right];
    [reflexivity |].
  rewrite insert_by_permutation. now constructor.
Qed.

Lemma filter_permutation {R : Type} (f : R -> bool) (l l' : list R) :
  Permutation l l' -> Permutation (filter f l) (filter f l').
Proof.
  induction 1 as [| x l l' _ IH | x y l | l l' l'' _ IH1 _ IH2];
    cbn [filter].
  - reflexivity.
  - destruct (f x); [now constructor | exact IH].
  - destruct (f x), (f y); try reflexivity. apply perm_swap.
  - now transitivity (filter f l').
Qed.

Lemma total_permutation (l l' : list Z) :
  Permutation l l' -> Sql.total l = Sql.total l'.
Proof.
  induction 1 as [| x l l' _ IH | x y l | l l' l'' _ IH1 _ IH2];
    rewrite ?total_cons; lia.
Qed.

Lemma count_distinct_permutation (l l' : list Z) :
  Permutation l l' -> Sql.count_distinct l = Sql.count_distinct l'.
Proof.
  intros Hp. unfold Sql.count_distinct. do 2 f_equal.
  apply Permutation_length. apply NoDup_Permutation.
  - apply NoDup_nodup.
  - apply NoDup_nodup.
  - intros x. rewrite !nodup_In. split; intros Hx.
    + now apply (Permutation_in x Hp).
    + now apply (Permutation_in x (Permutation_sym Hp)).
Qed.

Lemma scan_selects_same_rows (f : PerformanceRow -> bool)
    (perf : list PerformanceRow) :
  Permutation (filter f (scan_performance perf)) (filter f perf).
Proof. apply filter_permutation, in_order_of_permutation. Qed.

Lemma scan_total (f : PerformanceRow -> bool) (col : PerformanceRow -> Z)
    (perf : list PerformanceRow) :
  Sql.total (map col (filter f (scan_performance perf)))
  = Sql.total (map col (filter f perf)).
Proof.
  apply total_permutation, Permutation_map, scan_selects_same_rows.
Qed.

Lemma scan_length (f : PerformanceRow -> bool) (perf : list PerformanceRow) :
  List.length (filter f (scan_performance perf)) = List.length (filter f perf).
Proof. apply Permutation_length, scan_selects_same_rows. Qed.

(** *** SUM *)

Lemma running_sum_total (values : list Z) :
  forall acc t,
    Sql.running_sum acc values = Some t -> t = acc + Sql.total values.
Proof.
  induction values as [| v values IH]; intros acc t; cbn [Sql.running_sum].
  - intros [= <-]. cbn. lia.
  - destruct (sqlite_int (acc + v)); [| discriminate].
    intros H. apply IH in H. rewrite total_cons. lia.
Qed.

Lemma sum_when_it_fits (values : list Z) :
  sum_fits values = true ->
  Sql.sum values
  = Ok (match values with
        | [] => SqlNull
        | _ :: _ => SqlInt (Sql.total values)
        end).
Proof.
  unfold sum_fits, Sql.sum. destruct values as [| v values]; [reflexivity |].
  destruct (Sql.running_sum 0 (v :: values)) as [t |] eqn:E; [| discriminate].
  intros _. apply running_sum_total in E. now rewrite E.
Qed.

Lemma sum_when_it_overflows (values : list Z) :
  sum_fits values = false ->
  Sql.sum values = Raise (OperationalError "integer overflow").
Proof.
  unfold sum_fits, Sql.sum. destruct values as [| v values]; [discriminate |].
  now destruct (Sql.running_sum 0 (v :: values)).
Qed.

(** Values of one sign that add up within the range fit in any
    order. *)
Lemma nonnegative_sum_fits (values : list Z) :
  (forall v, In v values -> 0 <= v) ->
  Sql.total values < 2 ^ 63 ->
  sum_fits values = true.
Proof.
  intros Hnn Htotal. unfold sum_fits.
  assert (H : forall acc, 0 <= acc -> acc + Sql.total values < 2 ^ 63 ->
                          exists t, Sql.running_sum acc values = Some t).
  { clear Htotal. induction values as [| v values IH]; intros acc Hacc Hsum.
    - now exists acc.
    - cbn [Sql.running_sum]. rewrite total_cons in Hsum.
      pose proof (Hnn v (or_introl eq_refl)) as Hv.
      assert (Hrest : 0 <= Sql.total values).
      { clear - Hnn. induction values as [| x values IH]; [cbn; lia |].
        rewrite total_cons.
        pose proof (Hnn x (or_intror (or_introl eq_refl))).
        assert (0 <= Sql.total values).
        { apply IH. intros y [-> | Hy]; apply Hnn; [now left | now right; right]. }
        lia. }
      assert (Hfit : sqlite_int (acc + v) = true).
      { unfold sqlite_int. apply andb_true_intro. split;
          [apply Z.leb_le | apply Z.ltb_lt]; lia. }
      rewrite Hfit. apply IH; [| lia | lia].
      intros y Hy. apply Hnn. now right. }
  destruct (H 0) as [t Ht]; [lia | lia |]. now rewrite Ht.
Qed.


Lemma sum_ok_fits (values : list Z) (v : SqlValue) :
  Sql.sum values = Ok v -> sum_fits values = true.
Proof.
  intros H. destruct (sum_fits values) eqn:E; [reflexivity |].
  rewrite (sum_when_it_overflows values E) in H. discriminate H.
Qed.

(** *** The sub-selects when their SUMs fit *)

Lemma selected_nil (f : PerformanceRow -> bool) (perf : list PerformanceRow) :
  filter f perf = [] -> filter f (scan_performance perf) = [].
Proof.
  intros E. apply Permutation_nil. symmetry.
  rewrite <- E. apply scan_selects_same_rows.
Qed.

Lemma select_runs_scored_value (player_id : Z) (perf : list PerformanceRow) :
  sum_fits (map pmp_runs_scored
              (rows_of_player player_id (scan_performance perf))) = true ->
  select_runs_scored player_id (scan_performance perf)
  = Ok (SqlInt (Sql.total (map pmp_runs_scored (rows_of_player player_id perf)))).
Proof.
  intros Hfit. unfold select_runs_scored, with_sum.
  rewrite (sum_when_it_fits _ Hfit). unfold rows_of_player.
  rewrite <- (scan_total _ pmp_runs_scored perf).
  now destruct (map pmp_runs_scored _).
Qed.

Lemma select_wickets_taken_value (player_id : Z) (perf : list PerformanceRow) :
  sum_fits (map pmp_wickets_taken
              (rows_of_player player_id (scan_performance perf))) = true ->
  select_wickets_taken player_id (scan_performance perf)
  = Ok (SqlInt (Sql.total (map pmp_wickets_taken
                             (rows_of_player player_id perf)))).
Proof.
  intros Hfit. unfold select_wickets_taken, with_sum.
  rewrite (sum_when_it_fits _ Hfit). unfold rows_of_player.
  rewrite <- (scan_total _ pmp_wickets_taken perf).
  now destruct (map pmp_wickets_taken _).
Qed.

Lemma select_matches_played_value (player_id : Z) (perf : list PerformanceRow) :
  select_matches_played player_id (scan_performance perf)
  = Sql.count_distinct (map pmp_match_id (rows_of_player player_id perf)).
Proof.
  unfold select_matches_played, rows_of_player.
  apply count_distinct_permutation, Permutation_map, scan_selects_same_rows.
Qed.

Lemma select_batting_average_value (round_to_2 : Q -> Q) (player_id : Z)
    (perf : list PerformanceRow) :
  sum_fits (map pmp_runs_scored
              (rows_with_runs player_id (scan_performance perf))) = true ->
  select_batting_average round_to_2 player_id (scan_performance perf)
  = Ok (average_over round_to_2 (rows_with_runs player_id perf)).
Proof.
  intros Hfit. unfold select_batting_average, with_sum.
  rewrite (sum_when_it_fits _ Hfit). f_equal. unfold average_over.
  unfold rows_with_runs in *.
  set (f := fun r => (pmp_player_id r =? player_id) && (0 <? pmp_runs_scored r)).
  rewrite <- (scan_total f pmp_runs_scored perf), <- (scan_length f perf).
  destruct (filter f perf) as [| r0 rows0] eqn:E.
  - rewrite (selected_nil f perf E). reflexivity.
  - assert (Hne : filter f (scan_performance perf) <> []).
    { intros Hnil. pose proof (scan_length f perf) as Hlen.
      rewrite Hnil, E in Hlen. discriminate Hlen. }
    destruct (filter f (scan_performance perf)) as [| r rows]; [contradiction |].
    set (selected := r :: rows).
    assert (Hlen : 0 < Z.of_nat (List.length selected)) by (cbn; lia).
    unfold Sql.count. rewrite (gt_zero_of_positive _ Hlen).
    unfold Sql.case_when. cbn [Sql.holds Sql.to_Q].
    change (negb (Qeq_bool (inject_Z 1) 0)) with true. cbn iota.
    assert (Hr : match map pmp_runs_scored selected with
                 | [] => SqlNull
                 | _ :: _ => SqlInt (Sql.total (map pmp_runs_scored selected))
                 end = SqlInt (Sql.total (map pmp_runs_scored selected)))
      by reflexivity.
    rewrite Hr. cbn [Sql.cast_float Sql.div].
    destruct (Z.of_nat (List.length selected) =? 0) eqn:E0;
      [apply Z.eqb_eq in E0; lia |].
    reflexivity.
Qed.

Lemma select_strike_rate_value (round_to_2 : Q -> Q) (player_id : Z)
    (perf : list PerformanceRow) :
  sum_fits (map pmp_balls_faced
              (rows_with_balls player_id (scan_performance perf))) = true ->
  sum_fits (map pmp_runs_scored
              (rows_with_balls player_id (scan_performance perf))) = true ->
  select_strike_rate round_to_2 player_id (scan_performance perf)
  = Ok (rate_over round_to_2 (rows_with_balls player_id perf)).
Proof.
  intros Hballs Hruns. unfold select_strike_rate, with_sum.
  rewrite (sum_when_it_fits _ Hballs), (sum_when_it_fits _ Hruns).
  f_equal. unfold rate_over.
  pose proof (rows_with_balls_positive player_id (scan_performance perf))
    as Hpos.
  unfold rows_with_balls in *.
  set (f := fun r => (pmp_player_id r =? player_id) && (0 <? pmp_balls_faced r))
    in *.
  rewrite <- (scan_total f pmp_runs_scored perf),
          <- (scan_total f pmp_balls_faced perf).
  destruct (filter f perf) as [| r0 rows0] eqn:E.
  - rewrite (selected_nil f perf E). reflexivity.
  - assert (Hne : filter f (scan_performance perf) <> []).
    { intros Hnil. pose proof (scan_length f perf) as Hlen.
      rewrite Hnil, E in Hlen. discriminate Hlen. }
    pose proof (total_positive pmp_balls_faced _ Hne Hpos) as Htotal.
    destruct (filter f (scan_performance perf)) as [| r rows]; [contradiction |].
    set (selected := r :: rows) in *.
    assert (Hb : match map pmp_balls_faced selected with
                 | [] => SqlNull
                 | _ :: _ => SqlInt (Sql.total (map pmp_balls_faced selected))
                 end = SqlInt (Sql.total (map pmp_balls_faced selected)))
      by reflexivity.
    assert (Hr : match map pmp_runs_scored selected with
                 | [] => SqlNull
                 | _ :: _ => SqlInt (Sql.total (map pmp_runs_scored selected))
                 end = SqlInt (Sql.total (map pmp_runs_scored selected)))
      by reflexivity.
    rewrite Hb, Hr.
    rewrite (gt_zero_of_positive _ Htotal).
    unfold Sql.case_when. cbn [Sql.holds Sql.to_Q].
    change (negb (Qeq_bool (inject_Z 1) 0)) with true. cbn iota.
    cbn [Sql.cast_float Sql.mul Sql.div].
    destruct (Sql.total (map pmp_balls_faced selected) =? 0) eqn:E0;
      [apply Z.eqb_eq in E0; lia |].
    reflexivity.
Qed.

(** *** The UPDATE *)

Lemma aggregate_player_fits (round_to_2 : Q -> Q) (perf : list PerformanceRow)
    (p : PlayerRow) :
  sums_fit perf (p_player_id p) = true ->
  aggregate_player round_to_2 (scan_performance perf) p
  = Ok (recomputed round_to_2 perf p).
Proof.
  unfold sums_fit. intros H.
  apply andb_prop in H as [H H5]. apply andb_prop in H as [H H4].
  apply andb_prop in H as [H H3]. apply andb_prop in H as [H1 H2].
  unfold aggregate_player.
  rewrite (select_runs_scored_value _ _ H1),
          (select_wickets_taken_value _ _ H2),
          (select_batting_average_value round_to_2 _ _ H3),
          (select_strike_rate_value round_to_2 _ _ H4 H5),
          select_matches_played_value.
  reflexivity.
Qed.

Lemma aggregate_player_overflows (round_to_2 : Q -> Q)
    (perf : list PerformanceRow) (p : PlayerRow) :
  sums_fit perf (p_player_id p) = false ->
  exists e, aggregate_player round_to_2 (scan_performance perf) p = Raise e.
Proof.
  intros Hno.
  destruct (aggregate_player round_to_2 (scan_performance perf) p)
    as [p' | e] eqn:E; [| now exists e].
  exfalso. revert E. unfold aggregate_player, select_runs_scored,
    select_wickets_taken, select_batting_average, select_strike_rate, with_sum.
  unfold sums_fit in Hno.
  destruct (Sql.sum (map pmp_runs_scored
              (rows_of_player (p_player_id p) (scan_performance perf))))
    as [v1 | e1] eqn:E1; [| discriminate].
  destruct (Sql.sum (map pmp_wickets_taken
              (rows_of_player (p_player_id p) (scan_performance perf))))
    as [v2 | e2] eqn:E2; [| discriminate].
  destruct (Sql.sum (map pmp_runs_scored
              (rows_with_runs (p_player_id p) (scan_performance perf))))
    as [v3 | e3] eqn:E3; [| discriminate].
  destruct (Sql.sum (map pmp_balls_faced
              (rows_with_balls (p_player_id p) (scan_performance perf))))
    as [v4 | e4] eqn:E4; [| discriminate].
  destruct (Sql.sum (map pmp_runs_scored
              (rows_with_balls (p_player_id p) (scan_performance perf))))
    as [v5 | e5] eqn:E5; [| discriminate].
  rewrite (sum_ok_fits _ _ E1), (sum_ok_fits _ _ E2), (sum_ok_fits _ _ E3),
          (sum_ok_fits _ _ E4), (sum_ok_fits _ _ E5) in Hno.
  discriminate Hno.
Qed.

Lemma aggregate_players_fit (round_to_2 : Q -> Q) (perf : list PerformanceRow)
    (table : list PlayerRow) :
  forallb (fun p => sums_fit perf (p_player_id p)) table = true ->
  aggregate_players round_to_2 (scan_performance perf) table
  = Ok (map (recomputed round_to_2 perf) table).
Proof.
  induction table as [| p table IH]; [reflexivity |].
  cbn [forallb]. intros H. apply andb_prop in H as [Hp Hrest].
  cbn [aggregate_players map].
  now rewrite (aggregate_player_fits round_to_2 perf p Hp), (IH Hrest).
Qed.

Lemma aggregate_players_overflow (round_to_2 : Q -> Q)
    (perf : list PerformanceRow) (table : list PlayerRow) :
  forallb (fun p => sums_fit perf (p_player_id p)) table = false ->
  exists e, aggregate_players round_to_2 (scan_performance perf) table = Raise e.
Proof.
  induction table as [| p table IH]; [discriminate |].
  cbn [forallb aggregate_players]. intros H.
  apply andb_false_iff in H as [Hp | Hrest].
  - destruct (aggregate_player_overflows round_to_2 perf p Hp) as [e He].
    rewrite He. now exists e.
  - destruct (IH Hrest) as [e He]. rewrite He.
    destruct (aggregate_player round_to_2 (scan_performance perf) p);
      eexists; reflexivity.
Qed.

(** The run: the recomputed table when every SUM fits, the database
    as it was found otherwise. *)
Lemma update_player_statistics_fits (round_to_2 : Q -> Q) (d : Database) :
  no_sum_overflows d = true ->
  update_players round_to_2 d
  = (set_players
       (fun _ => map (recomputed round_to_2 (player_match_performance d))
                     (players d)) d, Ok tt)
  /\ update_player_statistics round_to_2 d
     = (set_players
          (fun _ => map (recomputed round_to_2 (player_match_performance d))
                        (players d)) d, Ok tt).
Proof.
  intros H. unfold update_player_statistics, try_except, update_players.
  unfold no_sum_overflows in H.
  rewrite (aggregate_players_fit round_to_2 _ _ H). now split.
Qed.

Lemma update_player_statistics_overflows (round_to_2 : Q -> Q) (d : Database) :
  no_sum_overflows d = false ->
  (exists e, update_players round_to_2 d = (d, Raise e))
  /\ update_player_statistics round_to_2 d = (d, Ok tt).
Proof.
  intros H. unfold update_player_statistics, try_except, update_players.
  unfold no_sum_overflows in H.
  destruct (aggregate_players_overflow round_to_2 _ _ H) as [e He].
  rewrite He. split; [now exists e | reflexivity].
Qed.

(** C4 (as the code has it).  Take a store on which no SUM of the
    UPDATE leaves the 64-bit range.  After the Aggregator has run,
    every player on record is still on record, and: if the player has
    at least one performance row with runs_scored > 0, batting_average
    is ROUND(., 2) of the runs of those rows divided by their number;
    if the player has at least one row with balls_faced > 0,
    strike_rate is ROUND(., 2) of the runs of those rows times 100
    divided by their balls faced.  The totals are integers, the
    product and the quotients are those of REAL (binary64) arithmetic,
    and [round_to_2] is ROUND(., 2) of the SQLite library.  When no
    row has negative runs, the runs of the rows with runs are all the
    runs of the player, the value stored as runs_scored.  The rows
    (50 off 40) and (30 off 20) give strike_rate 133.33 and
    batting_average 40.0 (the binary64 numbers nearest to them) with
    any ROUND that takes 8000/60 to 133.33 and 40 to 40. *)
Theorem aggregator_batting_average_and_strike_rate :
  forall (round_to_2 : Q -> Q) (d : Database) (p : PlayerRow),
    no_sum_overflows d = true ->
    In p (players d) ->
    let perf := player_match_performance d in
    let with_runs := rows_with_runs (p_player_id p) perf in
    let with_balls := rows_with_balls (p_player_id p) perf in
    (exists p',
        In p' (players (fst (update_player_statistics round_to_2 d)))
        /\ player_identity p' = player_identity p
        /\ (with_runs <> [] ->
            p_batting_average p'
            = SqlReal (round_to_2
                (Sql.real_div
                   (Sql.real_of_int (Sql.total (map pmp_runs_scored with_runs)))
                   (Sql.real_of_int (Z.of_nat (List.length with_runs))))))
        /\ (with_balls <> [] ->
            p_strike_rate p'
            = SqlReal (round_to_2
                (Sql.real_div
                   (Sql.real_mul
                      (Sql.real_of_int
                         (Sql.total (map pmp_runs_scored with_balls)))
                      (Sql.real_of_int 100))
                   (Sql.real_of_int
                      (Sql.total (map pmp_balls_faced with_balls))))))
        /\ ((forall r, In r perf -> 0 <= pmp_runs_scored r) ->
            Sql.total (map pmp_runs_scored with_runs)
            = Sql.total (map pmp_runs_scored
                           (rows_of_player (p_player_id p) perf))
            /\ p_runs_scored p'
               = SqlInt (Sql.total (map pmp_runs_scored with_runs))))
    /\ (round_to_2 (Sql.real_div 8000 60) = Sql.binary64 (13333 # 100) ->
        round_to_2 40%Q = 40%Q ->
        map (fun q => (p_batting_average q, p_strike_rate q))
            (players (fst (update_player_statistics round_to_2
                             two_innings_db)))
        = [ (SqlReal 40, SqlReal (Sql.binary64 (13333 # 100)));
            (SqlReal 0, SqlReal 0) ]).
Proof.
  intros round_to_2 d p Hfit Hin perf with_runs with_balls.
  split.
  - exists (recomputed round_to_2 perf p).
    destruct (update_player_statistics_fits round_to_2 d Hfit) as [_ Hrun].
    rewrite Hrun. cbn [fst players set_players].
    split; [now apply in_map |].
    split; [reflexivity |].
    cbn [recomputed p_batting_average p_strike_rate p_runs_scored].
    fold perf. fold with_runs. fold with_balls.
    split; [| split].
    + intros Hne. unfold average_over.
      destruct with_runs; [contradiction | reflexivity].
    + intros Hne. unfold rate_over.
      destruct with_balls; [contradiction | reflexivity].
    + intros Hnn.
      pose proof (total_runs_of_rows_with_runs (p_player_id p) perf Hnn) as Ht.
      split; [exact Ht |]. unfold with_runs. now rewrite Ht.
  - intros H133 H40.
    assert (Hfit2 : no_sum_overflows two_innings_db = true) by reflexivity.
    destruct (update_player_statistics_fits round_to_2 two_innings_db Hfit2)
      as [_ Hrun].
    rewrite Hrun. cbn [fst players set_players two_innings_db map
                       player_match_performance].
    unfold recomputed.
    cbn [p_batting_average p_strike_rate p_player_id new_player].
    change (rows_with_runs 1000001 _)
      with [batting_row 1 1000001 501 50 40; batting_row 2 1000001 502 30 20].
    change (rows_with_balls 1000001 _)
      with [batting_row 1 1000001 501 50 40; batting_row 2 1000001 502 30 20].
    change (rows_with_runs 1000002 _) with (@nil PerformanceRow).
    change (rows_with_balls 1000002 _) with (@nil PerformanceRow).
    unfold average_over, rate_over.
    change (Sql.real_div (Sql.real_of_int _) (Sql.real_of_int (Z.of_nat _)))
      with 40%Q.
    change (Sql.real_div (Sql.real_mul _ _) (Sql.real_of_int _))
      with (Sql.real_div 8000 60).
    now rewrite H133, H40.
Qed.

(** The theorem at the player with the innings (50 off 40) and
    (30 off 20). *)
Lemma aggregator_batting_average_and_strike_rate_witness :
  exists p',
    In p' (players (fst (update_player_statistics Sql.decimal_round
                           two_innings_db)))
    /\ p_player_id p' = 1000001
    /\ p_batting_average p' = SqlReal 40
    /\ p_strike_rate p' = SqlReal (Sql.binary64 (13333 # 100)).
Proof.
  destruct (proj1 (aggregator_batting_average_and_strike_rate
                     Sql.decimal_round two_innings_db
                     (new_player 1000001 "A Batter")
                     eq_refl (or_introl eq_refl)))
    as [p' [Hin [Hid [Havg [Hsr _]]]]].
  exists p'. split; [exact Hin |]. split; [| split].
  - exact (f_equal (fun t => fst (fst (fst (fst t)))) Hid).
  - rewrite Havg; [vm_compute; reflexivity | discriminate].
  - rewrite Hsr; [vm_compute; reflexivity | discriminate].
Defined.

(** The claim does not hold on every store: here a player has two
    rows with runs_scored > 0, with 2^63 runs between them, and after
    the Aggregator has run the batting_average on record is still the
    0.0 it was, not the quotient 2^62: the SUM overflows, the UPDATE
    fails and is rolled back. *)
Lemma overflowing_sum_leaves_average_unset :
  List.length (rows_with_runs 1000001 (player_match_performance overflowing_db))
  = 2%nat
  /\ Sql.total (map pmp_runs_scored
                  (rows_with_runs 1000001
                     (player_match_performance overflowing_db))) = 2 ^ 63
  /\ map (fun q => (p_player_id q, p_batting_average q, p_strike_rate q))
         (players (fst (update_player_statistics Sql.decimal_round
                          overflowing_db)))
     = [ (1000001, SqlReal 0, SqlReal 0); (1000002, SqlReal 50, SqlReal 0) ].
Proof. vm_compute. repeat split. Qed.

(** C5 (as the code has it).  On a store on which no SUM of the
    UPDATE leaves the 64-bit range, the UPDATE does not raise - a zero
    denominator is never divided by - and after the run every player
    on record is still on record, with batting_average 0.0 when no row
    of the player has runs_scored > 0, with strike_rate 0.0 when no
    row has balls_faced > 0, and with both at 0.0 when the player has
    no performance row at all.  (The CASE guards the division: SQLite
    would otherwise store NULL.) *)
Theorem aggregator_zero_without_qualifying_rows :
  forall (round_to_2 : Q -> Q) (d : Database) (p : PlayerRow),
    no_sum_overflows d = true ->
    In p (players d) ->
    let perf := player_match_performance d in
    snd (update_players round_to_2 d) = Ok tt
    /\ snd (update_player_statistics round_to_2 d) = Ok tt
    /\ exists p',
         In p' (players (fst (update_player_statistics round_to_2 d)))
         /\ player_identity p' = player_identity p
         /\ (rows_with_runs (p_player_id p) perf = [] ->
             p_batting_average p' = SqlReal 0)
         /\ (rows_with_balls (p_player_id p) perf = [] ->
             p_strike_rate p' = SqlReal 0)
         /\ (rows_of_player (p_player_id p) perf = [] ->
             p_batting_average p' = SqlReal 0 /\ p_strike_rate p' = SqlReal 0).
Proof.
  intros round_to_2 d p Hfit Hin perf.
  destruct (update_player_statistics_fits round_to_2 d Hfit) as [Hstmt Hrun].
  rewrite Hstmt, Hrun. cbn [fst snd players set_players].
  split; [reflexivity | split; [reflexivity |]].
  exists (recomputed round_to_2 perf p).
  split; [now apply in_map |]. split; [reflexivity |].
  cbn [recomputed p_batting_average p_strike_rate].
  assert (Hruns : rows_of_player (p_player_id p) perf = [] ->
                  rows_with_runs (p_player_id p) perf = []).
  { apply filter_nil_of_weaker. intros r Hr.
    now apply andb_prop in Hr as [Hr _]. }
  assert (Hballs : rows_of_player (p_player_id p) perf = [] ->
                   rows_with_balls (p_player_id p) perf = []).
  { apply filter_nil_of_weaker. intros r Hr.
    now apply andb_prop in Hr as [Hr _]. }
  split; [| split].
  - intros E. now rewrite E.
  - intros E. now rewrite E.
  - intros E. now rewrite (Hruns E), (Hballs E).
Qed.

(** The theorem at the player without any performance row. *)
Lemma aggregator_zero_without_qualifying_rows_witness :
  exists p',
    In p' (players (fst (update_player_statistics Sql.decimal_round
                           two_innings_db)))
    /\ p_player_id p' = 1000002
    /\ p_batting_average p' = SqlReal 0
    /\ p_strike_rate p' = SqlReal 0.
Proof.
  destruct (proj2 (proj2 (aggregator_zero_without_qualifying_rows
                            Sql.decimal_round two_innings_db
                            (new_player 1000002 "B Newcomer")
                            eq_refl (or_intror (or_introl eq_refl)))))
    as [p' [Hin [Hid [_ [_ Hnone]]]]].
  exists p'. split; [exact Hin |]. split.
  - exact (f_equal (fun t => fst (fst (fst (fst t)))) Hid).
  - exact (Hnone eq_refl).
Defined.

(** The claim does not hold on every store: here a player without any
    performance row has an average of 50.0 on record, another player's
    runs overflow the SUM, and after the Aggregator has run the
    average is still 50.0, not 0.0. *)
Lemma overflow_elsewhere_keeps_stale_average :
  rows_of_player 1000002 (player_match_performance overflowing_db) = []
  /\ map (fun q => (p_player_id q, p_batting_average q))
         (players (fst (update_player_statistics Sql.decimal_round
                          overflowing_db)))
     = [ (1000001, SqlReal 0); (1000002, SqlReal 50) ]
  /\ snd (update_players Sql.decimal_round overflowing_db)
     = Raise (OperationalError "integer overflow").
Proof. vm_compute. repeat split. Qed.

(** What the guard is for: the unguarded quotients over no row. *)
Example unguarded_division_is_null :
  Sql.div (Sql.cast_float (SqlInt 0)) (Sql.count (@nil PerformanceRow))
  = SqlNull
  /\ Sql.div (Sql.cast_float SqlNull) (Sql.count (@nil PerformanceRow))
     = SqlNull.
Proof. split; reflexivity. Qed.

(* ------------------------------------------------------------------ *)
(** ** Aggregator: team statistics *)

Example team_statistics_after_one_run :
  team_statistics (fst (update_team_statistics two_results_db))
  = [ mkTeamStat 1 (Some 20) 2 0 2 0 0; mkTeamStat 2 (Some 10) 2 1 1 0 0 ].
Proof. reflexivity. Qed.

Example team_statistics_after_two_runs :
  team_statistics
    (fst (update_team_statistics (fst (update_team_statistics two_results_db))))
  = [ mkTeamStat 1 (Some 20) 2 0 2 0 0; mkTeamStat 2 (Some 10) 2 1 1 0 0;
      mkTeamStat 3 (Some 20) 2 0 2 0 0; mkTeamStat 4 (Some 10) 2 1 1 0 0 ].
Proof. reflexivity. Qed.

(** The SELECT returns every team once, whatever the order. *)
Lemma insert_team_by_name_permutation (r : TeamRow) (l : list TeamRow) :
  Permutation (insert_team_by_name r l) (r :: l).
Proof.
  induction l as [| x l IH]; cbn [insert_team_by_name]; [reflexivity |].
  destruct (name_before r x); [reflexivity |].
  rewrite IH. apply perm_swap.
Qed.

Lemma select_teams_permutation (table : list TeamRow) :
  Permutation (select_teams table) table.
Proof.
  unfold select_teams. induction table as [| r table IH]; cbn [fold_right];
    [reflexivity |].
  rewrite insert_team_by_name_permutation. now constructor.
Qed.

Lemma select_teams_in (table : list TeamRow) (team : TeamRow) :
  In team table <-> In team (select_teams table).
Proof.
  split; apply Permutation_in;
    [symmetry |]; apply select_teams_permutation.
Qed.

Lemma below_next_rowid {R : Type} (key : R -> Z) (table : list R) :
  forall r, In r table -> key r < next_rowid key table.
Proof.
  unfold next_rowid. induction table as [| x table IH]; intros r Hr;
    [contradiction |].
  cbn [fold_right]. destruct Hr as [-> | Hr]; [lia |].
  specialize (IH r Hr). lia.
Qed.

(** The INSERT OR REPLACE never finds a row to replace: it appends. *)
Lemma insert_or_replace_team_statistics_appends
    (team_id played won lost : Z) (table : list TeamStatRow) :
  insert_or_replace_team_statistics_rows team_id played won lost table
  = table ++ [mkTeamStat (next_rowid ts_stat_id table) (Some team_id)
                played won lost 0 0].
Proof.
  unfold insert_or_replace_team_statistics_rows. cbv zeta. f_equal.
  apply forallb_filter_id. apply forallb_forall. intros r Hr.
  pose proof (below_next_rowid ts_stat_id table r Hr).
  apply negb_true_iff, Z.eqb_neq. lia.
Qed.

Lemma total_won_by (team_id : Z) (rows : list MatchRow) :
  Sql.total (map (won_by team_id) rows)
  = Z.of_nat (List.length
      (filter (fun m => opt_eqb (m_match_winner_id m) team_id) rows)).
Proof.
  induction rows as [| m rows IH]; [reflexivity |].
  cbn [map filter]. rewrite total_cons, IH. unfold won_by.
  destruct (opt_eqb (m_match_winner_id m) team_id); cbn [List.length]; lia.
Qed.

Lemma length_filter_split {R : Type} (f : R -> bool) (rows : list R) :
  List.length rows
  = (List.length (filter f rows)
     + List.length (filter (fun r => negb (f r)) rows))%nat.
Proof.
  induction rows as [| r rows IH]; [reflexivity |].
  cbn [filter]. destruct (f r); cbn [negb List.length]; lia.
Qed.

(** One turn of the loop appends the record of the team. *)
Lemma update_one_team_appends (team : TeamRow) (d : Database) :
  exists row,
    update_one_team team d
    = (mkDatabase (teams d) (venues d) (matches d) (players d)
         (player_match_performance d) (team_statistics d ++ [row]), Ok tt)
    /\ record_of_team (matches d) team row.
Proof.
  unfold update_one_team, bind, gets, modify, set_team_statistics.
  cbn [fst snd select_team_record].
  rewrite insert_or_replace_team_statistics_appends.
  eexists. split; [reflexivity |].
  set (rows := completed_matches_of (t_team_id team) (matches d)).
  assert (Hwon : int_or_zero (Sql.sum_of_flags (map (won_by (t_team_id team)) rows))
                 = Z.of_nat (List.length (matches_won_by (t_team_id team)
                                            (matches d)))).
  { unfold matches_won_by. fold rows. rewrite <- total_won_by.
    destruct rows; reflexivity. }
  unfold record_of_team.
  cbn [ts_team_id ts_matches_played ts_matches_won ts_matches_lost
       Sql.count int_or_zero].
  rewrite Hwon. repeat split.
  unfold matches_won_by, matches_not_won_by. fold rows.
  rewrite (length_filter_split
             (fun m => opt_eqb (m_match_winner_id m) (t_team_id team)) rows).
  lia.
Qed.

(** The loop appends one record per team, in the order of the teams. *)
Lemma for_each_team_appends (ts : list TeamRow) :
  forall d : Database,
  exists new,
    for_each ts update_one_team d
    = (mkDatabase (teams d) (venues d) (matches d) (players d)
         (player_match_performance d) (team_statistics d ++ new), Ok tt)
    /\ Forall2 (record_of_team (matches d)) ts new.
Proof.
  induction ts as [| team ts IH]; intros d.
  - exists []. rewrite app_nil_r. destruct d. split; [reflexivity | constructor].
  - destruct (update_one_team_appends team d) as [row [Hrow Hrec]].
    cbn [for_each]. unfold bind at 1. rewrite Hrow.
    destruct (IH (mkDatabase (teams d) (venues d) (matches d) (players d)
                    (player_match_performance d) (team_statistics d ++ [row])))
      as [new [Hnew Hall]].
    rewrite Hnew. cbn [teams venues matches players player_match_performance
                       team_statistics] in *.
    exists (row :: new). rewrite <- app_assoc. split; [reflexivity |].
    now constructor.
Qed.

Lemma update_team_statistics_appends (d : Database) :
  exists new,
    update_team_statistics d
    = (mkDatabase (teams d) (venues d) (matches d) (players d)
         (player_match_performance d) (team_statistics d ++ new), Ok tt)
    /\ Forall2 (record_of_team (matches d)) (select_teams (teams d)) new.
Proof.
  destruct (for_each_team_appends (select_teams (teams d)) d)
    as [new [Hrun Hall]].
  exists new. split; [| exact Hall].
  unfold update_team_statistics, try_except, bind, gets. now rewrite Hrun.
Qed.

(** The columns of a match row decide the same as the WHERE clause
    and the CASE of the SELECT. *)
Lemma completed_matches_by_columns (team_id : Z) (ms : list MatchRow) :
  completed_matches_of team_id ms = filter (completed_with team_id) ms.
Proof.
  unfold completed_matches_of. apply filter_ext. intros m.
  unfold completed_with, status_is, opt_eqb.
  destruct (m_team1_id m), (m_team2_id m), (m_match_status m);
    cbn [andb orb]; rewrite ?andb_false_r, ?orb_false_r;
    try reflexivity; apply andb_comm.
Qed.

Lemma filter_filter {R : Type} (f g : R -> bool) (l : list R) :
  filter f (filter g l) = filter (fun x => g x && f x) l.
Proof.
  induction l as [| x l IH]; [reflexivity |].
  cbn [filter]. destruct (g x); cbn [andb filter];
    [destruct (f x); now rewrite IH | exact IH].
Qed.

Lemma record_counts_losses (ms : list MatchRow) (team : TeamRow)
    (row : TeamStatRow) :
  record_of_team ms team row -> counts_losses ms team row.
Proof.
  intros [Hid [Hplayed [Hwon [Hlost Hnot]]]].
  unfold counts_losses, number_of. cbv zeta.
  unfold matches_won_by, matches_not_won_by in *.
  rewrite completed_matches_by_columns in *.
  rewrite filter_filter in Hwon, Hnot.
  repeat split; assumption.
Qed.

Lemma record_of_each_team (ms : list MatchRow) (ts : list TeamRow)
    (new : list TeamStatRow) :
  Forall2 (record_of_team ms) ts new ->
  List.length new = List.length ts
  /\ (forall team, In team ts ->
        exists row, In row new /\ record_of_team ms team row)
  /\ (forall row, In row new ->
        exists team, In team ts /\ record_of_team ms team row).
Proof.
  induction 1 as [| t r ts rs Hrec _ [IHlen [IHt IHr]]].
  - repeat split; intros x [].
  - split; [cbn; now rewrite IHlen |]. split.
    + intros team [<- | Hin].
      * exists r. split; [now left | exact Hrec].
      * destruct (IHt team Hin) as [row [Hrow Hr]].
        exists row. split; [now right | exact Hr].
    + intros row [<- | Hin].
      * exists t. split; [now left | exact Hrec].
      * destruct (IHr row Hin) as [team [Hteam Hr]].
        exists team. split; [now right | exact Hr].
Qed.

(** C10.  A run of the team-statistics recomputation appends one row
    per team on record.  For every team the row written has
    matches_played = the number of rows of [matches] with status
    'Completed' in which the team is team1 or team2, matches_won = the
    number of those whose match_winner_id is the team, and
    matches_lost = matches_played - matches_won, which is the number
    of those completed matches whose recorded winner is not the team:
    another team, or no winner at all (drawn, tied or NULL).  Every
    row the run writes is such a row of a team on record. *)
Theorem matches_lost_is_played_minus_won :
  forall (d : Database) (team : TeamRow),
    In team (teams d) ->
    exists new : list TeamStatRow,
      team_statistics (fst (update_team_statistics d))
      = team_statistics d ++ new
      /\ List.length new = List.length (teams d)
      /\ (exists row, In row new /\ counts_losses (matches d) team row)
      /\ (forall row, In row new ->
            exists t, In t (teams d) /\ counts_losses (matches d) t row).
Proof.
  intros d team Hin.
  destruct (update_team_statistics_appends d) as [new [Hrun Hall]].
  exists new. rewrite Hrun. cbn [fst team_statistics].
  destruct (record_of_each_team _ _ _ Hall) as [Hlen [Hteams Hrows]].
  split; [reflexivity |]. split; [| split].
  - rewrite Hlen. apply Permutation_length, select_teams_permutation.
  - destruct (Hteams team (proj1 (select_teams_in _ _) Hin))
      as [row [Hrow Hrec]].
    exists row. split; [exact Hrow | now apply record_counts_losses].
  - intros row Hrow. destruct (Hrows row Hrow) as [t [Ht Hrec]].
    exists t. split; [now apply select_teams_in | now apply record_counts_losses].
Qed.

(** The theorem at Australia, which appears in two completed matches,
    one won by India and one without a winner on record: both count
    as lost. *)
Lemma matches_lost_is_played_minus_won_witness :
  exists row,
    In row (team_statistics (fst (update_team_statistics two_results_db)))
    /\ ts_team_id row = Some 20
    /\ ts_matches_played row = 2
    /\ ts_matches_won row = 0
    /\ ts_matches_lost row = 2.
Proof.
  destruct (matches_lost_is_played_minus_won two_results_db
              (mkTeam 20 "Australia" (Some "AUS") None)
              (or_intror (or_introl eq_refl)))
    as [new [Hnew [_ [[row [Hrow [Hid [Hp [Hw [_ Hl]]]]]] _]]]].
  exists row. rewrite Hnew.
  split; [exact Hrow |]. split; [exact Hid |]. split; [exact Hp |].
  split; [exact Hw | exact Hl].
Defined.

Lemma record_present (ms : list MatchRow) (ts : list TeamRow)
    (new : list TeamStatRow) (team : TeamRow) :
  Forall2 (record_of_team ms) ts new ->
  In team ts ->
  (1 <= List.length
          (filter (fun r => opt_eqb (ts_team_id r) (t_team_id team)) new))%nat.
Proof.
  induction 1 as [| t r ts rs Hrec _ IH]; intros Hin; [contradiction |].
  cbn [filter]. destruct Hin as [-> | Hin].
  - destruct Hrec as [Hid _]. rewrite Hid. cbn [opt_eqb].
    rewrite Z.eqb_refl. cbn [List.length]. lia.
  - specialize (IH Hin).
    destruct (opt_eqb (ts_team_id r) (t_team_id team)); cbn [List.length]; lia.
Qed.

Lemma statistics_grow (d : Database) (team : TeamRow) :
  In team (teams d) ->
  teams (fst (update_team_statistics d)) = teams d
  /\ (List.length (statistics_of_team (t_team_id team) d) + 1
      <= List.length (statistics_of_team (t_team_id team)
                        (fst (update_team_statistics d))))%nat.
Proof.
  intros Hin.
  destruct (update_team_statistics_appends d) as [new [Hrun Hall]].
  rewrite Hrun. cbn [fst teams]. split; [reflexivity |].
  unfold statistics_of_team. cbn [team_statistics].
  rewrite filter_app, length_app.
  pose proof (record_present (matches d) (select_teams (teams d)) new team
                Hall (proj1 (select_teams_in _ _) Hin)).
  lia.
Qed.

(** What the code does where C6 asks for one row per team: every run
    of the recomputation adds a row for every team of the teams table,
    so after two runs every team has at least two rows in
    team_statistics.  (The INSERT OR REPLACE has no key on team_id to
    replace on.) *)
Theorem team_statistics_rows_accumulate :
  forall (d : Database) (team : TeamRow),
    In team (teams d) ->
    let once := fst (update_team_statistics d) in
    let twice := fst (update_team_statistics once) in
    (List.length (statistics_of_team (t_team_id team) d) + 1
     <= List.length (statistics_of_team (t_team_id team) once))%nat
    /\ (2 <= List.length (statistics_of_team (t_team_id team) twice))%nat.
Proof.
  intros d team Hin once twice.
  destruct (statistics_grow d team Hin) as [Hteams H1].
  assert (Hin' : In team (teams once)) by (unfold once; now rewrite Hteams).
  destruct (statistics_grow once team Hin') as [_ H2].
  fold twice in H2. fold once in H1. split; [exact H1 | lia].
Qed.

(** The theorem at India in a store with two teams. *)
Lemma team_statistics_rows_accumulate_witness :
  (2 <= List.length
          (statistics_of_team 10
             (fst (update_team_statistics
                     (fst (update_team_statistics two_results_db))))))%nat.
Proof.
  exact (proj2 (team_statistics_rows_accumulate two_results_db
                  (mkTeam 10 "India" (Some "IND") None)
                  (or_introl eq_refl))).
Defined.

Example india_has_two_rows_after_two_runs :
  statistics_of_team 10
    (fst (update_team_statistics (fst (update_team_statistics two_results_db))))
  = [ mkTeamStat 2 (Some 10) 2 1 1 0 0; mkTeamStat 4 (Some 10) 2 1 1 0 0 ].
Proof. reflexivity. Qed.

(* ------------------------------------------------------------------ *)
(** ** Scorecard Ingestor *)

Example jadeja_id :
  generate_player_id stats0 "p7" "R Jadeja" (Some 2) = Some 424157868.
Proof. vm_compute. reflexivity. Qed.

(** The all-rounder's innings: the call returns 0, the player row is
    there (as a batsman), and no performance row is. *)
Example all_rounder_scorecard_run :
  store_scorecard_data_fixed 501 all_rounder_scorecard empty_db stats0
  = (mkDatabase [] [] []
       [ mkPlayer 424157868 "R Jadeja" (Some 2) (Some "Batsman")
           (SqlInt 0) (SqlInt 0) (SqlInt 0) (SqlReal 0) (SqlReal 0) (Some "p7") ]
       [] [],
     stats0, 0).
Proof. vm_compute. reflexivity. Qed.

(** Without batting entries the bowling block is reached and writes
    its row. *)
Example bowling_only_scorecard_run :
  store_scorecard_data_fixed 501 bowling_only_scorecard empty_db stats0
  = (mkDatabase [] [] []
       [ mkPlayer 424157868 "R Jadeja" (Some 2) (Some "Bowler")
           (SqlInt 0) (SqlInt 0) (SqlInt 0) (SqlReal 0) (SqlReal 0) (Some "p7") ]
       [ mkPerformance 1 424157868 501 (Some 2) 1 None 0 0 0 0 0
           (4 # 1) 2 24 (6 # 1) 0 None (Some "p7") ]
       [],
     mkStats 0 0 0 0 0 1, 1).
Proof. vm_compute. reflexivity. Qed.

(** *** What a step does to the performance rows *)

Section KeepsRows.

Variable g : PerformanceRow -> bool.

Lemma keeps_ret {A : Type} (a : A) : keeps_rows g (ret a).
Proof. intros f. reflexivity. Qed.

Lemma keeps_raise {A : Type} (e : Exn) : keeps_rows g (@raise Frame A e).
Proof. intros f. reflexivity. Qed.

Lemma keeps_bind {A B : Type} (m : M Frame A) (k : A -> M Frame B) :
  keeps_rows g m -> (forall a, keeps_rows g (k a)) -> keeps_rows g (bind m k).
Proof.
  intros Hm Hk f. unfold bind. specialize (Hm f).
  destruct (m f) as [f' [a | e]]; cbn [fst] in *.
  - rewrite (Hk a f'). exact Hm.
  - exact Hm.
Qed.

Lemma keeps_gets {A : Type} (proj : Frame -> A) : keeps_rows g (gets proj).
Proof. intros f. reflexivity. Qed.

Lemma keeps_counters :
  keeps_rows g count_player_added
  /\ keeps_rows g count_performance_stored
  /\ keeps_rows g count_player_stored.
Proof. repeat split; intros f; reflexivity. Qed.

Lemma keeps_resolve_player_id (key name : string) (team_id : option Z) :
  keeps_rows g (resolve_player_id key name team_id).
Proof.
  intros f. unfold resolve_player_id.
  destruct (generate_player_id (self_stats f) key name team_id); reflexivity.
Qed.

Lemma keeps_execute (statement : M Database unit) :
  (forall d, filter g (player_match_performance (fst (statement d)))
             = filter g (player_match_performance d)) ->
  keeps_rows g (execute statement).
Proof.
  intros H f. unfold execute. specialize (H (cursor f)).
  destruct (statement (cursor f)) as [d r]. exact H.
Qed.

Lemma keeps_for_each {A : Type} (xs : list A) (body : A -> M Frame unit) :
  (forall x, keeps_rows g (body x)) -> keeps_rows g (for_each xs body).
Proof.
  intros Hbody. induction xs as [| x xs IH]; cbn [for_each].
  - apply keeps_ret.
  - apply keeps_bind; [apply Hbody | intros _; exact IH].
Qed.

(** A statement that first binds its numbers and then rewrites a
    table keeps the rows when the rewriting does. *)
Lemma bound_statement_keeps (params : list (option Z))
    (change : Database -> Database) :
  (forall d, filter g (player_match_performance (change d))
             = filter g (player_match_performance d)) ->
  forall d,
    filter g (player_match_performance
                (fst (bind (bind_ints params) (fun _ => modify change) d)))
    = filter g (player_match_performance d).
Proof.
  intros H d. unfold bind, bind_ints.
  destruct (forallb sqlite_opt_int params); cbn; [apply H | reflexivity].
Qed.

Lemma keeps_insert_player (id : Z) (name : string) (team_id : option Z)
    (role key : string) :
  keeps_rows g (execute (insert_or_ignore_player id name team_id role key)).
Proof.
  apply keeps_execute. unfold insert_or_ignore_player.
  apply bound_statement_keeps. intros d. reflexivity.
Qed.

(** The batting step never reaches its INSERT: reading [team_id]
    raises. *)
Lemma keeps_store_batsman (match_id innings_num : Z) (bat_team_id : option Z)
    (item : string * option BatsmanData) :
  keeps_rows g (store_batsman match_id innings_num bat_team_id item).
Proof.
  destruct item as [player_key [player_data |]]; cbn [store_batsman];
    [| apply keeps_ret].
  apply keeps_bind; [apply keeps_resolve_player_id | intros id].
  apply keeps_bind; [apply keeps_insert_player | intros _].
  apply keeps_bind; [apply keeps_gets | intros added].
  intros f. reflexivity.
Qed.

(** The bowling step of innings [j] keeps the rows of the other
    innings. *)
Lemma keeps_store_bowler (match_id j : Z) (bowl_team_id : option Z)
    (item : string * option BowlerData) :
  (forall r, pmp_innings_number r = j -> g r = false) ->
  keeps_rows g (store_bowler match_id j bowl_team_id item).
Proof.
  intros Hg.
  destruct item as [bowler_key [bowler_data |]]; cbn [store_bowler];
    [| apply keeps_ret].
  apply keeps_bind; [apply keeps_resolve_player_id | intros id].
  apply keeps_bind; [apply keeps_insert_player | intros _].
  apply keeps_bind; [| intros _; apply keeps_bind; [| intros _]].
  - apply keeps_execute. unfold insert_or_ignore_performance.
    apply bound_statement_keeps. intros d.
    cbn [set_performance player_match_performance].
    unfold insert_or_ignore_performance_rows.
    destruct (existsb (same_triple match_id id j) (player_match_performance d));
      [reflexivity |].
    rewrite filter_app. cbn [filter].
    rewrite Hg by reflexivity. apply app_nil_r.
  - apply keeps_execute. unfold update_bowling.
    apply bound_statement_keeps. intros d.
    cbn [set_performance player_match_performance].
    unfold update_bowling_rows.
    induction (player_match_performance d) as [| r rows IH]; [reflexivity |].
    cbn [map filter]. rewrite IH.
    destruct (same_triple match_id id j r) eqn:E; [| reflexivity].
    assert (Hj : pmp_innings_number r = j).
    { unfold same_triple in E. apply andb_prop in E as [_ E].
      now apply Z.eqb_eq in E. }
    rewrite (Hg r Hj). rewrite Hg by exact Hj. reflexivity.
  - apply keeps_bind; [apply keeps_counters | intros _; apply keeps_counters].
Qed.

(** A whole innings [j] keeps the rows of the other innings. *)
Lemma keeps_store_innings (match_id j : Z) (innings_data : InningsData) :
  (forall r, pmp_innings_number r = j -> g r = false) ->
  keeps_rows g (store_innings match_id j innings_data).
Proof.
  intros Hg. unfold store_innings.
  destruct (batTeamDetails innings_data) as [bat |]; [| apply keeps_ret].
  apply keeps_bind.
  - destruct (batsmenData bat); [| apply keeps_ret].
    apply keeps_for_each. intros x. apply keeps_store_batsman.
  - intros _.
    destruct (bowlTeamDetails innings_data) as [bowl |]; [| apply keeps_ret].
    destruct (bowlersData bowl); [| apply keeps_ret].
    apply keeps_for_each. intros x. now apply keeps_store_bowler.
Qed.

End KeepsRows.

(** *** Where the function stops *)

Lemma load_team_id_raises {S : Type} (match_id innings_num : Z)
    (bat_team_id : option Z) (player_key player_name : string)
    (numeric_player_id added : Z) :
  @load_name S
     (batting_locals match_id innings_num bat_team_id player_key player_name
        numeric_player_id added) "team_id"
  = raise (NameError "team_id").
Proof. reflexivity. Qed.

Lemma bind_raises {A B : Type} (m : M Frame A) (k : A -> M Frame B) :
  always_raises m -> always_raises (bind m k).
Proof.
  intros Hm f. destruct (Hm f) as [f' [e He]].
  exists f', e. unfold bind. now rewrite He.
Qed.

Lemma bind_raises_later {A B : Type} (m : M Frame A) (k : A -> M Frame B) :
  (forall a, always_raises (k a)) -> always_raises (bind m k).
Proof.
  intros Hk f. unfold bind.
  destruct (m f) as [f' [a | e]]; [apply Hk | now exists f', e].
Qed.

(** A batsman entry that is a dict makes its turn of the loop raise. *)
Lemma store_batsman_raises (match_id innings_num : Z)
    (bat_team_id : option Z) (player_key : string)
    (player_data : BatsmanData) :
  always_raises
    (store_batsman match_id innings_num bat_team_id
       (player_key, Some player_data)).
Proof.
  cbn [store_batsman].
  apply bind_raises_later; intros id.
  apply bind_raises_later; intros _.
  apply bind_raises_later; intros added.
  apply bind_raises. rewrite load_team_id_raises.
  intros f. now exists f, (NameError "team_id").
Qed.

Lemma for_each_raises {A : Type} (xs : list A) (body : A -> M Frame unit)
    (x : A) :
  In x xs -> always_raises (body x) -> always_raises (for_each xs body).
Proof.
  intros Hin Hx. induction xs as [| y xs IH]; [contradiction |].
  cbn [for_each]. destruct Hin as [-> | Hin].
  - now apply bind_raises.
  - apply bind_raises_later. intros _. now apply IH.
Qed.

Lemma store_innings_raises (match_id innings_num : Z)
    (innings_data : InningsData) :
  has_batsman innings_data ->
  always_raises (store_innings match_id innings_num innings_data).
Proof.
  intros [bat [batsmen [key [data [Hbat [Hmen Hin]]]]]].
  unfold store_innings. rewrite Hbat, Hmen.
  apply bind_raises.
  eapply for_each_raises; [exact Hin |]. apply store_batsman_raises.
Qed.

(** In an innings with a batsman entry the bowling block is never
    reached, so all performance rows are kept. *)
Lemma store_innings_with_batsman_keeps (g : PerformanceRow -> bool)
    (match_id innings_num : Z) (innings_data : InningsData) :
  has_batsman innings_data ->
  keeps_rows g (store_innings match_id innings_num innings_data).
Proof.
  intros [bat [batsmen [key [data [Hbat [Hmen Hin]]]]]].
  unfold store_innings. rewrite Hbat, Hmen.
  set (loop := for_each batsmen
                 (store_batsman match_id innings_num (batTeamId bat))).
  assert (Hkeeps : keeps_rows g loop).
  { apply keeps_for_each. intros x. apply keeps_store_batsman. }
  assert (Hraises : always_raises loop).
  { eapply for_each_raises; [exact Hin |]. apply store_batsman_raises. }
  intros f. unfold bind. specialize (Hkeeps f).
  destruct (Hraises f) as [f' [e He]]. rewrite He in *. exact Hkeeps.
Qed.

(** The loop over the innings, when innings number [start + length
    pre] has a batsman entry: it raises, and the rows of that innings
    are as before. *)
Lemma for_each_innings_stops (g : PerformanceRow -> bool) (match_id : Z)
    (pre : list InningsData) (inn : InningsData) (post : list InningsData) :
  has_batsman inn ->
  forall start : Z,
    (forall r, g r = true ->
               pmp_innings_number r = start + Z.of_nat (List.length pre)) ->
    keeps_rows g (for_each_innings match_id start (pre ++ inn :: post))
    /\ always_raises (for_each_innings match_id start (pre ++ inn :: post)).
Proof.
  intros Hbat. induction pre as [| x pre IH]; intros start Hg;
    cbn [app for_each_innings].
  - split.
    + intros f. unfold bind.
      pose proof (store_innings_with_batsman_keeps g match_id start inn Hbat f)
        as Hk.
      destruct (store_innings_raises match_id start inn Hbat f) as [f' [e He]].
      rewrite He in *. exact Hk.
    + apply bind_raises. now apply store_innings_raises.
  - destruct (IH (start + 1)) as [IHk IHr].
    { intros r Hr. rewrite (Hg r Hr). cbn [List.length]. lia. }
    split.
    + apply keeps_bind; [| intros _; exact IHk].
      apply keeps_store_innings. intros r Hr.
      destruct (g r) eqn:E; [| reflexivity].
      apply Hg in E. cbn [List.length] in E. lia.
    + apply bind_raises_later. intros _. exact IHr.
Qed.

Lemma same_triple_innings (match_id player_id innings_number : Z)
    (r : PerformanceRow) :
  same_triple match_id player_id innings_number r = true ->
  pmp_innings_number r = innings_number.
Proof.
  unfold same_triple. intros H. apply andb_prop in H as [_ H].
  now apply Z.eqb_eq in H.
Qed.

(** What the code does where C1 asks for one merged row.  Take any
    store and any scorecard in which some innings has a batsman entry
    (as it has when a player bats and bowls in it).  The call returns
    0, and for every player the performance rows of that match and
    that innings are exactly the ones that were there before: the
    batting INSERT is never executed (building its parameters raises
    NameError on [team_id]) and the bowling block of that innings is
    never reached.  On a match without performance rows the triple of
    an all-rounder is left with no row. *)
Theorem batting_entry_stops_scorecard :
  forall (match_id : Z) (scorecard_data : ScorecardData)
         (pre : list InningsData) (inn : InningsData) (post : list InningsData)
         (d : Database) (self : Stats) (player_id : Z),
    scoreCard scorecard_data = Some (pre ++ inn :: post) ->
    has_batsman inn ->
    let result := store_scorecard_data_fixed match_id scorecard_data d self in
    let innings_num := 1 + Z.of_nat (List.length pre) in
    snd result = 0
    /\ performances_of match_id player_id innings_num (fst (fst result))
       = performances_of match_id player_id innings_num d.
Proof.
  intros match_id sc pre inn post d self player_id Hsc Hbat result innings_num.
  unfold result, store_scorecard_data_fixed. rewrite Hsc.
  destruct (for_each_innings_stops
              (same_triple match_id player_id innings_num)
              match_id pre inn post Hbat 1) as [Hkeeps Hraises].
  { intros r Hr. now apply same_triple_innings in Hr. }
  specialize (Hkeeps (mkFrame d self 0)).
  destruct (Hraises (mkFrame d self 0)) as [f' [e He]].
  rewrite He in *. cbn [fst snd cursor] in *.
  split; [reflexivity | exact Hkeeps].
Qed.

(** The theorem at the all-rounder's innings on an empty store: no row
    for (match 501, player 424157868, innings 1). *)
Lemma batting_entry_stops_scorecard_witness :
  snd (store_scorecard_data_fixed 501 all_rounder_scorecard empty_db stats0) = 0
  /\ performances_of 501 424157868 1
       (fst (fst (store_scorecard_data_fixed 501 all_rounder_scorecard
                    empty_db stats0)))
     = [].
Proof.
  assert (Hbat : has_batsman
            (mkInningsData
               (Some (mkBatTeamDetails (Some 2) (Some [("p7", Some jadeja_bat)])))
               (Some (mkBowlTeamDetails (Some 2)
                        (Some [("p7", Some jadeja_bowl)]))))).
  { eexists _, _, "p7", jadeja_bat.
    split; [reflexivity | split; [reflexivity | now left]]. }
  exact (batting_entry_stops_scorecard 501 all_rounder_scorecard [] _ []
           empty_db stats0 424157868 eq_refl Hbat).
Defined.

(* ================================================================== *)
(** * Further properties of the modelled code *)
(* ================================================================== *)

(* ------------------------------------------------------------------ *)
(** ** [make_api_request]: bookkeeping and pacing *)

Lemma accounts_for_one (endpoint : string) (self s : Stats) (net : Net) :
  api_calls s = api_calls self + 1 ->
  successful_calls self <= successful_calls s <= successful_calls self + 1 ->
  failed_calls self <= failed_calls s ->
  matches_stored s = matches_stored self ->
  players_stored s = players_stored self ->
  performances_stored s = performances_stored self ->
  accounts_for endpoint 1 self s net (sent endpoint (sleep 1 net)).
Proof.
  intros Ha Hs Hf Hm Hp Hq. unfold accounts_for.
  cbn [sent sleep sent_log seconds_slept repeat].
  repeat split; try lia; assumption.
Qed.

Lemma accounts_for_retry (endpoint : string) (k : nat)
    (self self2 s : Stats) (net net2 : Net) :
  accounts_for endpoint k (count_failure (count_api_call self)) self2
    (sleep 60 (sent endpoint (sleep 1 net))) net2 ->
  api_calls s = api_calls self2 ->
  successful_calls s = successful_calls self2 ->
  failed_calls self2 <= failed_calls s ->
  matches_stored s = matches_stored self2 ->
  players_stored s = players_stored self2 ->
  performances_stored s = performances_stored self2 ->
  accounts_for endpoint (S k) self s net net2.
Proof.
  unfold accounts_for.
  cbn [sent_log seconds_slept sleep sent count_failure count_api_call
       api_calls successful_calls failed_calls matches_stored
       players_stored performances_stored].
  intros [Hlog [Ha [Hs [Hf [Hm [Hp [Hq [Hup Hlow]]]]]]]] Has Hss Hfs Hms Hps Hqs.
  rewrite Hlog, <- app_assoc. cbn [app repeat].
  repeat split; try lia.
Qed.

Lemma make_api_request_accounts {Payload : Type} (depth : nat) :
  forall (server : nat -> Reply Payload) (self : Stats) (net : Net)
         (endpoint : string),
  exists k : nat,
    accounts_for endpoint k self
      (fst (fst (make_api_request depth server self net endpoint)))
      net
      (snd (fst (make_api_request depth server self net endpoint)))
    /\ (forall data,
          snd (make_api_request depth server self net endpoint) = Return data ->
          (1 <= k)%nat).
Proof.
  induction depth as [| depth IH]; intros server self net endpoint.
  - exists 0%nat. cbn. unfold accounts_for. rewrite app_nil_r.
    split; [repeat split; lia | discriminate].
  - cbn [make_api_request].
    change (requests_sent (sleep 1 net)) with (requests_sent net).
    assert (Hone : forall (s : Stats) (data : option Payload),
              api_calls s = api_calls self + 1 ->
              successful_calls self <= successful_calls s
                <= successful_calls self + 1 ->
              failed_calls self <= failed_calls s ->
              matches_stored s = matches_stored self ->
              players_stored s = players_stored self ->
              performances_stored s = performances_stored self ->
              exists k : nat,
                accounts_for endpoint k self
                  (fst (fst (s, sent endpoint (sleep 1 net), Return data)))
                  net
                  (snd (fst (s, sent endpoint (sleep 1 net), Return data)))
                /\ (forall d,
                      snd (s, sent endpoint (sleep 1 net), Return data)
                      = Return d -> (1 <= k)%nat)).
    { intros s data Ha Hs Hf Hm Hp Hq. exists 1%nat. cbn [fst snd].
      split; [now apply accounts_for_one | intros _ _; lia]. }
    destruct (server (requests_sent net)) as [status json | |];
      [| apply Hone; cbn; lia | apply Hone; cbn; lia].
    destruct (status =? 200).
    { destruct json as [data |]; apply Hone; cbn; lia. }
    destruct (status =? 429); [| apply Hone; cbn; lia].
    destruct (IH server (count_failure (count_api_call self))
                (sleep 60 (sent endpoint (sleep 1 net))) endpoint)
      as [k [Hacc _]].
    exists (S k). split; [| intros _ _; lia].
    destruct (make_api_request depth server
                (count_failure (count_api_call self))
                (sleep 60 (sent endpoint (sleep 1 net))) endpoint)
      as [[self2 net2] r]; cbn [fst snd] in *.
    eapply accounts_for_retry; [exact Hacc | | | | | |]; cbn; lia.
Qed.

(** X1.  A call of [make_api_request] that returns (the recursion
    limit is not reached) has sent at least one GET request, all of
    them to its own endpoint, counts in [api_calls] exactly the
    requests it sent, adds at most one to [successful_calls], never
    lowers [failed_calls], and leaves the ingestion counters alone. *)
Theorem api_calls_count_the_requests_sent :
  forall (Payload : Type) (depth : nat) (server : nat -> Reply Payload)
         (self : Stats) (net : Net) (endpoint : string)
         (data : option Payload),
    let result := make_api_request depth server self net endpoint in
    let self' := fst (fst result) in
    let net' := snd (fst result) in
    let k := attempts depth server self net endpoint in
    snd result = Return data ->
    (1 <= k)%nat
    /\ sent_log net' = sent_log net ++ repeat endpoint k
    /\ api_calls self' = api_calls self + Z.of_nat k
    /\ successful_calls self <= successful_calls self' <= successful_calls self + 1
    /\ failed_calls self <= failed_calls self'
    /\ matches_stored self' = matches_stored self
    /\ players_stored self' = players_stored self
    /\ performances_stored self' = performances_stored self.
Proof.
  intros Payload depth server self net endpoint data result self' net' k Hret.
  destruct (make_api_request_accounts depth server self net endpoint)
    as [k' [[Hlog [Ha [Hs [Hf [Hm [Hp [Hq _]]]]]]] Hone]].
  assert (Hk : k = k').
  { unfold k, attempts, requests_sent. rewrite Hlog.
    rewrite length_app, repeat_length. lia. }
  clearbody k. subst k. unfold self', net', result.
  specialize (Hone data Hret).
  repeat split; try assumption; try lia.
Qed.

(** The theorem at a call that meets three rate limits before its
    document. *)
Lemma api_calls_count_the_requests_sent_witness :
  api_calls
    (fst (fst (make_api_request 100 (busy_then_ok 3 tt) stats0 net0
                 "/matches/v1/live")))
  = 0 + Z.of_nat (attempts 100 (busy_then_ok 3 tt) stats0 net0
                    "/matches/v1/live").
Proof.
  exact (proj1 (proj2 (proj2
           (api_calls_count_the_requests_sent unit 100 (busy_then_ok 3 tt)
              stats0 net0 "/matches/v1/live" (Some tt) eq_refl)))).
Defined.

(** X2.  Pacing: one call sleeps one second before every request and
    sixty seconds after every rate-limit reply, so a call that sends
    [k >= 1] requests sleeps at least [61 k - 60] and at most [61 k]
    seconds; a retry is never sent less than 61 seconds after the
    request it repeats. *)
Theorem requests_are_paced :
  forall (Payload : Type) (depth : nat) (server : nat -> Reply Payload)
         (self : Stats) (net : Net) (endpoint : string),
    let k := Z.of_nat (attempts depth server self net endpoint) in
    0 <= time_slept depth server self net endpoint <= 61 * k
    /\ (1 <= k -> 61 * k - 60 <= time_slept depth server self net endpoint).
Proof.
  intros Payload depth server self net endpoint k.
  destruct (make_api_request_accounts depth server self net endpoint)
    as [k' [[Hlog [_ [_ [_ [_ [_ [_ [Hup Hlow]]]]]]]] _]].
  assert (Hk : k = Z.of_nat k').
  { unfold k, attempts, requests_sent. rewrite Hlog.
    rewrite length_app, repeat_length. lia. }
  clearbody k. subst k. unfold time_slept. split; [lia |].
  intros H1. specialize (Hlow ltac:(lia)). lia.
Qed.

(** X3.  A failure other than a rate limit is not retried: when the
    first reply is neither a 429 nor a 200 with a document (another
    status, a 200 whose body does not decode, a network error or any
    other exception), the call returns None after that single attempt,
    one second of sleep, and one more failed call on the counter. *)
Theorem other_failures_are_not_retried :
  forall (Payload : Type) (depth : nat) (server : nat -> Reply Payload)
         (self : Stats) (net : Net) (endpoint : string),
    ~ rate_limited (server (requests_sent net)) ->
    outcome_of (server (requests_sent net)) = None ->
    let result := make_api_request (S depth) server self net endpoint in
    snd result = Return None
    /\ attempts (S depth) server self net endpoint = 1%nat
    /\ time_slept (S depth) server self net endpoint = 1
    /\ failed_calls (fst (fst result)) = failed_calls self + 1
    /\ api_calls (fst (fst result)) = api_calls self + 1.
Proof.
  intros Payload depth server self net endpoint Hnot Hnone.
  unfold attempts, time_slept. cbn [make_api_request].
  change (requests_sent (sleep 1 net)) with (requests_sent net).
  assert (Hlen : (requests_sent (sent endpoint (sleep 1 net))
                  - requests_sent net = 1)%nat).
  { unfold requests_sent. cbn. rewrite length_app. cbn. lia. }
  destruct (server (requests_sent net)) as [status json | |];
    cbn [outcome_of] in Hnone; cbn zeta.
  - destruct (status =? 200) eqn:H200.
    + destruct json as [data |]; [discriminate |].
      cbn [fst snd]. repeat split; try exact Hlen; cbn; lia.
    + destruct (status =? 429) eqn:H429.
      * exfalso. apply Hnot. apply Z.eqb_eq in H429. subst. now exists json.
      * cbn [fst snd]. repeat split; try exact Hlen; cbn; lia.
  - cbn [fst snd]. repeat split; try exact Hlen; cbn; lia.
  - cbn [fst snd]. repeat split; try exact Hlen; cbn; lia.
Qed.

(** The theorem at a server that answers 503. *)
Lemma other_failures_are_not_retried_witness :
  snd (make_api_request 100 (always_replies (Http 503 (Some tt))) stats0 net0
         "/matches/v1/recent") = Return None
  /\ attempts 100 (always_replies (Http 503 (Some tt))) stats0 net0
       "/matches/v1/recent" = 1%nat.
Proof.
  assert (Hnot : ~ rate_limited
                     (always_replies (Http 503 (Some tt)) (requests_sent net0))).
  { intros [json Hjson]. discriminate Hjson. }
  pose proof (other_failures_are_not_retried unit 99
                (always_replies (Http 503 (Some tt))) stats0 net0
                "/matches/v1/recent" Hnot eq_refl) as [Hr [Ha _]].
  split; [exact Hr | exact Ha].
Defined.

(* ------------------------------------------------------------------ *)
(** ** [store_match_data]: what it keeps *)

Lemma insert_or_ignore_team_rows_app (id : Z) (name : string)
    (sname : option string) (table : list TeamRow) :
  insert_or_ignore_team_rows id name sname table
  = table ++ (if existsb (team_conflict id name) table then []
              else [mkTeam id name sname None]).
Proof.
  unfold insert_or_ignore_team_rows.
  destruct (existsb (team_conflict id name) table);
    [now rewrite app_nil_r | reflexivity].
Qed.

Lemma insert_or_ignore_venue_rows_app (id : Z) (name : string)
    (city : option string) (table : list VenueRow) :
  insert_or_ignore_venue_rows id name city table
  = table ++ (if existsb (fun r => v_venue_id r =? id) table then []
              else [mkVenue id name city None None]).
Proof.
  unfold insert_or_ignore_venue_rows.
  destruct (existsb (fun r => v_venue_id r =? id) table);
    [now rewrite app_nil_r | reflexivity].
Qed.

Ltac run_store_match_data mi :=
  unfold try_except, bind, when, insert_or_ignore_team, insert_or_ignore_venue,
    insert_or_replace_match, bind, bind_ints, modify, ret, raise;
  destruct (truthy (teamId (get_default (team1 mi) no_team_info)));
  destruct (truthy (teamId (get_default (team2 mi) no_team_info)));
  destruct (truthy (venue_info_id (get_default (venueInfo mi) no_venue_info)));
  repeat match goal with
    | |- context [forallb sqlite_opt_int ?l] =>
        destruct (forallb sqlite_opt_int l); cbn [fst snd]
    end;
  cbn [fst snd set_teams set_venues set_matches teams venues matches players
       player_match_performance team_statistics].

(** X4.  Ingesting a match entry never removes or changes a team or a
    venue that is already stored: the teams table afterwards is the
    old table followed by at most two new rows (without country), the
    venues table the old one followed by at most one new row, and the
    players, performance and team-statistics tables are untouched. *)
Theorem store_match_data_only_appends_teams_and_venues :
  forall (local_date : string -> option string) (e : MatchData)
         (series_id : option Z) (is_live : bool) (d : Database),
    let d' := after_store_match_data local_date e series_id is_live d in
    (exists new_teams,
        teams d' = teams d ++ new_teams
        /\ (List.length new_teams <= 2)%nat
           /\ Forall (fun r => t_country r = None) new_teams)
    /\ (exists new_venues,
          venues d' = venues d ++ new_venues
          /\ (List.length new_venues <= 1)%nat
             /\ Forall (fun r => v_capacity r = None) new_venues)
    /\ players d' = players d
    /\ player_match_performance d' = player_match_performance d
    /\ team_statistics d' = team_statistics d.
Proof.
  intros local_date e series_id is_live d d'.
  unfold d', after_store_match_data, store_match_data.
  set (mi := get_default (matchInfo e) no_match_info).
  assert (Hsame :
    (exists new_teams,
        teams d = teams d ++ new_teams
        /\ (List.length new_teams <= 2)%nat
           /\ Forall (fun r => t_country r = None) new_teams)
    /\ (exists new_venues,
          venues d = venues d ++ new_venues
          /\ (List.length new_venues <= 1)%nat
             /\ Forall (fun r => v_capacity r = None) new_venues)
    /\ players d = players d
    /\ player_match_performance d = player_match_performance d
    /\ team_statistics d = team_statistics d).
  { split; [| split]; [exists [] | exists [] |];
      try (split; [symmetry; apply app_nil_r | split; [cbn; lia | constructor]]).
    repeat split. }
  destruct (matchId mi) as [id |]; [| exact Hsame].
  destruct (id =? 0); [exact Hsame |].
  clear Hsame.
  run_store_match_data mi;
    (split; [| split; [| repeat split]]);
    eexists;
    (split;
     [ rewrite ?insert_or_ignore_team_rows_app,
         ?insert_or_ignore_venue_rows_app, <- ?app_assoc;
       first [ reflexivity | symmetry; apply app_nil_r ]
     | split;
       [ repeat match goal with
           | |- context [if ?c then _ else _] => destruct c
           end; cbn; lia
       | repeat match goal with
           | |- context [if ?c then _ else _] => destruct c
           end; cbn; repeat constructor ] ]).
Qed.

Lemma filter_other_id_after_replace (id' : Z) (row : MatchRow)
    (table : list MatchRow) :
  m_match_id row <> id' ->
  filter (fun r => m_match_id r =? id') (insert_or_replace_match_rows row table)
  = filter (fun r => m_match_id r =? id') table.
Proof.
  intros Hne. unfold insert_or_replace_match_rows.
  rewrite filter_app. cbn [filter].
  apply Z.eqb_neq in Hne. rewrite Hne, app_nil_r.
  induction table as [| r table IH]; [reflexivity |].
  cbn [filter].
  destruct (m_match_id r =? m_match_id row) eqn:E; cbn [negb filter].
  - apply Z.eqb_eq in E. rewrite E, Hne. exact IH.
  - destruct (m_match_id r =? id'); [now rewrite IH | exact IH].
Qed.

Lemma accepted_has_id (e : MatchData) (series_id : option Z) :
  accepted e series_id = true -> exists id, match_id_of e = Some id.
Proof.
  unfold accepted, match_id_of. intros H. apply andb_prop in H as [H _].
  destruct (matchId (get_default (matchInfo e) no_match_info)) as [id |];
    [now exists id | discriminate].
Qed.

Lemma other_matches_kept (local_date : string -> option string)
    (e : MatchData) (series_id : option Z) (is_live : bool) (d : Database)
    (other : Z) :
  match_id_of e <> Some other ->
  matches_with_id other
    (after_store_match_data local_date e series_id is_live d)
  = matches_with_id other d.
Proof.
  intros Hother. unfold matches_with_id.
  destruct (accepted e series_id) eqn:Hacc.
  - destruct (accepted_has_id e series_id Hacc) as [id Hid].
    rewrite (matches_after_accepted local_date e series_id is_live id d Hacc Hid).
    apply filter_other_id_after_replace. cbn [match_row_of m_match_id].
    congruence.
  - now rewrite matches_unchanged_when_not_accepted.
Qed.

(** X5.  Ingesting an entry touches no match but its own: for every
    match id other than the one the entry carries, the rows of
    [matches] with that id are the same before and after. *)
Theorem store_match_data_keeps_other_matches :
  forall (local_date : string -> option string) (e : MatchData)
         (series_id : option Z) (is_live : bool) (d : Database) (other : Z),
    match_id_of e <> Some other ->
    matches_with_id other
      (after_store_match_data local_date e series_id is_live d)
    = matches_with_id other d.
Proof.
  intros local_date e series_id is_live d other Hother.
  now apply other_matches_kept.
Qed.

(** The theorem at match 501 ingested into a store that holds match 1. *)
Lemma store_match_data_keeps_other_matches_witness :
  matches_with_id 1
    (after_store_match_data no_date match_501_over (Some 7) false
       two_results_db)
  = matches_with_id 1 two_results_db.
Proof.
  apply (store_match_data_keeps_other_matches no_date match_501_over (Some 7)
           false two_results_db 1).
  discriminate.
Defined.

(** *** Invariants through the monad *)

Section Preserves.

Context {S : Type} (inv : S -> Prop).

Lemma preserves_ret {A : Type} (a : A) : preserves inv (ret a).
Proof. intros s Hs. exact Hs. Qed.

Lemma preserves_raise {A : Type} (e : Exn) : preserves inv (@raise S A e).
Proof. intros s Hs. exact Hs. Qed.

Lemma preserves_gets {A : Type} (proj : S -> A) : preserves inv (gets proj).
Proof. intros s Hs. exact Hs. Qed.

Lemma preserves_modify (change : S -> S) :
  (forall s, inv s -> inv (change s)) -> preserves inv (modify change).
Proof. intros H s Hs. now apply H. Qed.

Lemma preserves_bind {A B : Type} (m : M S A) (k : A -> M S B) :
  preserves inv m -> (forall a, preserves inv (k a)) ->
  preserves inv (bind m k).
Proof.
  intros Hm Hk s Hs. unfold bind. specialize (Hm s Hs).
  destruct (m s) as [s' [a | e]]; cbn [fst] in *; [now apply Hk | exact Hm].
Qed.

Lemma preserves_try_except {A : Type} (body : M S A) (handler : Exn -> M S A) :
  preserves inv body -> (forall e, preserves inv (handler e)) ->
  preserves inv (try_except body handler).
Proof.
  intros Hb Hh s Hs. unfold try_except. specialize (Hb s Hs).
  destruct (body s) as [s' [a | e]]; cbn [fst] in *; [exact Hb | now apply Hh].
Qed.

Lemma preserves_when (c : bool) (m : M S unit) :
  preserves inv m -> preserves inv (when c m).
Proof. intros Hm. destruct c; [exact Hm | apply preserves_ret]. Qed.

Lemma preserves_for_each {A : Type} (xs : list A) (body : A -> M S unit) :
  (forall x, preserves inv (body x)) -> preserves inv (for_each xs body).
Proof.
  intros Hbody. induction xs as [| x xs IH]; cbn [for_each].
  - apply preserves_ret.
  - apply preserves_bind; [apply Hbody | intros _; exact IH].
Qed.

Lemma preserves_bind_ints (params : list (option Z)) :
  preserves inv (bind_ints params).
Proof.
  intros s Hs. unfold bind_ints.
  destruct (forallb sqlite_opt_int params); exact Hs.
Qed.

(** A statement: bind the numbers, then rewrite the store. *)
Lemma preserves_statement (params : list (option Z)) (change : S -> S) :
  (forall s, inv s -> inv (change s)) ->
  preserves inv (bind (bind_ints params) (fun _ => modify change)).
Proof.
  intros H. apply preserves_bind; [apply preserves_bind_ints |].
  intros _. now apply preserves_modify.
Qed.

End Preserves.

(** *** Keys *)

Lemma NoDup_map_snoc {R K : Type} (key : R -> K) (table : list R) (row : R) :
  NoDup (map key table) -> ~ In (key row) (map key table) ->
  NoDup (map key (table ++ [row])).
Proof.
  intros Hnd Hnew. rewrite map_app. cbn [map].
  apply NoDup_app; [exact Hnd | repeat constructor; intros [] | ].
  intros k Hk [<- | []]. contradiction.
Qed.

Lemma NoDup_map_filter {R K : Type} (key : R -> K) (keep : R -> bool)
    (table : list R) :
  NoDup (map key table) -> NoDup (map key (filter keep table)).
Proof.
  induction table as [| r table IH]; cbn [map filter]; [trivial |].
  intros Hnd. inversion Hnd as [| k ks Hnotin Hrest]; subst.
  destruct (keep r); [| now apply IH].
  cbn [map]. constructor; [| now apply IH].
  intros Hin. apply Hnotin. apply in_map_iff in Hin as [x [Hx Hin]].
  apply filter_In in Hin as [Hin _]. apply in_map_iff. eauto.
Qed.

Lemma team_insert_keeps_keys (id : Z) (name : string) (sname : option string)
    (table : list TeamRow) :
  NoDup (map t_team_id table) /\ NoDup (map t_team_name table) ->
  NoDup (map t_team_id (insert_or_ignore_team_rows id name sname table))
  /\ NoDup (map t_team_name (insert_or_ignore_team_rows id name sname table)).
Proof.
  intros [Hid Hname]. unfold insert_or_ignore_team_rows.
  destruct (existsb (team_conflict id name) table) eqn:E; [now split |].
  assert (Hfree : forall r, In r table ->
                            t_team_id r <> id /\ t_team_name r <> name).
  { intros r Hr.
    assert (Hc : team_conflict id name r = false).
    { destruct (team_conflict id name r) eqn:Hc; [| reflexivity].
      assert (existsb (team_conflict id name) table = true)
        by (apply existsb_exists; eauto).
      congruence. }
    unfold team_conflict in Hc. apply orb_false_iff in Hc as [H1 H2].
    split; [now apply Z.eqb_neq | now apply String.eqb_neq]. }
  split; apply NoDup_map_snoc; try assumption; cbn;
    intros Hin; apply in_map_iff in Hin as [r [Hr Hin]];
    destruct (Hfree r Hin); contradiction.
Qed.

Lemma venue_insert_keeps_keys (id : Z) (name : string) (city : option string)
    (table : list VenueRow) :
  NoDup (map v_venue_id table) ->
  NoDup (map v_venue_id (insert_or_ignore_venue_rows id name city table)).
Proof.
  intros Hid. unfold insert_or_ignore_venue_rows.
  destruct (existsb (fun r => v_venue_id r =? id) table) eqn:E; [exact Hid |].
  apply NoDup_map_snoc; [exact Hid |]. cbn.
  intros Hin. apply in_map_iff in Hin as [r [Hr Hin]].
  assert (existsb (fun r => v_venue_id r =? id) table = true).
  { apply existsb_exists. exists r. split; [exact Hin | now apply Z.eqb_eq]. }
  congruence.
Qed.

Lemma match_replace_keeps_keys (row : MatchRow) (table : list MatchRow) :
  NoDup (map m_match_id table) ->
  NoDup (map m_match_id (insert_or_replace_match_rows row table)).
Proof.
  intros Hid. unfold insert_or_replace_match_rows.
  apply NoDup_map_snoc; [now apply NoDup_map_filter |].
  intros Hin. apply in_map_iff in Hin as [r [Hr Hin]].
  apply filter_In in Hin as [_ Hne].
  apply negb_true_iff, Z.eqb_neq in Hne. contradiction.
Qed.

Lemma store_match_data_preserves_keys
    (local_date : string -> option string) (e : MatchData)
    (series_id : option Z) (is_live : bool) :
  preserves keys_unique (store_match_data local_date e series_id is_live).
Proof.
  unfold store_match_data.
  apply preserves_try_except; [| intros _; apply preserves_ret].
  destruct (matchId (get_default (matchInfo e) no_match_info)) as [id |];
    [| apply preserves_ret].
  destruct (id =? 0); [apply preserves_ret |].
  assert (Hteam : forall tid name sname,
            preserves keys_unique (insert_or_ignore_team tid name sname)).
  { intros tid name sname. apply preserves_statement.
    intros d [H1 [H2 [H3 H4]]]. unfold keys_unique.
    cbn [set_teams teams venues matches].
    destruct (team_insert_keeps_keys tid name sname (teams d) (conj H1 H2)).
    repeat split; assumption. }
  apply preserves_bind; [apply preserves_when, Hteam | intros _].
  apply preserves_bind; [apply preserves_when, Hteam | intros _].
  apply preserves_bind; [apply preserves_when | intros _].
  - apply preserves_statement. intros d [H1 [H2 [H3 H4]]]. unfold keys_unique.
    cbn [set_venues teams venues matches].
    repeat split; try assumption. now apply venue_insert_keeps_keys.
  - apply preserves_statement. intros d [H1 [H2 [H3 H4]]]. unfold keys_unique.
    cbn [set_matches teams venues matches].
    repeat split; try assumption. now apply match_replace_keeps_keys.
Qed.

(** X6.  Match ingestion keeps the keys of the schema: if team ids,
    team names, venue ids and match ids are each unique before an
    entry is ingested, they are unique afterwards, whatever the entry
    holds. *)
Theorem store_match_data_keeps_keys_unique :
  forall (local_date : string -> option string) (e : MatchData)
         (series_id : option Z) (is_live : bool) (d : Database),
    keys_unique d ->
    keys_unique (after_store_match_data local_date e series_id is_live d).
Proof.
  intros local_date e series_id is_live d Hd.
  exact (store_match_data_preserves_keys local_date e series_id is_live d Hd).
Qed.

Lemma keys_unique_empty : keys_unique empty_db.
Proof. repeat split; constructor. Qed.

(** The theorem at match 501 ingested into the empty store. *)
Lemma store_match_data_keeps_keys_unique_witness :
  keys_unique
    (after_store_match_data no_date match_501_over (Some 7) false empty_db).
Proof.
  exact (store_match_data_keeps_keys_unique no_date match_501_over (Some 7)
           false empty_db keys_unique_empty).
Defined.

(** X7.  An entry that is not accepted (no match id, match id 0, or
    a number that does not fit 64 bits) writes nothing to [matches].
    When the id is missing or 0 the guard returns before any INSERT,
    and the whole database is left as it was; an entry that fails
    later, at a number that does not bind, may have left its teams and
    its venue behind, which [store_match_data] does not roll back. *)
Theorem rejected_entry_writes_no_match :
  forall (local_date : string -> option string) (e : MatchData)
         (series_id : option Z) (is_live : bool) (d : Database),
    accepted e series_id = false ->
    matches (after_store_match_data local_date e series_id is_live d)
    = matches d
    /\ (truthy (match_id_of e) = false ->
        after_store_match_data local_date e series_id is_live d = d).
Proof.
  intros local_date e series_id is_live d Hacc. split.
  - now apply matches_unchanged_when_not_accepted.
  - unfold match_id_of, after_store_match_data, store_match_data, try_except.
    destruct (matchId (get_default (matchInfo e) no_match_info)) as [id |];
      [| reflexivity].
    cbn [truthy]. destruct (id =? 0); [reflexivity | discriminate].
Qed.

(** The theorem at a match id of 2^63: no match row, but the two
    teams and the venue of the entry are on record afterwards. *)
Lemma rejected_entry_writes_no_match_witness :
  matches (after_store_match_data no_date match_with_huge_id (Some 7) false
             empty_db)
  = []
  /\ List.length
       (teams (after_store_match_data no_date match_with_huge_id (Some 7)
                 false empty_db)) = 2%nat.
Proof.
  split; [| reflexivity].
  exact (proj1 (rejected_entry_writes_no_match no_date match_with_huge_id
                  (Some 7) false empty_db eq_refl)).
Defined.

(** The teams table after a guarded INSERT OR IGNORE whose number
    binds. *)
Lemma guarded_team_insert_teams (team_id : option Z) (name : string)
    (sname : option string) (d : Database) :
  sqlite_opt_int team_id = true ->
  exists d',
    when (truthy team_id)
      (insert_or_ignore_team (get_default team_id 0) name sname) d
    = (d', Ok tt)
    /\ teams d'
       = (if truthy team_id
          then insert_or_ignore_team_rows (get_default team_id 0) name sname
                 (teams d)
          else teams d).
Proof.
  intros Hr. destruct (truthy team_id) eqn:Ht; cbn [when].
  - unfold insert_or_ignore_team, bind.
    destruct team_id as [z |]; [| discriminate]. cbn [get_default].
    rewrite bind_ints_ok by (cbn [forallb]; now rewrite Hr).
    eexists; split; reflexivity.
  - eexists; split; reflexivity.
Qed.

Lemma guarded_venue_insert_teams (venue_id : option Z) (name : string)
    (city : option string) (d : Database) :
  sqlite_opt_int venue_id = true ->
  exists d',
    when (truthy venue_id)
      (insert_or_ignore_venue (get_default venue_id 0) name city) d
    = (d', Ok tt)
    /\ teams d' = teams d.
Proof.
  intros Hr. destruct venue_id as [z |]; cbn [truthy when].
  - destruct (negb (z =? 0)); cbn [when]; [| eexists; split; reflexivity].
    unfold insert_or_ignore_venue, bind. cbn [get_default].
    rewrite bind_ints_ok by (cbn [forallb]; now rewrite Hr).
    eexists; split; reflexivity.
  - eexists; split; reflexivity.
Qed.

(** An accepted entry runs its two team inserts, in order. *)
Lemma teams_after_accepted (local_date : string -> option string)
    (e : MatchData) (series_id : option Z) (is_live : bool) (d : Database) :
  accepted e series_id = true ->
  let mi := get_default (matchInfo e) no_match_info in
  let team1_info := get_default (team1 mi) no_team_info in
  let team2_info := get_default (team2 mi) no_team_info in
  let after1 :=
    if truthy (teamId team1_info)
    then insert_or_ignore_team_rows (get_default (teamId team1_info) 0)
           (get_default (teamName team1_info) "Unknown Team")
           (teamSName team1_info) (teams d)
    else teams d in
  teams (after_store_match_data local_date e series_id is_live d)
  = (if truthy (teamId team2_info)
     then insert_or_ignore_team_rows (get_default (teamId team2_info) 0)
            (get_default (teamName team2_info) "Unknown Team")
            (teamSName team2_info) after1
     else after1).
Proof.
  intros Hacc mi team1_info team2_info after1.
  unfold after1, team1_info, team2_info. clear after1 team1_info team2_info.
  unfold accepted, after_store_match_data, store_match_data in *.
  fold mi in Hacc |- *.
  destruct (matchId mi) as [id |]; [| discriminate].
  cbn [truthy] in Hacc. apply andb_prop in Hacc as [Hnz Hr].
  apply negb_true_iff in Hnz. rewrite Hnz.
  cbn [forallb] in Hr.
  apply andb_prop in Hr as [Hm Hr]. apply andb_prop in Hr as [Hs Hr].
  apply andb_prop in Hr as [H1 Hr]. apply andb_prop in Hr as [H2 Hr].
  apply andb_prop in Hr as [Hv _].
  unfold try_except, bind.
  destruct (guarded_team_insert_teams
              (teamId (get_default (team1 mi) no_team_info))
              (get_default (teamName (get_default (team1 mi) no_team_info))
                 "Unknown Team")
              (teamSName (get_default (team1 mi) no_team_info)) d H1)
    as [d1 [E1 T1]].
  rewrite E1.
  destruct (guarded_team_insert_teams
              (teamId (get_default (team2 mi) no_team_info))
              (get_default (teamName (get_default (team2 mi) no_team_info))
                 "Unknown Team")
              (teamSName (get_default (team2 mi) no_team_info)) d1 H2)
    as [d2 [E2 T2]].
  rewrite E2.
  destruct (guarded_venue_insert_teams
              (venue_info_id (get_default (venueInfo mi) no_venue_info))
              (get_default (ground (get_default (venueInfo mi) no_venue_info))
                 "Unknown Venue")
              (venue_info_city (get_default (venueInfo mi) no_venue_info))
              d2 Hv)
    as [d3 [E3 T3]].
  rewrite E3.
  unfold insert_or_replace_match, bind.
  rewrite bind_ints_ok.
  - cbn [modify fst set_matches teams]. rewrite T3, T2, T1. reflexivity.
  - cbn [forallb m_match_id m_series_id m_team1_id m_team2_id m_venue_id
         match_row_of].
    cbn [sqlite_opt_int] in *. now rewrite Hm, Hs, H1, H2, Hv.
Qed.

(** After the INSERT OR IGNORE of a team whose id is new, a row of
    its name is in the table: its own, or the older one that made the
    insert a no-op. *)
Lemma name_taken_after_insert (id : Z) (name : string) (sname : option string)
    (table : list TeamRow) :
  filter (fun r => t_team_id r =? id) table = [] ->
  existsb (fun r => String.eqb (t_team_name r) name)
    (insert_or_ignore_team_rows id name sname table) = true.
Proof.
  intros Hnew. unfold insert_or_ignore_team_rows.
  destruct (existsb (team_conflict id name) table) eqn:E.
  - apply existsb_exists in E as [r [Hr Hc]].
    apply existsb_exists. exists r. split; [exact Hr |].
    unfold team_conflict in Hc. apply orb_true_iff in Hc as [Hc | Hc];
      [| exact Hc].
    assert (In r (filter (fun r => t_team_id r =? id) table))
      by (apply filter_In; now split).
    rewrite Hnew in H. contradiction.
  - rewrite existsb_app. cbn. rewrite String.eqb_refl. apply orb_true_r.
Qed.

(** X8.  UNIQUE(team_name) with INSERT OR IGNORE: when the two teams
    of an accepted entry are both new to the store, have different
    ids, and have the same name (as they have when both come without a
    name and get 'Unknown Team'), team2 gets no row, while the match
    row that is written still refers to team2's id. *)
Theorem second_team_of_same_name_gets_no_row :
  forall (local_date : string -> option string) (e : MatchData)
         (series_id : option Z) (is_live : bool) (d : Database)
         (match_id t1 t2 : Z),
    let mi := get_default (matchInfo e) no_match_info in
    let team1_info := get_default (team1 mi) no_team_info in
    let team2_info := get_default (team2 mi) no_team_info in
    match_id_of e = Some match_id ->
    accepted e series_id = true ->
    teamId team1_info = Some t1 ->
    teamId team2_info = Some t2 ->
    t1 <> 0 -> t2 <> 0 -> t1 <> t2 ->
    get_default (teamName team1_info) "Unknown Team"
    = get_default (teamName team2_info) "Unknown Team" ->
    teams_with_id t1 d = [] ->
    teams_with_id t2 d = [] ->
    let d' := after_store_match_data local_date e series_id is_live d in
    teams_with_id t2 d' = []
    /\ exists row, matches_with_id match_id d' = [row]
                   /\ m_team2_id row = Some t2.
Proof.
  intros local_date e series_id is_live d match_id t1 t2 mi team1_info
         team2_info Hid Hacc Ht1 Ht2 Hz1 Hz2 Hne Hname Hnew1 Hnew2 d'.
  split.
  - unfold d', teams_with_id.
    rewrite (teams_after_accepted local_date e series_id is_live d Hacc).
    fold mi. fold team1_info team2_info. rewrite Ht1, Ht2.
    cbn [truthy get_default].
    apply Z.eqb_neq in Hz1, Hz2. rewrite Hz1, Hz2. cbn [negb].
    rewrite <- Hname.
    rewrite insert_or_ignore_team_absorbed.
    + rewrite insert_or_ignore_team_rows_app, filter_app.
      unfold teams_with_id in Hnew2. rewrite Hnew2.
      destruct (existsb _ (teams d)); [reflexivity |].
      cbn [filter t_team_id app]. apply Z.eqb_neq in Hne. now rewrite Hne.
    + pose proof (name_taken_after_insert t1
                    (get_default (teamName team1_info) "Unknown Team")
                    (teamSName team1_info) (teams d) Hnew1) as Hc.
      apply existsb_exists in Hc as [r [Hr Hc]].
      apply existsb_exists. exists r. split; [exact Hr |].
      unfold team_conflict. rewrite Hc. apply orb_true_r.
  - eexists. split.
    + unfold d', matches_with_id.
      rewrite (matches_after_accepted local_date e series_id is_live match_id d
                 Hacc Hid).
      apply (insert_or_replace_match_single
               (match_row_of local_date match_id
                  (get_default (matchInfo e) no_match_info) series_id is_live)).
    + cbn [match_row_of m_team2_id]. exact Ht2.
Qed.

(** The theorem at an entry whose teams 31 and 32 have no name. *)
Lemma second_team_of_same_name_gets_no_row_witness :
  teams_with_id 32
    (after_store_match_data no_date match_of_unnamed_teams None false
       two_results_db) = []
  /\ exists row,
       matches_with_id 777
         (after_store_match_data no_date match_of_unnamed_teams None false
            two_results_db) = [row]
       /\ m_team2_id row = Some 32.
Proof.
  apply (second_team_of_same_name_gets_no_row no_date match_of_unnamed_teams
           None false two_results_db 777 31 32);
    try reflexivity; discriminate.
Defined.

Example unnamed_teams_store_one_row :
  teams (after_store_match_data no_date match_of_unnamed_teams None false
           empty_db)
  = [ mkTeam 31 "Unknown Team" None None ].
Proof. reflexivity. Qed.

(* ------------------------------------------------------------------ *)
(** ** [fetch_teams_data] *)

Example backfill_after_ingestion :
  teams (fst (fetch_teams_data Py.lower
                (after_store_match_data no_date match_501_over (Some 7) false
                   empty_db)))
  = [ mkTeam 10 "India" (Some "IND") (Some "India");
      mkTeam 20 "Australia" (Some "AUS") (Some "Australia") ].
Proof. reflexivity. Qed.

(** The loop over a snapshot [ts], run on a table whose rows agree in
    name with the snapshot rows of the same id. *)
Lemma backfill_loop (lower : string -> string) (ts : list TeamRow) :
  forall d : Database,
    (forall r t, In r (teams d) -> In t ts -> t_team_id r = t_team_id t ->
                 t_team_name r = t_team_name t) ->
    for_each ts (fun team =>
      modify (set_teams
                (update_team_country_rows
                   (determine_country_from_team_name lower (t_team_name team))
                   (t_team_id team)))) d
    = (mkDatabase
         (map (fun r => if existsb (fun t => t_team_id t =? t_team_id r) ts
                        then backfilled lower r else r) (teams d))
         (venues d) (matches d) (players d) (player_match_performance d)
         (team_statistics d), Ok tt).
Proof.
  induction ts as [| t ts IH]; intros d Hnames.
  - cbn [for_each existsb]. rewrite map_id. now destruct d.
  - cbn [for_each]. unfold bind at 1. cbn [modify].
    rewrite IH.
    + cbn [set_teams teams venues matches players player_match_performance
           team_statistics].
      do 2 f_equal. unfold update_team_country_rows. rewrite map_map.
      apply map_ext_in. intros r Hr. cbn [existsb].
      rewrite (Z.eqb_sym (t_team_id t) (t_team_id r)).
      destruct (t_team_id r =? t_team_id t) eqn:E; cbn [orb t_team_id].
      * apply Z.eqb_eq in E.
        rewrite <- (Hnames r t Hr (or_introl eq_refl) E).
        destruct (existsb _ ts); reflexivity.
      * reflexivity.
    + cbn [set_teams teams]. unfold update_team_country_rows.
      intros r x Hr Hx Hid. apply in_map_iff in Hr as [r0 [Hr0 Hin]].
      assert (Hsame : t_team_id r = t_team_id r0 /\ t_team_name r = t_team_name r0).
      { destruct (t_team_id r0 =? t_team_id t); subst r; split; reflexivity. }
      destruct Hsame as [Hi Hn]. rewrite Hn.
      apply (Hnames r0 x Hin (or_intror Hx)). congruence.
Qed.

Lemma same_id_same_row (table : list TeamRow) :
  NoDup (map t_team_id table) ->
  forall r t, In r table -> In t table -> t_team_id r = t_team_id t -> r = t.
Proof.
  induction table as [| x table IH]; intros Hnd r t Hr Ht Hid; [contradiction |].
  cbn [map] in Hnd. inversion Hnd as [| k ks Hnotin Hrest]; subst.
  destruct Hr as [<- | Hr], Ht as [<- | Ht]; try reflexivity.
  - exfalso. apply Hnotin. rewrite Hid. now apply in_map.
  - exfalso. apply Hnotin. rewrite <- Hid. now apply in_map.
  - now apply IH.
Qed.

(** X9.  With team ids unique, as the primary key has them, the
    back-fill gives every team the country that
    [determine_country_from_team_name] finds for its name - replacing
    whatever country was stored, and using the name itself when no key
    of the mapping occurs in its lower-cased form - and changes
    nothing else: ids, names and short names stay, no team is added or
    removed, the other tables are untouched, and no exception is
    raised.  This holds whatever [str.lower] does to the names. *)
Theorem fetch_teams_data_backfills_every_team :
  forall (lower : string -> string) (d : Database),
    NoDup (map t_team_id (teams d)) ->
    fetch_teams_data lower d
    = (mkDatabase (map (backfilled lower) (teams d)) (venues d) (matches d)
         (players d) (player_match_performance d) (team_statistics d), Ok tt).
Proof.
  intros lower d Hnd. unfold fetch_teams_data, try_except, bind, gets.
  rewrite backfill_loop.
  - do 2 f_equal. apply map_ext_in. intros r Hr.
    assert (H : existsb (fun t => t_team_id t =? t_team_id r)
                  (select_teams (teams d)) = true).
    { apply existsb_exists. exists r.
      split; [exact (proj1 (select_teams_in _ _) Hr) | apply Z.eqb_refl]. }
    now rewrite H.
  - intros r t Hr Ht Hid. apply (proj2 (select_teams_in _ _)) in Ht.
    now rewrite (same_id_same_row (teams d) Hnd r t Hr Ht Hid).
Qed.

(** The theorem at three teams: one without a country, one whose
    stored country is overwritten, and one whose name holds no key and
    becomes its own country in place of the one on record. *)
Lemma fetch_teams_data_backfills_every_team_witness :
  teams (fst (fetch_teams_data Py.lower teams_to_backfill))
  = [ mkTeam 10 "India" (Some "IND") (Some "India");
      mkTeam 23 "Pakistan A" (Some "PAK-A") (Some "Pakistan");
      mkTeam 58 "Chennai Super Kings" (Some "CSK")
             (Some "Chennai Super Kings") ].
Proof.
  assert (Hnd : NoDup (map t_team_id (teams teams_to_backfill))).
  { cbn. repeat constructor; cbn; intuition discriminate. }
  exact (f_equal (fun x => teams (fst x))
           (fetch_teams_data_backfills_every_team Py.lower teams_to_backfill
              Hnd)).
Defined.

(* ------------------------------------------------------------------ *)
(** ** [store_scorecard_data_fixed]: invariants *)

Lemma preserves_bind_raise {S A B : Type} (inv : S -> Prop) (e : Exn)
    (k : A -> M S B) :
  preserves inv (bind (raise e) k).
Proof. intros s Hs. exact Hs. Qed.

(** A statement run through the cursor keeps an invariant of the
    frame when rewriting the cursor's database does. *)
Lemma preserves_execute_statement (inv : Frame -> Prop)
    (params : list (option Z)) (change : Database -> Database) :
  (forall c s n, inv (mkFrame c s n) -> inv (mkFrame (change c) s n)) ->
  preserves inv (execute (bind (bind_ints params) (fun _ => modify change))).
Proof.
  intros H [c s n] Hf. unfold execute, bind, bind_ints, modify.
  cbn [cursor self_stats players_added].
  destruct (forallb sqlite_opt_int params); cbn [fst]; [now apply H | exact Hf].
Qed.

Lemma preserves_resolve_player_id (inv : Frame -> Prop) (key name : string)
    (team_id : option Z) :
  preserves inv (resolve_player_id key name team_id).
Proof.
  intros f Hf. unfold resolve_player_id.
  destruct (generate_player_id (self_stats f) key name team_id); exact Hf.
Qed.

Section ScorecardInvariant.

Variable inv : Frame -> Prop.

Hypothesis inv_insert_player :
  forall id name team_id role key c s n,
    inv (mkFrame c s n) ->
    inv (mkFrame (set_players
                    (insert_or_ignore_player_rows id name team_id role key) c)
                 s n).

Hypothesis inv_insert_performance :
  forall id match_id team_id innings key c s n,
    inv (mkFrame c s n) ->
    inv (mkFrame (set_performance
                    (insert_or_ignore_performance_rows id match_id team_id
                       innings key) c)
                 s n).

Hypothesis inv_update_bowling :
  forall o w r e m id match_id innings c s n,
    inv (mkFrame c s n) ->
    inv (mkFrame (set_performance
                    (update_bowling_rows o w r e m id match_id innings) c)
                 s n).

Hypothesis inv_counted :
  preserves inv (bind count_player_added (fun _ => count_performance_stored)).

Lemma store_batsman_preserves (match_id innings_num : Z)
    (bat_team_id : option Z) (item : string * option BatsmanData) :
  preserves inv (store_batsman match_id innings_num bat_team_id item).
Proof.
  destruct item as [player_key [player_data |]]; cbn [store_batsman];
    [| apply preserves_ret].
  apply preserves_bind; [apply preserves_resolve_player_id | intros id].
  apply preserves_bind.
  { apply preserves_execute_statement. intros c s n. apply inv_insert_player. }
  intros _. apply preserves_bind; [apply preserves_gets | intros added].
  rewrite load_team_id_raises. apply preserves_bind_raise.
Qed.

Lemma store_bowler_preserves (match_id innings_num : Z)
    (bowl_team_id : option Z) (item : string * option BowlerData) :
  preserves inv (store_bowler match_id innings_num bowl_team_id item).
Proof.
  destruct item as [bowler_key [bowler_data |]]; cbn [store_bowler];
    [| apply preserves_ret].
  apply preserves_bind; [apply preserves_resolve_player_id | intros id].
  apply preserves_bind.
  { apply preserves_execute_statement. intros c s n. apply inv_insert_player. }
  intros _. apply preserves_bind.
  { apply preserves_execute_statement. intros c s n.
    apply inv_insert_performance. }
  intros _. apply preserves_bind.
  { apply preserves_execute_statement. intros c s n. apply inv_update_bowling. }
  intros _. exact inv_counted.
Qed.

Lemma store_innings_preserves (match_id innings_num : Z)
    (innings_data : InningsData) :
  preserves inv (store_innings match_id innings_num innings_data).
Proof.
  unfold store_innings.
  destruct (batTeamDetails innings_data) as [bat |]; [| apply preserves_ret].
  apply preserves_bind.
  - destruct (batsmenData bat); [| apply preserves_ret].
    apply preserves_for_each. intros x. apply store_batsman_preserves.
  - intros _.
    destruct (bowlTeamDetails innings_data) as [bowl |]; [| apply preserves_ret].
    destruct (bowlersData bowl); [| apply preserves_ret].
    apply preserves_for_each. intros x. apply store_bowler_preserves.
Qed.

Lemma for_each_innings_preserves (match_id : Z)
    (innings_list : list InningsData) :
  forall start : Z,
    preserves inv (for_each_innings match_id start innings_list).
Proof.
  induction innings_list as [| x rest IH]; intros start; cbn [for_each_innings].
  - apply preserves_ret.
  - apply preserves_bind; [apply store_innings_preserves | intros _; apply IH].
Qed.

End ScorecardInvariant.

Lemma same_triple_iff (match_id player_id innings : Z) (r : PerformanceRow) :
  same_triple match_id player_id innings r = true
  <-> triple_of r = (match_id, player_id, innings).
Proof.
  unfold same_triple, triple_of. rewrite !andb_true_iff, !Z.eqb_eq.
  split; [intros [[-> ->] ->]; reflexivity | intros H; inversion H; auto].
Qed.

Lemma triple_of_set_bowling (o : Q) (w rc : Z) (e : Q) (m : Z)
    (r : PerformanceRow) :
  triple_of (set_bowling o w rc e m r) = triple_of r.
Proof. reflexivity. Qed.

Lemma map_update_bowling {K : Type} (view : PerformanceRow -> K)
    (o : Q) (w rc : Z) (e : Q) (m id match_id innings : Z)
    (table : list PerformanceRow) :
  (forall r, view (set_bowling o w rc e m r) = view r) ->
  map view (update_bowling_rows o w rc e m id match_id innings table)
  = map view table.
Proof.
  intros Hview. unfold update_bowling_rows. rewrite map_map.
  apply map_ext. intros r.
  destruct (same_triple match_id id innings r); [apply Hview | reflexivity].
Qed.

Lemma insert_performance_unique (id match_id : Z) (team_id : option Z)
    (innings : Z) (key : string) (table : list PerformanceRow) :
  NoDup (map triple_of table) ->
  NoDup (map triple_of
           (insert_or_ignore_performance_rows id match_id team_id innings key
              table)).
Proof.
  intros Hnd. unfold insert_or_ignore_performance_rows.
  destruct (existsb (same_triple match_id id innings) table) eqn:E;
    [exact Hnd |].
  apply NoDup_map_snoc; [exact Hnd |].
  intros Hin. apply in_map_iff in Hin as [r [Hr Hin]].
  assert (existsb (same_triple match_id id innings) table = true).
  { apply existsb_exists. exists r. split; [exact Hin |].
    apply same_triple_iff. exact Hr. }
  congruence.
Qed.

Lemma counters_keep_cursor (inv : Database -> Prop) :
  preserves (fun f => inv (cursor f))
    (bind count_player_added (fun _ => count_performance_stored)).
Proof. intros f Hf. exact Hf. Qed.

(** The frame a call of [store_scorecard_data_fixed] ends in keeps
    every invariant that its loop keeps. *)
Lemma store_scorecard_data_fixed_frame (match_id : Z)
    (scorecard_data : ScorecardData) (d : Database) (self : Stats) :
  exists f : Frame,
    fst (store_scorecard_data_fixed match_id scorecard_data d self)
    = (cursor f, self_stats f)
    /\ (snd (store_scorecard_data_fixed match_id scorecard_data d self)
        = players_added f
        \/ snd (store_scorecard_data_fixed match_id scorecard_data d self) = 0)
    /\ forall inv : Frame -> Prop,
         (forall l start, preserves inv (for_each_innings match_id start l)) ->
         inv (mkFrame d self 0) -> inv f.
Proof.
  unfold store_scorecard_data_fixed.
  destruct (scoreCard scorecard_data) as [innings_list |].
  - pose (run := for_each_innings match_id 1 innings_list (mkFrame d self 0)).
    exists (fst run). fold run.
    assert (Hinv : forall inv : Frame -> Prop,
              (forall l start,
                  preserves inv (for_each_innings match_id start l)) ->
              inv (mkFrame d self 0) -> inv (fst run)).
    { intros inv Hp H0. exact (Hp innings_list 1 (mkFrame d self 0) H0). }
    destruct run as [f [[] | e]]; cbn [fst snd];
      (split; [reflexivity | split; [auto | exact Hinv]]).
  - exists (mkFrame d self 0). cbn [fst snd cursor self_stats players_added].
    split; [reflexivity | split; [now left | auto]].
Qed.

(** X10.  Scorecard ingestion keeps UNIQUE(match_id, player_id,
    innings_number): if no two performance rows share their triple
    before a call, none do afterwards, whatever the payload and
    whether or not the call ends in an exception. *)
Theorem store_scorecard_keeps_triples_unique :
  forall (match_id : Z) (scorecard_data : ScorecardData) (d : Database)
         (self : Stats),
    unique_triples d ->
    unique_triples
      (fst (fst (store_scorecard_data_fixed match_id scorecard_data d self))).
Proof.
  intros match_id sc d self Hd.
  destruct (store_scorecard_data_fixed_frame match_id sc d self)
    as [f [Hf [_ Hinv]]].
  rewrite Hf. cbn [fst].
  apply (Hinv (fun f => unique_triples (cursor f))); [| exact Hd].
  intros l start. apply for_each_innings_preserves.
  - intros id name team_id role key c s n H. exact H.
  - intros id m team_id innings key c s n H. unfold unique_triples in *.
    cbn [cursor set_performance player_match_performance] in *.
    now apply insert_performance_unique.
  - intros o w r e m id mid innings c s n H. unfold unique_triples in *.
    cbn [cursor set_performance player_match_performance] in *.
    rewrite map_update_bowling; [exact H | reflexivity].
  - apply (counters_keep_cursor unique_triples).
Qed.

(** The theorem at the bowling-only scorecard on the empty store. *)
Lemma store_scorecard_keeps_triples_unique_witness :
  unique_triples
    (fst (fst (store_scorecard_data_fixed 501 bowling_only_scorecard
                 empty_db stats0))).
Proof.
  apply (store_scorecard_keeps_triples_unique 501 bowling_only_scorecard
           empty_db stats0).
  constructor.
Defined.

(** X11.  Scorecard ingestion never changes a player row that is
    already stored (its role, team and career aggregates stay): the
    players table afterwards is the old table followed by the new
    players, and the teams, venues, matches and team-statistics tables
    are untouched. *)
Theorem store_scorecard_only_appends_players :
  forall (match_id : Z) (scorecard_data : ScorecardData) (d : Database)
         (self : Stats),
    let d' := fst (fst (store_scorecard_data_fixed match_id scorecard_data
                          d self)) in
    (exists new_players, players d' = players d ++ new_players)
    /\ teams d' = teams d /\ venues d' = venues d /\ matches d' = matches d
    /\ team_statistics d' = team_statistics d.
Proof.
  intros match_id sc d self d'. unfold d'.
  destruct (store_scorecard_data_fixed_frame match_id sc d self)
    as [f [Hf [_ Hinv]]].
  rewrite Hf. cbn [fst].
  apply (Hinv (fun f =>
           (exists new_players, players (cursor f) = players d ++ new_players)
           /\ teams (cursor f) = teams d /\ venues (cursor f) = venues d
           /\ matches (cursor f) = matches d
           /\ team_statistics (cursor f) = team_statistics d)).
  - intros l start. apply for_each_innings_preserves.
    + intros id name team_id role key c s n [[new Hnew] Hrest].
      cbn [cursor set_players players teams venues matches team_statistics]
        in *.
      split; [| exact Hrest].
      unfold insert_or_ignore_player_rows.
      destruct (existsb _ c.(players)); [now exists new |].
      rewrite Hnew, <- app_assoc. eexists; reflexivity.
    + intros id m team_id innings key c s n H. exact H.
    + intros o w r e m id mid innings c s n H. exact H.
    + intros f0 H. exact H.
  - cbn [cursor]. split; [exists []; now rewrite app_nil_r | repeat split].
Qed.

(** X12.  The counters of a scorecard call: [players_stored] is never
    incremented (it is counted only after the batting INSERT), the API
    and match counters are untouched, and the number returned is
    between 0 and the increase of [performances_stored]: rows counted
    before an exception stay counted although the call then returns
    0. *)
Theorem store_scorecard_counters :
  forall (match_id : Z) (scorecard_data : ScorecardData) (d : Database)
         (self : Stats),
    let result := store_scorecard_data_fixed match_id scorecard_data d self in
    let self' := snd (fst result) in
    players_stored self' = players_stored self
    /\ api_calls self' = api_calls self
    /\ successful_calls self' = successful_calls self
    /\ failed_calls self' = failed_calls self
    /\ matches_stored self' = matches_stored self
    /\ 0 <= snd result
       <= performances_stored self' - performances_stored self.
Proof.
  intros match_id sc d self result self'. unfold self', result.
  destruct (store_scorecard_data_fixed_frame match_id sc d self)
    as [f [Hf [Hn Hinv]]].
  rewrite Hf. cbn [fst snd].
  assert (H : players_stored (self_stats f) = players_stored self
              /\ api_calls (self_stats f) = api_calls self
              /\ successful_calls (self_stats f) = successful_calls self
              /\ failed_calls (self_stats f) = failed_calls self
              /\ matches_stored (self_stats f) = matches_stored self
              /\ 0 <= players_added f
              /\ performances_stored (self_stats f)
                 = performances_stored self + players_added f).
  { apply (Hinv (fun f =>
             players_stored (self_stats f) = players_stored self
             /\ api_calls (self_stats f) = api_calls self
             /\ successful_calls (self_stats f) = successful_calls self
             /\ failed_calls (self_stats f) = failed_calls self
             /\ matches_stored (self_stats f) = matches_stored self
             /\ 0 <= players_added f
             /\ performances_stored (self_stats f)
                = performances_stored self + players_added f)).
    - intros l start. apply for_each_innings_preserves.
      + intros id name team_id role key c s n H0. exact H0.
      + intros id m team_id innings key c s n H0. exact H0.
      + intros o w r e m id mid innings c s n H0. exact H0.
      + intros [c s n] H0. cbn in *. repeat split; lia.
    - cbn. repeat split; lia. }
  destruct H as [H1 [H2 [H3 [H4 [H5 [H6 H7]]]]]].
  repeat split; try assumption; destruct Hn as [-> | ->]; lia.
Qed.

Lemma batting_columns_set_bowling (o : Q) (w rc : Z) (e : Q) (m : Z)
    (r : PerformanceRow) :
  batting_columns (set_bowling o w rc e m r) = batting_columns r.
Proof. reflexivity. Qed.

(** X13.  No batting figure of any payload reaches the store: after a
    scorecard call the batting columns (batting order, runs, balls,
    strike rate, fours, sixes, dismissal) of the rows that were there
    are as before, row by row, and every row the call added has them
    at their defaults. *)
Theorem store_scorecard_never_writes_batting_columns :
  forall (match_id : Z) (scorecard_data : ScorecardData) (d : Database)
         (self : Stats),
    let d' := fst (fst (store_scorecard_data_fixed match_id scorecard_data
                          d self)) in
    exists new : list BattingColumns,
      map batting_columns (player_match_performance d')
      = map batting_columns (player_match_performance d) ++ new
      /\ Forall (fun b => b = default_batting) new.
Proof.
  intros match_id sc d self d'. unfold d'.
  destruct (store_scorecard_data_fixed_frame match_id sc d self)
    as [f [Hf [_ Hinv]]].
  rewrite Hf. cbn [fst].
  apply (Hinv (fun f =>
           exists new : list BattingColumns,
             map batting_columns (player_match_performance (cursor f))
             = map batting_columns (player_match_performance d) ++ new
             /\ Forall (fun b => b = default_batting) new)).
  - intros l start. apply for_each_innings_preserves.
    + intros id name team_id role key c s n H. exact H.
    + intros id m team_id innings key c s n [new [Hnew Hdef]].
      cbn [cursor set_performance player_match_performance] in *.
      unfold insert_or_ignore_performance_rows.
      destruct (existsb _ (player_match_performance c)); [now exists new |].
      exists (new ++ [default_batting]).
      rewrite map_app, Hnew, <- app_assoc. split; [reflexivity |].
      apply Forall_app. split; [exact Hdef | now repeat constructor].
    + intros o w r e m id mid innings c s n [new [Hnew Hdef]].
      cbn [cursor set_performance player_match_performance] in *.
      exists new. split; [| exact Hdef].
      rewrite map_update_bowling; [exact Hnew | reflexivity].
    + intros f0 H. exact H.
  - exists []. cbn [cursor]. split; [now rewrite app_nil_r | constructor].
Qed.

(* ------------------------------------------------------------------ *)
(** ** [store_scorecard_data_fixed]: the bowling step *)

Lemma generate_player_id_some (self : Stats) (key name : string)
    (team_id : option Z) :
  exists id,
    generate_player_id self key name team_id = Some id
    /\ 1000000 <= id <= 1000999998.
Proof.
  unfold generate_player_id. rewrite int_base16_digest_prefix.
  set (v := digest_prefix_value _).
  exists (Z.abs v mod 999999999 + 1000000).
  pose proof (Z.mod_pos_bound (Z.abs v) 999999999 eq_refl).
  split; [reflexivity | lia].
Qed.

Lemma execute_statement_ok (params : list (option Z))
    (change : Database -> Database) (f : Frame) :
  forallb sqlite_opt_int params = true ->
  execute (bind (bind_ints params) (fun _ => modify change)) f
  = (mkFrame (change (cursor f)) (self_stats f) (players_added f), Ok tt).
Proof.
  intros H. unfold execute, bind, bind_ints, modify. now rewrite H.
Qed.

Lemma filter_update_bowling (o : Q) (w rc : Z) (e : Q) (m id match_id innings : Z)
    (table : list PerformanceRow) :
  filter (same_triple match_id id innings)
    (update_bowling_rows o w rc e m id match_id innings table)
  = map (set_bowling o w rc e m)
      (filter (same_triple match_id id innings) table).
Proof.
  unfold update_bowling_rows.
  induction table as [| r table IH]; [reflexivity |].
  cbn [map filter].
  destruct (same_triple match_id id innings r) eqn:E.
  - assert (E' : same_triple match_id id innings (set_bowling o w rc e m r)
                 = true) by exact E.
    rewrite E'. cbn [map]. now rewrite IH.
  - rewrite E. exact IH.
Qed.

Lemma filter_none (match_id id innings : Z) (table : list PerformanceRow) :
  existsb (same_triple match_id id innings) table = false ->
  filter (same_triple match_id id innings) table = [].
Proof.
  induction table as [| r table IH]; [reflexivity |].
  cbn [existsb filter]. intros H. apply orb_false_iff in H as [Hr Ht].
  rewrite Hr. now apply IH.
Qed.

Lemma filter_one (match_id id innings : Z) (table : list PerformanceRow) :
  NoDup (map triple_of table) ->
  existsb (same_triple match_id id innings) table = true ->
  exists r0, filter (same_triple match_id id innings) table = [r0].
Proof.
  induction table as [| r table IH]; [discriminate |].
  cbn [map existsb filter]. intros Hnd Hex.
  inversion Hnd as [| k ks Hnotin Hrest]; subst.
  destruct (same_triple match_id id innings r) eqn:E.
  - exists r. f_equal. apply filter_none.
    destruct (existsb (same_triple match_id id innings) table) eqn:E2;
      [| reflexivity].
    exfalso. apply Hnotin. apply existsb_exists in E2 as [x [Hx Hs]].
    apply same_triple_iff in E, Hs. rewrite E, <- Hs. now apply in_map.
  - cbn [orb] in Hex. now apply IH.
Qed.

(** X14.  The bowling step is an upsert-merge on the triple.  On a
    store with unique triples, and with numbers that bind, one bowler
    entry leaves exactly one performance row for (match, player id,
    innings); its five bowling columns hold the entry's figures (0
    for a missing one); its batting columns are those of the row that
    was there before, or the defaults if there was none; and the
    entry is counted once. *)
Theorem bowling_entry_merges_into_its_row :
  forall (match_id innings_num : Z) (bowl_team_id : option Z)
         (bowler_key : string) (bowler_data : BowlerData) (f : Frame),
    unique_triples (cursor f) ->
    forallb sqlite_opt_int
      [ Some match_id; bowl_team_id; Some innings_num; wickets bowler_data;
        bowl_runs bowler_data; maidens bowler_data ] = true ->
    let run := store_bowler match_id innings_num bowl_team_id
                 (bowler_key, Some bowler_data) f in
    exists (id : Z) (row : PerformanceRow),
      generate_player_id (self_stats f) bowler_key
        (get_default (bowlName bowler_data) ("Bowler_" ++ bowler_key)%string)
        bowl_team_id = Some id
      /\ snd run = Ok tt
      /\ performances_of match_id id innings_num (cursor (fst run)) = [row]
      /\ pmp_overs_bowled row = get_default (overs bowler_data) 0%Q
      /\ pmp_wickets_taken row = get_default (wickets bowler_data) 0
      /\ pmp_runs_conceded row = get_default (bowl_runs bowler_data) 0
      /\ pmp_economy_rate row = get_default (economy bowler_data) 0%Q
      /\ pmp_maidens row = get_default (maidens bowler_data) 0
      /\ batting_columns row
         = match performances_of match_id id innings_num (cursor f) with
           | r0 :: _ => batting_columns r0
           | [] => default_batting
           end
      /\ players_added (fst run) = players_added f + 1.
Proof.
  intros match_id innings_num team key data f Huniq Hbind run.
  set (name := get_default (bowlName data) ("Bowler_" ++ key)%string).
  destruct (generate_player_id_some (self_stats f) key name team)
    as [id [Hid Hrange]].
  cbn [forallb] in Hbind.
  apply andb_prop in Hbind as [Hm Hbind]. apply andb_prop in Hbind as [Ht Hbind].
  apply andb_prop in Hbind as [Hj Hbind]. apply andb_prop in Hbind as [Hw Hbind].
  apply andb_prop in Hbind as [Hr Hbind]. apply andb_prop in Hbind as [Hmd _].
  assert (Hdef : forall v, sqlite_opt_int v = true ->
                           sqlite_opt_int (Some (get_default v 0)) = true).
  { intros [z |] Hv; [exact Hv | reflexivity]. }
  assert (Hidr : sqlite_opt_int (Some id) = true).
  { cbn [sqlite_opt_int]. unfold sqlite_int.
    apply andb_true_intro. split; [apply Z.leb_le | apply Z.ltb_lt];
      change (2 ^ 63) with 9223372036854775808; lia. }
  assert (Hrun :
    run = (mkFrame
             (set_performance
                (update_bowling_rows (get_default (overs data) 0%Q)
                   (get_default (wickets data) 0)
                   (get_default (bowl_runs data) 0)
                   (get_default (economy data) 0%Q)
                   (get_default (maidens data) 0) id match_id innings_num)
                (set_performance
                   (insert_or_ignore_performance_rows id match_id team
                      innings_num key)
                   (set_players
                      (insert_or_ignore_player_rows id name team "Bowler" key)
                      (cursor f))))
             (mkStats (api_calls (self_stats f)) (successful_calls (self_stats f))
                (failed_calls (self_stats f)) (matches_stored (self_stats f))
                (players_stored (self_stats f))
                (performances_stored (self_stats f) + 1))
             (players_added f + 1), Ok tt)).
  { unfold run. cbn [store_bowler]. fold name.
    unfold bind at 1. unfold resolve_player_id. rewrite Hid.
    unfold insert_or_ignore_player, insert_or_ignore_performance,
      update_bowling.
    unfold bind at 1.
    rewrite execute_statement_ok
      by (cbn [forallb]; rewrite Hidr, Ht; reflexivity).
    unfold bind at 1.
    rewrite execute_statement_ok
      by (cbn [forallb]; rewrite Hidr, Hm, Ht, Hj; reflexivity).
    unfold bind at 1.
    rewrite execute_statement_ok
      by (cbn [forallb]; rewrite (Hdef _ Hw), (Hdef _ Hr), (Hdef _ Hmd),
            Hidr, Hm, Hj; reflexivity).
    reflexivity. }
  rewrite Hrun. clearbody run. clear Hrun.
  cbn [fst snd cursor players_added].
  exists id.
  unfold performances_of.
  cbn [set_performance set_players player_match_performance].
  assert (Hrows :
    exists row,
      filter (same_triple match_id id innings_num)
        (update_bowling_rows (get_default (overs data) 0%Q)
           (get_default (wickets data) 0) (get_default (bowl_runs data) 0)
           (get_default (economy data) 0%Q) (get_default (maidens data) 0)
           id match_id innings_num
           (insert_or_ignore_performance_rows id match_id team innings_num key
              (player_match_performance (cursor f)))) = [row]
      /\ row = set_bowling (get_default (overs data) 0%Q)
                 (get_default (wickets data) 0) (get_default (bowl_runs data) 0)
                 (get_default (economy data) 0%Q) (get_default (maidens data) 0)
                 row
      /\ batting_columns row
         = match filter (same_triple match_id id innings_num)
                   (player_match_performance (cursor f)) with
           | r0 :: _ => batting_columns r0
           | [] => default_batting
           end).
  { rewrite filter_update_bowling.
    unfold insert_or_ignore_performance_rows.
    destruct (existsb (same_triple match_id id innings_num)
                (player_match_performance (cursor f))) eqn:E.
    - destruct (filter_one match_id id innings_num _ Huniq E) as [r0 Hr0].
      rewrite Hr0. cbn [map]. eexists. repeat split; reflexivity.
    - rewrite filter_app, (filter_none _ _ _ _ E). cbn [app filter].
      assert (Hnew : forall rid,
                same_triple match_id id innings_num
                  (mkPerformance rid id match_id team innings_num None
                     0 0 0 0 0 0 0 0 0 0 None (Some key)) = true).
      { intros rid. apply same_triple_iff. reflexivity. }
      rewrite Hnew. cbn [map]. eexists. repeat split; reflexivity. }
  destruct Hrows as [row [Hrow [Hset Hbat]]].
  exists row. rewrite Hrow.
  repeat split; try reflexivity; try exact Hbat; try exact Hid;
    rewrite Hset; reflexivity.
Qed.

(** The theorem at the bowling entry of the all-rounder, on an empty
    store. *)
Lemma bowling_entry_merges_into_its_row_witness :
  exists (id : Z) (row : PerformanceRow),
    performances_of 501 id 1
      (cursor (fst (store_bowler 501 1 (Some 2) ("p7", Some jadeja_bowl)
                      (mkFrame empty_db stats0 0)))) = [row]
    /\ pmp_wickets_taken row = 2
    /\ batting_columns row = default_batting.
Proof.
  assert (Huniq : unique_triples (cursor (mkFrame empty_db stats0 0)))
    by constructor.
  destruct (bowling_entry_merges_into_its_row 501 1 (Some 2) "p7" jadeja_bowl
              (mkFrame empty_db stats0 0) Huniq eq_refl)
    as [id [row [_ [_ [Hrow [_ [Hw [_ [_ [_ [Hbat _]]]]]]]]]]].
  exists id, row. split; [exact Hrow | split; [exact Hw | exact Hbat]].
Defined.

(* ------------------------------------------------------------------ *)
(** ** Aggregator: further properties *)

Lemma forallb_on_map {A B : Type} (f : B -> bool) (g : A -> B) (l : list A) :
  forallb (fun x => f (g x)) l = forallb f (map g l).
Proof.
  induction l as [| x l IH]; [reflexivity |]. cbn [forallb map]. now rewrite IH.
Qed.

(** Whether the UPDATE succeeds depends on the performance table and
    on the ids of the players only. *)
Lemma no_sum_overflows_depends (d0 d : Database) :
  player_match_performance d0 = player_match_performance d ->
  map p_player_id (players d0) = map p_player_id (players d) ->
  no_sum_overflows d0 = no_sum_overflows d.
Proof.
  intros Hperf Hids. unfold no_sum_overflows.
  rewrite (forallb_on_map (sums_fit (player_match_performance d0)) p_player_id),
          (forallb_on_map (sums_fit (player_match_performance d)) p_player_id).
  now rewrite Hperf, Hids.
Qed.

Lemma recomputed_of_identity (round_to_2 : Q -> Q) (perf : list PerformanceRow)
    (l0 l : list PlayerRow) :
  map player_identity l0 = map player_identity l ->
  map (recomputed round_to_2 perf) l0 = map (recomputed round_to_2 perf) l.
Proof.
  revert l. induction l0 as [| p0 l0 IH]; intros [| p l] Hid;
    try discriminate; [reflexivity |].
  cbn [map] in *. inversion Hid as [[H1 H2 H3 H4 H5 Hrest]].
  f_equal; [| now apply IH].
  unfold recomputed. now rewrite H1, H2, H3, H4, H5.
Qed.

Lemma identity_gives_ids (l0 l : list PlayerRow) :
  map player_identity l0 = map player_identity l ->
  map p_player_id l0 = map p_player_id l.
Proof.
  intros H.
  apply (f_equal (map (fun t : Z * string * option Z * option string
                               * option string =>
                         fst (fst (fst (fst t)))))) in H.
  now rewrite !map_map in H.
Qed.

(** X15.  The player recomputation is idempotent: a second run leaves
    the database as the first run left it, in every column that is
    not a timestamp (a successful run also sets updated_at to the
    current time).  A run keeps the identity columns of every player
    and leaves all other tables as they were.  When no SUM overflows
    it supersedes what was stored: the aggregates depend only on the
    performance table and on the identity columns, so two stores
    that differ only in their stored aggregates end with the same
    players table. *)
Theorem update_player_statistics_is_idempotent :
  forall (round_to_2 : Q -> Q) (d : Database),
    let d1 := fst (update_player_statistics round_to_2 d) in
    update_player_statistics round_to_2 d1 = (d1, Ok tt)
    /\ map player_identity (players d1) = map player_identity (players d)
    /\ player_match_performance d1 = player_match_performance d
    /\ teams d1 = teams d /\ venues d1 = venues d /\ matches d1 = matches d
    /\ team_statistics d1 = team_statistics d
    /\ (no_sum_overflows d = true ->
        forall d0 : Database,
          player_match_performance d0 = player_match_performance d ->
          map player_identity (players d0) = map player_identity (players d) ->
          players (fst (update_player_statistics round_to_2 d0)) = players d1).
Proof.
  intros round_to_2 d d1. unfold d1.
  destruct (no_sum_overflows d) eqn:Hfit.
  - destruct (update_player_statistics_fits round_to_2 d Hfit) as [_ Hrun].
    rewrite Hrun. cbn [fst].
    set (d' := set_players _ d).
    assert (Hperf : player_match_performance d' = player_match_performance d)
      by reflexivity.
    assert (Hid : map player_identity (players d')
                  = map player_identity (players d)).
    { unfold d', set_players. cbn [players]. rewrite map_map. reflexivity. }
    assert (Hfit' : no_sum_overflows d' = true).
    { rewrite (no_sum_overflows_depends d' d Hperf
                 (identity_gives_ids _ _ Hid)). exact Hfit. }
    split; [| split; [exact Hid | repeat split]].
    + destruct (update_player_statistics_fits round_to_2 d' Hfit') as [_ Hrun'].
      rewrite Hrun'. f_equal. rewrite Hperf.
      rewrite (recomputed_of_identity round_to_2 _ _ _ Hid).
      unfold d', set_players. reflexivity.
    + intros _ d0 Hperf0 Hid0.
      assert (Hfit0 : no_sum_overflows d0 = true).
      { rewrite (no_sum_overflows_depends d0 d Hperf0
                   (identity_gives_ids _ _ Hid0)). exact Hfit. }
      destruct (update_player_statistics_fits round_to_2 d0 Hfit0)
        as [_ Hrun0].
      rewrite Hrun0. cbn [fst set_players players]. rewrite Hperf0.
      unfold d', set_players. cbn [players].
      now apply recomputed_of_identity.
  - destruct (update_player_statistics_overflows round_to_2 d Hfit)
      as [_ Hrun].
    rewrite Hrun. cbn [fst]. rewrite Hrun.
    repeat split. intros Habsurd. discriminate Habsurd.
Qed.

(** The theorem at a store with aggregates on record that the
    performance rows do not bear out: they are superseded. *)
Lemma update_player_statistics_is_idempotent_witness :
  players (fst (update_player_statistics Sql.decimal_round
                  (set_players
                     (map (fun p =>
                             mkPlayer (p_player_id p) (p_player_name p)
                                      (p_team_id p) (p_role p) (SqlInt 9)
                                      (SqlInt 999) (SqlInt 9) (SqlReal 99)
                                      SqlNull (p_player_key p)))
                     two_innings_db)))
  = players (fst (update_player_statistics Sql.decimal_round two_innings_db)).
Proof.
  apply (proj2 (proj2 (proj2 (proj2 (proj2 (proj2 (proj2
           (update_player_statistics_is_idempotent Sql.decimal_round
              two_innings_db)))))))
         eq_refl);
    reflexivity.
Defined.

Lemma update_one_team_row (team : TeamRow) (d : Database) :
  update_one_team team d
  = (set_team_statistics
       (fun table =>
          table ++
          [mkTeamStat (next_rowid ts_stat_id table) (Some (t_team_id team))
             (Z.of_nat (List.length
                          (completed_matches_of (t_team_id team) (matches d))))
             (Z.of_nat (List.length
                          (matches_won_by (t_team_id team) (matches d))))
             (Z.of_nat (List.length
                          (completed_matches_of (t_team_id team) (matches d)))
              - Z.of_nat (List.length
                            (matches_won_by (t_team_id team) (matches d))))
             0 0]) d, Ok tt).
Proof.
  unfold update_one_team, bind, gets, modify, set_team_statistics.
  cbn [fst snd select_team_record].
  rewrite insert_or_replace_team_statistics_appends.
  set (rows := completed_matches_of (t_team_id team) (matches d)).
  assert (Hwon : int_or_zero (Sql.sum_of_flags (map (won_by (t_team_id team)) rows))
                 = Z.of_nat (List.length (matches_won_by (t_team_id team)
                                            (matches d)))).
  { unfold matches_won_by. fold rows. rewrite <- total_won_by.
    destruct rows; reflexivity. }
  rewrite Hwon. reflexivity.
Qed.

Lemma length_filter_le {R : Type} (keep : R -> bool) (rows : list R) :
  (List.length (filter keep rows) <= List.length rows)%nat.
Proof.
  induction rows as [| r rows IH]; cbn [filter List.length]; [lia |].
  destruct (keep r); cbn [List.length]; lia.
Qed.

(** Rows of team statistics that make sense as a record, with their
    ids unique. *)
Lemma update_team_statistics_preserves_sound :
  preserves
    (fun d => NoDup (map ts_stat_id (team_statistics d))
              /\ Forall (fun row =>
                           0 <= ts_matches_won row <= ts_matches_played row
                           /\ 0 <= ts_matches_lost row <= ts_matches_played row
                           /\ ts_matches_drawn row = 0
                           /\ ts_matches_tied row = 0)
                        (team_statistics d))
    update_team_statistics.
Proof.
  unfold update_team_statistics.
  apply preserves_try_except; [| intros _; apply preserves_ret].
  apply preserves_bind; [apply preserves_gets | intros ts].
  apply preserves_for_each. intros team d [Hnd Hall].
  rewrite update_one_team_row. cbn [fst set_team_statistics team_statistics].
  split.
  - apply NoDup_map_snoc; [exact Hnd |]. cbn [ts_stat_id].
    intros Hin. apply in_map_iff in Hin as [r [Hr Hin]].
    pose proof (below_next_rowid ts_stat_id (team_statistics d) r Hin). lia.
  - apply Forall_app. split; [exact Hall |].
    constructor; [| constructor].
    cbn [ts_matches_won ts_matches_played ts_matches_lost ts_matches_drawn
         ts_matches_tied].
    pose proof (length_filter_le
                  (fun m => opt_eqb (m_match_winner_id m) (t_team_id team))
                  (completed_matches_of (t_team_id team) (matches d))) as Hle.
    fold (matches_won_by (t_team_id team) (matches d)) in Hle.
    repeat split; lia.
Qed.

(** X16.  The team recomputation keeps its table sound: if the stat
    ids are unique and every row has 0 <= won <= played, 0 <= lost <=
    played and drawn = tied = 0 before a run, the same holds after
    it.  In particular the rows a run writes never have a drawn or
    tied match: those are counted in matches_lost. *)
Theorem update_team_statistics_keeps_records_sound :
  forall d : Database,
    NoDup (map ts_stat_id (team_statistics d)) ->
    Forall (fun row =>
              0 <= ts_matches_won row <= ts_matches_played row
              /\ 0 <= ts_matches_lost row <= ts_matches_played row
              /\ ts_matches_drawn row = 0 /\ ts_matches_tied row = 0)
           (team_statistics d) ->
    let d' := fst (update_team_statistics d) in
    NoDup (map ts_stat_id (team_statistics d'))
    /\ Forall (fun row =>
                 0 <= ts_matches_won row <= ts_matches_played row
                 /\ 0 <= ts_matches_lost row <= ts_matches_played row
                 /\ ts_matches_drawn row = 0 /\ ts_matches_tied row = 0)
              (team_statistics d').
Proof.
  intros d Hnd Hall.
  exact (update_team_statistics_preserves_sound d (conj Hnd Hall)).
Qed.

(** The theorem at two runs over the store with two results. *)
Lemma update_team_statistics_keeps_records_sound_witness :
  NoDup (map ts_stat_id
           (team_statistics (fst (update_team_statistics two_results_db))))
  /\ Forall (fun row =>
               0 <= ts_matches_won row <= ts_matches_played row
               /\ 0 <= ts_matches_lost row <= ts_matches_played row
               /\ ts_matches_drawn row = 0 /\ ts_matches_tied row = 0)
            (team_statistics (fst (update_team_statistics two_results_db))).
Proof.
  apply (update_team_statistics_keeps_records_sound two_results_db);
    constructor.
Defined.

Lemma length_nodup_le (values : list Z) :
  (List.length (nodup Z.eq_dec values) <= List.length values)%nat.
Proof.
  induction values as [| v values IH]; cbn [nodup List.length]; [lia |].
  destruct (in_dec Z.eq_dec v values); cbn [List.length]; lia.
Qed.

(** X17.  After a player recomputation in which no SUM overflows, no
    aggregate column is NULL.  Every player on record is still on
    record, with matches_played an integer between 0 and the number
    of the player's performance rows, with runs_scored and
    wickets_taken the integer totals over those rows, and with
    batting_average and strike_rate REAL values. *)
Theorem aggregates_are_numbers :
  forall (round_to_2 : Q -> Q) (d : Database) (p : PlayerRow),
    no_sum_overflows d = true ->
    In p (players d) ->
    let rows := rows_of_player (p_player_id p) (player_match_performance d) in
    exists p',
      In p' (players (fst (update_player_statistics round_to_2 d)))
      /\ player_identity p' = player_identity p
      /\ (exists n, p_matches_played p' = SqlInt n
                    /\ 0 <= n <= Z.of_nat (List.length rows))
      /\ p_runs_scored p' = SqlInt (Sql.total (map pmp_runs_scored rows))
      /\ p_wickets_taken p' = SqlInt (Sql.total (map pmp_wickets_taken rows))
      /\ (exists q, p_batting_average p' = SqlReal q)
      /\ (exists q, p_strike_rate p' = SqlReal q).
Proof.
  intros round_to_2 d p Hfit Hin rows.
  destruct (update_player_statistics_fits round_to_2 d Hfit) as [_ Hrun].
  rewrite Hrun. cbn [fst set_players players].
  exists (recomputed round_to_2 (player_match_performance d) p).
  split; [now apply in_map |]. split; [reflexivity |].
  cbn [recomputed p_matches_played p_runs_scored p_wickets_taken
       p_batting_average p_strike_rate].
  fold rows. split; [| split; [reflexivity | split; [reflexivity |]]].
  - unfold Sql.count_distinct. eexists. split; [reflexivity |].
    pose proof (length_nodup_le (map pmp_match_id rows)) as Hl.
    rewrite length_map in Hl. lia.
  - split.
    + unfold average_over. destruct (rows_with_runs _ _); eexists; reflexivity.
    + unfold rate_over. destruct (rows_with_balls _ _); eexists; reflexivity.
Qed.

(** The theorem at the player with two innings in two matches. *)
Lemma aggregates_are_numbers_witness :
  exists p',
    In p' (players (fst (update_player_statistics Sql.decimal_round
                           two_innings_db)))
    /\ p_player_id p' = 1000001
    /\ p_runs_scored p' = SqlInt 80.
Proof.
  destruct (aggregates_are_numbers Sql.decimal_round two_innings_db
              (new_player 1000001 "A Batter") eq_refl (or_introl eq_refl))
    as [p' [Hin [Hid [_ [Hruns _]]]]].
  exists p'. split; [exact Hin |]. split.
  - exact (f_equal (fun t => fst (fst (fst (fst t)))) Hid).
  - exact Hruns.
Defined.

(* ------------------------------------------------------------------ *)
(** ** The match feeds *)

Example live_feed_run :
  fetch_live_matches no_date 10 (serves live_payload) stats0 net0 empty_db
  = (mkStats 1 1 0 0 0 0, mkNet ["/matches/v1/live"] 1,
     mkDatabase
       [ mkTeam 10 "India" (Some "IND") None;
         mkTeam 20 "Australia" (Some "AUS") None ]
       [ mkVenue 99 "Wankhede" (Some "Mumbai") None None ]
       [ mkMatch 501 (Some "1st ODI") (Some "ODI") None (Some 7) (Some 10)
           (Some 20) (Some 99) None None None None None (Some "Live") ]
       [] [] [],
     Returns).
Proof. reflexivity. Qed.

Example recent_feed_run :
  fetch_recent_matches no_date 10 (serves live_payload) stats0 net0
    (mkStore empty_db [])
  = (mkStats 1 1 0 2 0 0, mkNet ["/matches/v1/recent"] 1,
     mkStore
       (mkDatabase
          [ mkTeam 10 "India" (Some "IND") None;
            mkTeam 20 "Australia" (Some "AUS") None ]
          [ mkVenue 99 "Wankhede" (Some "Mumbai") None None ]
          [ mkMatch 501 (Some "1st ODI") (Some "ODI") None (Some 7) (Some 10)
              (Some 20) (Some 99) None None None None None
              (Some "In Progress") ]
          [] [] [])
       [ mkSeries 7 "Border Trophy" None None None ],
     Returns).
Proof. reflexivity. Qed.

Lemma store_match_data_returns (local_date : string -> option string)
    (e : MatchData) (series_id : option Z) (is_live : bool) (d : Database) :
  store_match_data local_date e series_id is_live d
  = (after_store_match_data local_date e series_id is_live d, Ok tt).
Proof.
  unfold after_store_match_data.
  destruct (store_match_data local_date e series_id is_live d) as [d' r] eqn:E.
  cbn [fst]. f_equal.
  assert (H : snd (store_match_data local_date e series_id is_live d) = Ok tt).
  { unfold store_match_data, try_except.
    match goal with
    | |- snd (match ?body with _ => _ end) = _ =>
        destruct body as [d0 [[] | ex]]; reflexivity
    end. }
  rewrite E in H. exact H.
Qed.

(** [for_each] over two lists in a row. *)
Lemma for_each_app {S A : Type} (xs ys : list A) (body : A -> M S unit)
    (s : S) :
  for_each (xs ++ ys) body s
  = bind (for_each xs body) (fun _ => for_each ys body) s.
Proof.
  revert s. induction xs as [| x xs IH]; intros s; cbn [app for_each].
  - reflexivity.
  - unfold bind in *. destruct (body x s) as [s' [[] | e]];
      [apply IH | reflexivity].
Qed.

(** A loop whose turns do the same as the turns of another loop over
    the lists [expand x]. *)
Lemma for_each_flat_map {S A B : Type} (xs : list A) (expand : A -> list B)
    (outer : A -> M S unit) (inner : B -> M S unit) :
  (forall x s, outer x s = for_each (expand x) inner s) ->
  forall s, for_each xs outer s = for_each (flat_map expand xs) inner s.
Proof.
  intros Hturn. induction xs as [| x xs IH]; intros s;
    cbn [for_each flat_map]; [reflexivity |].
  rewrite for_each_app. unfold bind. rewrite Hturn.
  destruct (for_each (expand x) inner s) as [s' [[] | e]];
    [apply IH | reflexivity].
Qed.

Lemma for_each_map {S A B : Type} (xs : list A) (f : A -> B)
    (body : B -> M S unit) (s : S) :
  for_each (map f xs) body s = for_each xs (fun x => body (f x)) s.
Proof.
  revert s. induction xs as [| x xs IH]; intros s; cbn [map for_each];
    [reflexivity |].
  unfold bind. destruct (body (f x) s) as [s' [[] | e]];
    [apply IH | reflexivity].
Qed.

(** A loop whose turns never raise is a fold. *)
Lemma for_each_total {S A : Type} (xs : list A) (body : A -> M S unit)
    (step : A -> S -> S) :
  (forall x s, body x s = (step x s, Ok tt)) ->
  forall s, for_each xs body s = (fold_left (fun acc x => step x acc) xs s, Ok tt).
Proof.
  intros Hbody. induction xs as [| x xs IH]; intros s;
    cbn [for_each fold_left]; [reflexivity |].
  unfold bind. rewrite Hbody. apply IH.
Qed.

(** The three loops of the live feed, flattened. *)
Lemma live_loops_are_a_fold (local_date : string -> option string)
    (type_matches : list TypeMatch) (d : Database) :
  for_each_match type_matches (fun _ => ret tt)
    (fun series_info match_data =>
       store_match_data local_date match_data (seriesId series_info) true) d
  = (ingest_all local_date true (entries_of type_matches) d, Ok tt).
Proof.
  unfold for_each_match, entries_of, ingest_all.
  rewrite (for_each_flat_map type_matches entries_of_type _
             (fun entry => store_match_data local_date (snd entry) (fst entry)
                             true)).
  - apply for_each_total. intros x s. apply store_match_data_returns.
  - intros type_match s. unfold entries_of_type.
    destruct (seriesMatches type_match) as [series_matches |];
      cbn [get_default]; [| reflexivity].
    apply for_each_flat_map. intros series_match s0. unfold entries_of_series.
    destruct (seriesAdWrapper series_match) as [series_info |];
      [| reflexivity].
    unfold bind, ret.
    destruct (wrapper_matches series_info) as [ms |]; cbn [get_default map];
      [| reflexivity].
    now rewrite for_each_map.
Qed.

Lemma ingest_all_snoc (local_date : string -> option string) (is_live : bool)
    (entries : list (option Z * MatchData)) (entry : option Z * MatchData)
    (d : Database) :
  ingest_all local_date is_live (entries ++ [entry]) d
  = after_store_match_data local_date (snd entry) (fst entry) is_live
      (ingest_all local_date is_live entries d).
Proof. unfold ingest_all. now rewrite fold_left_app. Qed.

(** X18.  The live feed makes one call of [make_api_request] to
    /matches/v1/live and leaves the counters as that call left them.
    When the call returns no document, or one without 'typeMatches',
    the database is untouched.  Otherwise, for a payload of the
    documented shape, the database afterwards is the one obtained by
    ingesting as live, one after the other, every match entry of the
    payload in document order: a match type without 'seriesMatches',
    a series without 'seriesAdWrapper' and a wrapper without 'matches'
    contribute nothing, and an entry that [store_match_data] skips, or
    whose INSERT fails inside it, does not keep the later entries from
    being ingested. *)
Theorem live_feed_ingests_every_entry :
  forall (local_date : string -> option string) (depth : nat)
         (server : nat -> Reply MatchesPayload)
         (self : Stats) (net : Net) (d : Database)
         (reply : option MatchesPayload),
    let call := make_api_request depth server self net "/matches/v1/live" in
    let result := fetch_live_matches local_date depth server self net d in
    snd call = Return reply ->
    fst (fst result) = fst call
    /\ snd (fst result)
       = match reply with
         | Some data =>
             ingest_all local_date true
               (entries_of (get_default (typeMatches data) [])) d
         | None => d
         end
    /\ snd result = Returns.
Proof.
  intros local_date depth server self net d reply call result Hcall.
  unfold result, fetch_live_matches. fold call.
  destruct call as [[self' net'] r]; cbn [fst snd] in *. subst r.
  destruct reply as [data |]; [| repeat split].
  destruct (typeMatches data) as [tms |]; cbn [get_default];
    [| repeat split].
  unfold cursor_execute, connect. cbn [view stored].
  rewrite live_loops_are_a_fold. cbn [fst snd commit close view stored].
  repeat split.
Qed.

(** The theorem at a payload with match 501 and an entry with id 0,
    which is skipped. *)
Lemma live_feed_ingests_every_entry_witness :
  snd (fst (fetch_live_matches no_date 10 (serves live_payload) stats0 net0
              empty_db))
  = ingest_all no_date true
      [ (Some 7, match_501_in_play); (Some 7, match_with_id_0) ] empty_db.
Proof.
  exact (proj1 (proj2
           (live_feed_ingests_every_entry no_date 10 (serves live_payload)
              stats0 net0 empty_db (Some live_payload) eq_refl))).
Defined.

Lemma rows_after_store (local_date : string -> option string)
    (e : MatchData) (series_id : option Z) (is_live : bool) (d : Database)
    (row : MatchRow) :
  In row (matches (after_store_match_data local_date e series_id is_live d)) ->
  In row (matches d)
  \/ exists id,
       match_id_of e = Some id
       /\ row = match_row_of local_date id
                  (get_default (matchInfo e) no_match_info) series_id is_live.
Proof.
  destruct (accepted e series_id) eqn:Hacc.
  - destruct (accepted_has_id e series_id Hacc) as [id Hid].
    rewrite (matches_after_accepted local_date e series_id is_live id d Hacc Hid).
    unfold insert_or_replace_match_rows. intros Hin.
    apply in_app_or in Hin as [Hin | [<- | []]].
    + left. now apply filter_In in Hin as [Hin _].
    + right. now exists id.
  - rewrite matches_unchanged_when_not_accepted by exact Hacc. now left.
Qed.

Lemma live_rows_after_ingest (local_date : string -> option string)
    (entries : list (option Z * MatchData)) (d : Database) :
  forall row,
    In row (matches (ingest_all local_date true entries d)) ->
    In row (matches d) \/ m_match_status row = Some "Live".
Proof.
  induction entries as [| entry entries IH] using rev_ind; intros row Hin.
  - now left.
  - rewrite ingest_all_snoc in Hin.
    apply rows_after_store in Hin as [Hin | [id [_ ->]]];
      [now apply IH | now right].
Qed.

Lemma live_row_of_entry (local_date : string -> option string)
    (entries : list (option Z * MatchData)) (d : Database)
    (series_id : option Z) (e : MatchData) (id : Z) :
  In (series_id, e) entries ->
  accepted e series_id = true ->
  match_id_of e = Some id ->
  exists row,
    matches_with_id id (ingest_all local_date true entries d) = [row]
    /\ m_match_status row = Some "Live".
Proof.
  induction entries as [| entry entries IH] using rev_ind;
    intros Hin Hacc Hid; [contradiction |].
  rewrite ingest_all_snoc.
  set (acc := ingest_all local_date true entries d) in *.
  assert (Hlast : forall s0 e0,
            accepted e0 s0 = true -> match_id_of e0 = Some id ->
            exists row,
              matches_with_id id
                (after_store_match_data local_date e0 s0 true acc) = [row]
              /\ m_match_status row = Some "Live").
  { intros s0 e0 Ha Hi. eexists. split.
    - unfold matches_with_id.
      rewrite (matches_after_accepted local_date e0 s0 true id acc Ha Hi).
      apply (insert_or_replace_match_single
               (match_row_of local_date id
                  (get_default (matchInfo e0) no_match_info) s0 true)).
    - reflexivity. }
  apply in_app_or in Hin as [Hin | [Heq | []]];
    [| subst entry; cbn [fst snd]; now apply Hlast].
  destruct entry as [s0 e0]. cbn [fst snd].
  destruct (IH Hin Hacc Hid) as [row [Hrow Hlive]].
  destruct (accepted e0 s0) eqn:Ha0.
  - destruct (accepted_has_id e0 s0 Ha0) as [id0 Hid0].
    destruct (Z.eq_dec id0 id) as [-> | Hne]; [now apply Hlast |].
    exists row. split; [| exact Hlive].
    rewrite other_matches_kept; [exact Hrow | congruence].
  - exists row. split; [| exact Hlive].
    unfold matches_with_id.
    now rewrite matches_unchanged_when_not_accepted.
Qed.

(** X19.  What the live feed writes is marked live, whatever state
    title the payload carries: every row of [matches] after a run is
    a row that was there before or has status "Live", and every
    accepted entry of the payload ends with exactly one row for its
    match id, with status "Live". *)
Theorem live_feed_marks_matches_live :
  forall (local_date : string -> option string) (depth : nat)
         (server : nat -> Reply MatchesPayload)
         (self : Stats) (net : Net) (d : Database),
    let call := make_api_request depth server self net "/matches/v1/live" in
    let d' := snd (fst (fetch_live_matches local_date depth server self net d)) in
    (forall row, In row (matches d') ->
                 In row (matches d) \/ m_match_status row = Some "Live")
    /\ (forall data series_id e id,
          snd call = Return (Some data) ->
          In (series_id, e) (entries_of (get_default (typeMatches data) [])) ->
          accepted e series_id = true ->
          match_id_of e = Some id ->
          exists row, matches_with_id id d' = [row]
                      /\ m_match_status row = Some "Live").
Proof.
  intros local_date depth server self net d call d'.
  assert (Hd' : d' = match snd call with
                     | Return (Some data) =>
                         ingest_all local_date true
                           (entries_of (get_default (typeMatches data) [])) d
                     | _ => d
                     end).
  { unfold d', call, fetch_live_matches.
    destruct (make_api_request depth server self net "/matches/v1/live")
      as [[self' net'] [[data |] |]]; cbn [fst snd]; try reflexivity.
    destruct (typeMatches data) as [tms |]; cbn [get_default];
      [| reflexivity].
    unfold cursor_execute, connect. cbn [view stored].
    now rewrite live_loops_are_a_fold. }
  rewrite Hd'. clearbody d'. clear Hd'. split.
  - intros row Hin. destruct (snd call) as [[data |] |]; try now left.
    now apply live_rows_after_ingest in Hin.
  - intros data series_id e id Hcall Hin Hacc Hid. rewrite Hcall.
    now apply (live_row_of_entry local_date _ d series_id e id).
Qed.

(** The theorem at the live payload with match 501. *)
Lemma live_feed_marks_matches_live_witness :
  exists row,
    matches_with_id 501
      (snd (fst (fetch_live_matches no_date 10 (serves live_payload)
                   stats0 net0 two_results_db))) = [row]
    /\ m_match_status row = Some "Live".
Proof.
  apply (proj2 (live_feed_marks_matches_live no_date 10 (serves live_payload)
                  stats0 net0 two_results_db)
           live_payload (Some 7) match_501_in_play 501).
  - reflexivity.
  - cbn. now left.
  - reflexivity.
  - reflexivity.
Defined.

Lemma bind_ret_unit {S : Type} (m : M S unit) (s : S) :
  bind m (fun _ => ret tt) s = m s.
Proof. unfold bind, ret. destruct (m s) as [s' [[] | e]]; reflexivity. Qed.

(** The loops of a feed, series wrapper by series wrapper. *)
Lemma feed_loops_by_wrapper {S : Type} (type_matches : list TypeMatch)
    (on_series : SeriesAdWrapper -> M S unit)
    (on_match : SeriesAdWrapper -> MatchData -> M S unit) (s : S) :
  for_each_match type_matches on_series on_match s
  = for_each (wrappers_of type_matches)
      (fun w => bind (on_series w)
                  (fun _ => for_each (get_default (wrapper_matches w) [])
                              (on_match w))) s.
Proof.
  unfold for_each_match, wrappers_of.
  apply for_each_flat_map. intros type_match s0.
  destruct (seriesMatches type_match) as [sms |]; cbn [get_default];
    [| reflexivity].
  apply for_each_flat_map. intros sm s1.
  destruct (seriesAdWrapper sm) as [w |]; [| reflexivity].
  cbn [for_each]. rewrite bind_ret_unit.
  unfold bind. destruct (on_series w s1) as [s2 [[] | e]]; [| reflexivity].
  destruct (wrapper_matches w); reflexivity.
Qed.

Lemma entries_of_wrappers (type_matches : list TypeMatch) :
  entries_of type_matches = flat_map wrapper_entries (wrappers_of type_matches).
Proof.
  unfold entries_of, wrappers_of.
  induction type_matches as [| tm tms IH]; [reflexivity |].
  cbn [flat_map]. rewrite flat_map_app, IH. f_equal.
  unfold entries_of_type.
  induction (get_default (seriesMatches tm) []) as [| sm sms IHs];
    [reflexivity |].
  cbn [flat_map]. rewrite flat_map_app, IHs. f_equal.
  unfold entries_of_series, wrapper_entries.
  destruct (seriesAdWrapper sm) as [w |]; cbn [flat_map];
    [now rewrite app_nil_r | reflexivity].
Qed.

(** The matches of one wrapper, ingested and counted. *)
Lemma recent_matches_of_wrapper (local_date : string -> option string)
    (series_id : option Z) (ms : list MatchData) :
  forall b : Batch,
    for_each ms
      (fun match_data =>
         bind (on_core (store_match_data local_date match_data series_id false))
              (fun _ => count_match_stored)) b
    = (mkBatch
         (mkStore
            (ingest_all local_date false (map (fun m => (series_id, m)) ms)
               (core (b_store b)))
            (series (b_store b)))
         (add_matches_stored (Z.of_nat (List.length ms)) (b_stats b)), Ok tt).
Proof.
  induction ms as [| m ms IH]; intros [[c sr] st].
  - cbn. unfold add_matches_stored. cbn. rewrite Z.add_0_r.
    now destruct st.
  - cbn [for_each]. unfold bind at 1. unfold bind at 1. unfold on_core.
    cbn [b_store b_stats core series].
    rewrite store_match_data_returns. cbn [count_match_stored modify].
    rewrite IH. cbn [b_store b_stats core series map ingest_all fold_left
                     fst snd].
    unfold ingest_all, add_matches_stored.
    cbn [api_calls successful_calls failed_calls matches_stored players_stored
         performances_stored List.length].
    do 3 f_equal. lia.
Qed.

(** One wrapper whose series id binds. *)
Lemma recent_wrapper_step (local_date : string -> option string)
    (w : SeriesAdWrapper) (b : Batch) :
  sqlite_opt_int (seriesId w) = true ->
  bind (insert_or_ignore_series (seriesId w)
          (get_default (seriesName w) "Unknown Series"))
       (fun _ => for_each (get_default (wrapper_matches w) [])
                   (fun match_data =>
                      bind (on_core (store_match_data local_date match_data
                                       (seriesId w) false))
                           (fun _ => count_match_stored))) b
  = (mkBatch
       (mkStore
          (ingest_all local_date false (wrapper_entries w) (core (b_store b)))
          (insert_or_ignore_series_rows (seriesId w)
             (get_default (seriesName w) "Unknown Series")
             (series (b_store b))))
       (add_matches_stored
          (Z.of_nat (List.length (wrapper_entries w))) (b_stats b)), Ok tt).
Proof.
  intros Hbind. unfold bind at 1. unfold insert_or_ignore_series, bind at 1.
  rewrite bind_ints_ok by (cbn [forallb]; now rewrite Hbind).
  cbn [modify]. rewrite recent_matches_of_wrapper.
  cbn [b_store b_stats core series]. unfold wrapper_entries.
  now rewrite length_map.
Qed.

Lemma series_rows_extend (series_id : option Z) (name : string)
    (table : list SeriesRow) :
  exists new,
    insert_or_ignore_series_rows series_id name table = table ++ new
    /\ (List.length new <= 1)%nat.
Proof.
  unfold insert_or_ignore_series_rows. destruct series_id as [id |].
  - destruct (existsb _ table).
    + exists []. split; [now rewrite app_nil_r | cbn; lia].
    + eexists. split; [reflexivity | cbn; lia].
  - eexists. split; [reflexivity | cbn; lia].
Qed.

(** The loop over the wrappers when every series id binds. *)
Lemma recent_wrappers_run (local_date : string -> option string)
    (ws : list SeriesAdWrapper) :
  Forall (fun w => sqlite_opt_int (seriesId w) = true) ws ->
  forall b : Batch,
  exists new_series,
    for_each ws
      (fun w =>
         bind (insert_or_ignore_series (seriesId w)
                 (get_default (seriesName w) "Unknown Series"))
              (fun _ => for_each (get_default (wrapper_matches w) [])
                          (fun match_data =>
                             bind (on_core (store_match_data local_date
                                              match_data (seriesId w) false))
                                  (fun _ => count_match_stored)))) b
    = (mkBatch
         (mkStore
            (ingest_all local_date false (flat_map wrapper_entries ws)
               (core (b_store b)))
            (series (b_store b) ++ new_series))
         (add_matches_stored
            (Z.of_nat (List.length (flat_map wrapper_entries ws)))
            (b_stats b)), Ok tt)
    /\ (List.length new_series <= List.length ws)%nat.
Proof.
  induction 1 as [| w ws Hw _ IH]; intros b.
  - exists []. cbn. unfold add_matches_stored. cbn.
    rewrite app_nil_r, Z.add_0_r. destruct b as [[c sr] st].
    split; [now destruct st | lia].
  - cbn [for_each]. unfold bind at 1.
    rewrite (recent_wrapper_step local_date w b Hw).
    destruct (series_rows_extend (seriesId w)
                (get_default (seriesName w) "Unknown Series")
                (series (b_store b))) as [new1 [Hnew1 Hlen1]].
    rewrite Hnew1.
    match goal with
    | |- context [for_each ws ?body ?b1] =>
        destruct (IH b1) as [new2 [Hrun Hlen2]]; rewrite Hrun
    end.
    cbn [b_store b_stats core series flat_map].
    exists (new1 ++ new2). split.
    + unfold ingest_all, add_matches_stored.
      rewrite fold_left_app, length_app, <- app_assoc.
      cbn [api_calls successful_calls failed_calls matches_stored
           players_stored performances_stored].
      do 3 f_equal. lia.
    + rewrite length_app. cbn [List.length]. lia.
Qed.

(** X20.  The recent feed, when it gets a document and every series
    id in it fits 64 bits: the tables of matches, teams and venues
    afterwards are those obtained by ingesting every match entry of
    the payload in document order (not as live); the old series rows
    are kept, followed by at most one new row per series wrapper; and
    [matches_stored] grows by the number of match entries in the
    payload - counting also the entries that were skipped. *)
Theorem recent_feed_ingests_every_entry :
  forall (local_date : string -> option string) (depth : nat)
         (server : nat -> Reply MatchesPayload)
         (self : Stats) (net : Net) (s : Store)
         (data : MatchesPayload) (type_matches : list TypeMatch),
    let call := make_api_request depth server self net "/matches/v1/recent" in
    let result := fetch_recent_matches local_date depth server self net s in
    snd call = Return (Some data) ->
    typeMatches data = Some type_matches ->
    Forall (fun w => sqlite_opt_int (seriesId w) = true)
           (wrappers_of type_matches) ->
    core (snd (fst result))
    = ingest_all local_date false (entries_of type_matches) (core s)
    /\ (exists new_series,
          series (snd (fst result)) = series s ++ new_series
          /\ (List.length new_series
              <= List.length (wrappers_of type_matches))%nat)
    /\ fst (fst (fst result))
       = add_matches_stored (Z.of_nat (List.length (entries_of type_matches)))
           (fst (fst call))
    /\ snd result = Returns.
Proof.
  intros local_date depth server self net s data tms call result
         Hcall Htms Hbind.
  unfold result, fetch_recent_matches. fold call.
  destruct call as [[self' net'] r]. cbn [fst snd] in *. subst r.
  rewrite Htms. rewrite feed_loops_by_wrapper.
  destruct (recent_wrappers_run local_date (wrappers_of tms) Hbind
              (mkBatch s self')) as [new [Hrun Hlen]].
  rewrite Hrun. cbn [fst snd b_store b_stats core series].
  rewrite <- entries_of_wrappers.
  repeat split. now exists new.
Qed.

(** The theorem at the payload with match 501 and match id 0. *)
Lemma recent_feed_ingests_every_entry_witness :
  matches_stored
    (fst (fst (fst (fetch_recent_matches no_date 10 (serves live_payload)
                      stats0 net0 (mkStore empty_db [])))))
  = 2.
Proof.
  assert (Hbind : Forall (fun w => sqlite_opt_int (seriesId w) = true)
                         (wrappers_of
                            (get_default (typeMatches live_payload) []))).
  { repeat constructor. }
  pose proof (recent_feed_ingests_every_entry no_date 10 (serves live_payload)
                stats0 net0 (mkStore empty_db []) live_payload
                (get_default (typeMatches live_payload) [])
                eq_refl eq_refl Hbind) as [_ [_ [Hstats _]]].
  exact (f_equal matches_stored Hstats).
Defined.

(** A loop with a turn that raises from every state ends by raising. *)
Lemma for_each_some_turn_raises {S A : Type} (body : A -> M S unit)
    (xs : list A) (x : A) :
  In x xs ->
  (forall s, exists s' e, body x s = (s', Raise e)) ->
  forall s, exists s' e, for_each xs body s = (s', Raise e).
Proof.
  intros Hin Hx. induction xs as [| y ys IH]; [destruct Hin |].
  intros s. cbn [for_each]. unfold bind.
  destruct (body y s) as [s1 [[] | e1]] eqn:Hy.
  - destruct Hin as [-> | Hin].
    + destruct (Hx s) as [s' [e He]]. congruence.
    + now apply IH.
  - now exists s1, e1.
Qed.

(** X21.  The recent feed is one transaction: when some series wrapper
    of the payload carries a [seriesId] that does not fit 64 bits, the
    insert into [series] raises, everything written so far is rolled
    back and the store is left exactly as it was found, while the
    function itself returns normally. *)
Theorem recent_feed_rolls_back_on_unbindable_series :
  forall (local_date : string -> option string) (depth : nat)
         (server : nat -> Reply MatchesPayload)
         (self : Stats) (net : Net) (s : Store)
         (data : MatchesPayload) (type_matches : list TypeMatch)
         (w : SeriesAdWrapper),
    let result := fetch_recent_matches local_date depth server self net s in
    snd (make_api_request depth server self net "/matches/v1/recent")
    = Return (Some data) ->
    typeMatches data = Some type_matches ->
    In w (wrappers_of type_matches) ->
    sqlite_opt_int (seriesId w) = false ->
    snd (fst result) = s /\ snd result = Returns.
Proof.
  intros local_date depth server self net s data tms w result
         Hcall Htms Hin Hbad.
  unfold result, fetch_recent_matches.
  destruct (make_api_request depth server self net "/matches/v1/recent")
    as [[self' net'] r].
  cbn [fst snd] in *. subst r. rewrite Htms, feed_loops_by_wrapper.
  match goal with
  | |- context [for_each (wrappers_of tms) ?body ?b] =>
      destruct (for_each_some_turn_raises body (wrappers_of tms) w Hin)
        with (s := b) as [b' [e He]]
  end.
  - intros b. unfold bind at 1. unfold insert_or_ignore_series, bind at 1.
    unfold bind_ints. cbn [forallb]. rewrite Hbad. cbn.
    now eexists _, _.
  - rewrite He. now split.
Qed.

(** The theorem at a feed whose second series has id 2^64: the first
    series and its match are rolled back with it. *)
Lemma recent_feed_rolls_back_on_unbindable_series_witness :
  snd (fst (fetch_recent_matches no_date 10
              (serves recent_payload_with_huge_series) stats0 net0
              (mkStore empty_db [])))
  = mkStore empty_db []
  /\ matches_stored
       (fst (fst (fst (fetch_recent_matches no_date 10
                         (serves recent_payload_with_huge_series) stats0 net0
                         (mkStore empty_db [])))))
     = 1.
Proof.
  split; [| reflexivity].
  apply (recent_feed_rolls_back_on_unbindable_series no_date 10
           (serves recent_payload_with_huge_series) stats0 net0
           (mkStore empty_db []) recent_payload_with_huge_series
           (get_default (typeMatches recent_payload_with_huge_series) [])
           (mkSeriesAdWrapper (Some (2 ^ 64)) (Some "Ashes")
              (Some [match_of_unnamed_teams]))
           eq_refl eq_refl).
  - cbn. right. now left.
  - reflexivity.
Defined.
